(** * Credit ledger and subscription-cap reconciliation

    A shallow embedding of the credit engine, [utils/credits.ts] (the module
    of [getBalance], [deductCredits], the allocations, the trial operations
    and [recalculateSubscriptionCap], found in
    [src/netlify/functions/stripe-portal.ts]), of the idempotency and sync
    helpers of [src/netlify/functions/utils/stripe.ts], and of the Stripe
    webhook function ([src/unnamed/part_003]), with the properties the
    specification states about them.

    The Supabase store is an explicit [World] value threaded through a small
    state-and-exception monad ([Task]); every [await supabaseAdmin.from(..)]
    of the source is one monadic step.  JavaScript numbers holding credit
    amounts are integers ([Z]); [Math.min] and [Math.max] are [Z.min] and
    [Z.max]; timestamps are milliseconds since the epoch. *)

From stdpp Require Import gmap strings list fin_maps.
From Stdlib Require Import ZArith Lia.

Local Open Scope Z_scope.

(** ** The store *)

Module Store.

(** A row of [user_credits].  [trial_balance] is read as
    [data.trial_balance ?? 0], so the column is nullable. *)
Record UserCredits := {
  subscription_balance : Z;
  topup_balance : Z;
  trial_balance : option Z;
  trial_expires_at : option Z;
  subscription_cap : Z;
  lifetime_earned : Z;
  lifetime_spent : Z;
  last_allocated : option Z;
  updated_at : option Z
}.

Inductive Pool := subscription | topup | trial.

(** A row of [credit_transactions].  The store assigns [tx_id] and
    [tx_created_at] on insert. *)
Record CreditTransaction := {
  tx_id : nat;
  tx_user_id : string;
  tx_amount : Z;
  tx_balance_after : Z;
  tx_pool : Pool;
  tx_type : string;
  tx_description : option string;
  tx_app_key : option string;
  tx_reference_id : option string;
  tx_created_at : Z
}.

(** A row of [app_credit_config]. *)
Record CreditConfig := {
  cfg_app_key : string;
  cfg_operation : string;
  cfg_is_active : bool;
  cfg_credit_cost : Z
}.

(** The columns of [app_subscriptions] the ledger reads or that
    [syncAppSubscription] keys its upsert on. *)
Record AppSubscription := {
  sub_user_id : string;
  sub_app_key : string;
  sub_stripe_price_id : option string;
  sub_status : string
}.

(** A row of [stripe_events]. *)
Record StripeEventRow := {
  ev_type : string;
  ev_payload : option string
}.

(** The whole store, the wall clock read by [new Date()], and the read
    failures of the moment: [read_error t = Some msg] makes every [select] on
    table [t] come back with [{ data: null, error: { message: msg } }].  The
    source never inspects the outcome of an [insert], [update] or [upsert],
    so writes are modelled as applied. *)
Record World := {
  user_credits : gmap string UserCredits;
  credit_transactions : list CreditTransaction;
  app_credit_config : list CreditConfig;
  app_subscriptions : list AppSubscription;
  stripe_events : gmap string StripeEventRow;
  clock : Z;
  read_error : string -> option string
}.

Definition with_user_credits (f : gmap string UserCredits -> gmap string UserCredits)
    (w : World) : World :=
  {| user_credits := f (user_credits w);
     credit_transactions := credit_transactions w;
     app_credit_config := app_credit_config w;
     app_subscriptions := app_subscriptions w;
     stripe_events := stripe_events w;
     clock := clock w;
     read_error := read_error w |}.

Definition with_credit_transactions (f : list CreditTransaction -> list CreditTransaction)
    (w : World) : World :=
  {| user_credits := user_credits w;
     credit_transactions := f (credit_transactions w);
     app_credit_config := app_credit_config w;
     app_subscriptions := app_subscriptions w;
     stripe_events := stripe_events w;
     clock := clock w;
     read_error := read_error w |}.

Definition with_app_subscriptions (f : list AppSubscription -> list AppSubscription)
    (w : World) : World :=
  {| user_credits := user_credits w;
     credit_transactions := credit_transactions w;
     app_credit_config := app_credit_config w;
     app_subscriptions := f (app_subscriptions w);
     stripe_events := stripe_events w;
     clock := clock w;
     read_error := read_error w |}.

Definition with_stripe_events (f : gmap string StripeEventRow -> gmap string StripeEventRow)
    (w : World) : World :=
  {| user_credits := user_credits w;
     credit_transactions := credit_transactions w;
     app_credit_config := app_credit_config w;
     app_subscriptions := app_subscriptions w;
     stripe_events := f (stripe_events w);
     clock := clock w;
     read_error := read_error w |}.

(** Column setters, one per column an [update] of the source writes. *)
Definition set_subscription_balance (v : Z) (r : UserCredits) : UserCredits :=
  {| subscription_balance := v;
     topup_balance := topup_balance r;
     trial_balance := trial_balance r;
     trial_expires_at := trial_expires_at r;
     subscription_cap := subscription_cap r;
     lifetime_earned := lifetime_earned r;
     lifetime_spent := lifetime_spent r;
     last_allocated := last_allocated r;
     updated_at := updated_at r |}.

Definition set_topup_balance (v : Z) (r : UserCredits) : UserCredits :=
  {| subscription_balance := subscription_balance r;
     topup_balance := v;
     trial_balance := trial_balance r;
     trial_expires_at := trial_expires_at r;
     subscription_cap := subscription_cap r;
     lifetime_earned := lifetime_earned r;
     lifetime_spent := lifetime_spent r;
     last_allocated := last_allocated r;
     updated_at := updated_at r |}.

Definition set_trial_balance (v : option Z) (r : UserCredits) : UserCredits :=
  {| subscription_balance := subscription_balance r;
     topup_balance := topup_balance r;
     trial_balance := v;
     trial_expires_at := trial_expires_at r;
     subscription_cap := subscription_cap r;
     lifetime_earned := lifetime_earned r;
     lifetime_spent := lifetime_spent r;
     last_allocated := last_allocated r;
     updated_at := updated_at r |}.

Definition set_trial_expires_at (v : option Z) (r : UserCredits) : UserCredits :=
  {| subscription_balance := subscription_balance r;
     topup_balance := topup_balance r;
     trial_balance := trial_balance r;
     trial_expires_at := v;
     subscription_cap := subscription_cap r;
     lifetime_earned := lifetime_earned r;
     lifetime_spent := lifetime_spent r;
     last_allocated := last_allocated r;
     updated_at := updated_at r |}.

Definition set_subscription_cap (v : Z) (r : UserCredits) : UserCredits :=
  {| subscription_balance := subscription_balance r;
     topup_balance := topup_balance r;
     trial_balance := trial_balance r;
     trial_expires_at := trial_expires_at r;
     subscription_cap := v;
     lifetime_earned := lifetime_earned r;
     lifetime_spent := lifetime_spent r;
     last_allocated := last_allocated r;
     updated_at := updated_at r |}.

Definition set_lifetime_earned (v : Z) (r : UserCredits) : UserCredits :=
  {| subscription_balance := subscription_balance r;
     topup_balance := topup_balance r;
     trial_balance := trial_balance r;
     trial_expires_at := trial_expires_at r;
     subscription_cap := subscription_cap r;
     lifetime_earned := v;
     lifetime_spent := lifetime_spent r;
     last_allocated := last_allocated r;
     updated_at := updated_at r |}.

Definition set_lifetime_spent (v : Z) (r : UserCredits) : UserCredits :=
  {| subscription_balance := subscription_balance r;
     topup_balance := topup_balance r;
     trial_balance := trial_balance r;
     trial_expires_at := trial_expires_at r;
     subscription_cap := subscription_cap r;
     lifetime_earned := lifetime_earned r;
     lifetime_spent := v;
     last_allocated := last_allocated r;
     updated_at := updated_at r |}.

Definition set_last_allocated (v : option Z) (r : UserCredits) : UserCredits :=
  {| subscription_balance := subscription_balance r;
     topup_balance := topup_balance r;
     trial_balance := trial_balance r;
     trial_expires_at := trial_expires_at r;
     subscription_cap := subscription_cap r;
     lifetime_earned := lifetime_earned r;
     lifetime_spent := lifetime_spent r;
     last_allocated := v;
     updated_at := updated_at r |}.

Definition set_updated_at (v : option Z) (r : UserCredits) : UserCredits :=
  {| subscription_balance := subscription_balance r;
     topup_balance := topup_balance r;
     trial_balance := trial_balance r;
     trial_expires_at := trial_expires_at r;
     subscription_cap := subscription_cap r;
     lifetime_earned := lifetime_earned r;
     lifetime_spent := lifetime_spent r;
     last_allocated := last_allocated r;
     updated_at := v |}.

(** Modelled from the spec: the column defaults of [user_credits], applied
    by [insert({ user_id })]; the table's schema is not part of the sources.
    The spec's account is zeroed with the platform cap of 900, which is also
    what [getBalance] reports for a user without a row. *)
Definition default_row : UserCredits :=
  {| subscription_balance := 0;
     topup_balance := 0;
     trial_balance := Some 0;
     trial_expires_at := None;
     subscription_cap := 900;
     lifetime_earned := 0;
     lifetime_spent := 0;
     last_allocated := None;
     updated_at := None |}.

(** *** Exceptions and tasks *)

(** The third argument of [new HttpError(status, message, details)]. *)
Inductive Details :=
  | NoDetails
  | ErrorMessage (msg : string)
  | Shortfall (required available : Z).

Inductive Exception :=
  | HttpError (status : Z) (message : string) (details : Details).

Inductive Outcome (A : Type) :=
  | Returned (a : A)
  | Thrown (e : Exception).
Arguments Returned {A} a.
Arguments Thrown {A} e.

(** An [async] function: it runs against the store and either returns or
    throws; what it wrote before throwing stays written. *)
Definition Task (A : Type) : Type := World -> Outcome A * World.

#[global] Instance task_ret : MRet Task := fun A a w => (Returned a, w).

#[global] Instance task_bind : MBind Task := fun A B k m w =>
  match m w with
  | (Returned a, w') => k a w'
  | (Thrown e, w') => (Thrown e, w')
  end.

Definition throw {A} (e : Exception) : Task A := fun w => (Thrown e, w).

Definition try_catch {A} (body : Task A) (handler : Exception -> Task A) : Task A :=
  fun w =>
    match body w with
    | (Returned a, w') => (Returned a, w')
    | (Thrown e, w') => handler e w'
    end.

Definition gets {A} (f : World -> A) : Task A := fun w => (Returned (f w), w).

Definition modify (f : World -> World) : Task unit := fun w => (Returned tt, f w).

(** *** Queries *)

(** The [{ data, error }] pair of a Supabase query. *)
Record QueryResult (A : Type) := {
  data : option A;
  error : option string
}.
Arguments data {A} _.
Arguments error {A} _.

Definition failed {A} (msg : string) : QueryResult A :=
  {| data := None; error := Some msg |}.

(** [.maybeSingle()]: no row is [null], one row is that row, several rows
    are an error. *)
Definition maybeSingle {A} (rows : list A) : QueryResult A :=
  match rows with
  | [] => {| data := None; error := None |}
  | [x] => {| data := Some x; error := None |}
  | _ => failed "JSON object requested, multiple (or no) rows returned"
  end.

(** [from(table).select(..)] with the row filter [rows]. *)
Definition select {A} (table : string) (rows : World -> list A) : Task (QueryResult (list A)) :=
  gets (fun w =>
    match read_error w table with
    | Some msg => failed msg
    | None => {| data := Some (rows w); error := None |}
    end).

(** [from(table).select(..)...maybeSingle()]. *)
Definition select_maybeSingle {A} (table : string) (rows : World -> list A) : Task (QueryResult A) :=
  gets (fun w =>
    match read_error w table with
    | Some msg => failed msg
    | None => maybeSingle (rows w)
    end).

(** [user_credits] is keyed by [user_id]: at most one row matches
    [.eq("user_id", userId)]. *)
Definition user_credits_rows (userId : string) (w : World) : list UserCredits :=
  option_list (user_credits w !! userId).

(** [from("user_credits").update(patch).eq("user_id", userId)]: patches the
    row when there is one. *)
Definition update_user_credits (userId : string) (patch : UserCredits -> UserCredits) : Task unit :=
  modify (with_user_credits (alter patch userId)).

(** [from("user_credits").insert({ user_id: userId })]: a second row for
    the same key is rejected by the store. *)
Definition insert_user_credits (userId : string) : Task unit :=
  modify (fun w =>
    match user_credits w !! userId with
    | Some _ => w
    | None => with_user_credits (insert userId default_row) w
    end).

(** [from("credit_transactions").insert({..})], with the id the store gave
    the new row (what [.select("id").single()] returns).  The fresh id is the
    position of the row in the log. *)
Definition insert_credit_transaction (userId : string) (amount balanceAfter : Z)
    (pool : Pool) (type : string) (description : string)
    (appKey referenceId : option string) : Task nat :=
  fun w =>
    let id := length (credit_transactions w) in
    (Returned id,
     with_credit_transactions (fun log => log ++ [
       {| tx_id := id;
          tx_user_id := userId;
          tx_amount := amount;
          tx_balance_after := balanceAfter;
          tx_pool := pool;
          tx_type := type;
          tx_description := Some description;
          tx_app_key := appKey;
          tx_reference_id := referenceId;
          tx_created_at := clock w |} ]) w).

End Store.

(** ** The credit engine ([utils/credits.ts]) *)

Module Credits.
Import Store.

Record CreditBalance := {
  subscriptionBalance : Z;
  topupBalance : Z;
  trialBalance : Z;
  total : Z;
  cap : Z;
  lifetimeEarned : Z;
  lifetimeSpent : Z
}.

Record CreditCheckResult := {
  sufficient : bool;
  cost : Z;
  balance : Z
}.

(** [deduct_newBalance] is the [newBalance] field of the source's
    [DeductResult] (the name is taken by [AllocateResult]).  [transactionId]
    is [None] for the empty string the source starts [lastTransactionId]
    with, and [Some id] for a row id. *)
Record DeductResult := {
  deduct_newBalance : Z;
  transactionId : option nat
}.

Record AllocateResult := {
  newBalance : Z;
  allocated : Z
}.

Record MergeResult := {
  merged : Z
}.

(** *** Balance *)

Definition getBalance (userId : string) : Task CreditBalance :=
  r ← select_maybeSingle "user_credits" (user_credits_rows userId);
  match error r with
  | Some msg => throw (HttpError 500 "Failed to fetch credit balance" (ErrorMessage msg))
  | None =>
    match data r with
    | None =>
        mret {| subscriptionBalance := 0; topupBalance := 0; trialBalance := 0;
                total := 0; cap := 900; lifetimeEarned := 0; lifetimeSpent := 0 |}
    | Some d =>
        now ← gets clock;
        let trialExpiresAt := trial_expires_at d in
        let trialBalance :=
          match trialExpiresAt with
          | Some t => if t <? now then 0 else default 0 (trial_balance d)
          | None => default 0 (trial_balance d)
          end in
        mret {| subscriptionBalance := subscription_balance d;
                topupBalance := topup_balance d;
                trialBalance := trialBalance;
                total := subscription_balance d + topup_balance d + trialBalance;
                cap := subscription_cap d;
                lifetimeEarned := lifetime_earned d;
                lifetimeSpent := lifetime_spent d |}
    end
  end.

(** *** Credit cost lookup *)

Definition credit_config_rows (appKey operation : string) (w : World) : list CreditConfig :=
  filter (fun c => cfg_app_key c = appKey ∧ cfg_operation c = operation ∧ cfg_is_active c = true)
         (app_credit_config w).

Definition getCreditCost (appKey operation : string) : Task Z :=
  r ← select_maybeSingle "app_credit_config" (credit_config_rows appKey operation);
  match error r with
  | Some msg => throw (HttpError 500 "Failed to fetch credit cost" (ErrorMessage msg))
  | None =>
    match data r with
    | None => throw (HttpError 404 ("Unknown operation: " +:+ appKey +:+ "/" +:+ operation) NoDetails)
    | Some d => mret (cfg_credit_cost d)
    end
  end.

(** *** Credit check *)

(** The source awaits the two reads with [Promise.all]; neither writes, so
    their order only decides which exception surfaces when both throw. *)

Definition checkCredits (userId appKey operation : string) : Task CreditCheckResult :=
  balance ← getBalance userId;
  cost ← getCreditCost appKey operation;
  mret {| sufficient := total balance >=? cost; cost := cost; balance := total balance |}.

(** *** Deductions (spend order: trial first, then topup, then subscription) *)

Definition deductCredits (userId appKey operation : string) (referenceId : option string)
    : Task DeductResult :=
  cost ← getCreditCost appKey operation;
  balance ← getBalance userId;
  if total balance <? cost then
    throw (HttpError 402 "Insufficient credits" (Shortfall cost (total balance)))
  else
    now ← gets clock;
    let lastTransactionId : option nat := None in
    let deductFromTrial := Z.min cost (trialBalance balance) in
    let remainingAfterTrial := cost - deductFromTrial in
    let deductFromTopup := Z.min remainingAfterTrial (topupBalance balance) in
    let deductFromSub := remainingAfterTrial - deductFromTopup in
    let newTrial := trialBalance balance - deductFromTrial in
    let newTopup := topupBalance balance - deductFromTopup in
    let newSub := subscriptionBalance balance - deductFromSub in
    let newBalance := total balance - cost in
    update_user_credits userId (fun r =>
      set_updated_at (Some now)
        (set_lifetime_spent (lifetimeSpent balance + cost)
          (set_subscription_balance newSub
            (set_topup_balance newTopup
              (set_trial_balance (Some newTrial) r)))));;
    lastTransactionId ←
      (if 0 <? deductFromTrial then
         id ← insert_credit_transaction userId (- deductFromTrial)
                 (total balance - deductFromTrial) trial "usage_deduction"
                 (operation +:+ " (" +:+ appKey +:+ ")") (Some appKey) referenceId;
         mret (Some id)
       else mret lastTransactionId);
    lastTransactionId ←
      (if 0 <? deductFromTopup then
         id ← insert_credit_transaction userId (- deductFromTopup)
                 (total balance - deductFromTrial - deductFromTopup) topup "usage_deduction"
                 (operation +:+ " (" +:+ appKey +:+ ")") (Some appKey) referenceId;
         mret (Some id)
       else mret lastTransactionId);
    lastTransactionId ←
      (if 0 <? deductFromSub then
         id ← insert_credit_transaction userId (- deductFromSub)
                 newBalance subscription "usage_deduction"
                 (operation +:+ " (" +:+ appKey +:+ ")") (Some appKey) referenceId;
         mret (Some id)
       else mret lastTransactionId);
    mret {| deduct_newBalance := newBalance; transactionId := lastTransactionId |}.

(** *** Allocations *)

Definition ensureUserCreditsRow (userId : string) : Task unit :=
  r ← select_maybeSingle "user_credits" (user_credits_rows userId);
  match data r with
  | None => insert_user_credits userId
  | Some _ => mret tt
  end.

Definition allocateSubscriptionCredits (userId : string) (amount : Z) (appKey : string)
    (referenceId : option string) : Task AllocateResult :=
  ensureUserCreditsRow userId;;
  balance ← getBalance userId;
  let headroom := Z.max 0 (cap balance - subscriptionBalance balance) in
  let allocated := Z.min amount headroom in
  if allocated =? 0 then
    mret {| newBalance := total balance; allocated := 0 |}
  else
    let newSubBalance := subscriptionBalance balance + allocated in
    let newTotal := total balance + allocated in
    now ← gets clock;
    update_user_credits userId (fun r =>
      set_updated_at (Some now)
        (set_last_allocated (Some now)
          (set_lifetime_earned (lifetimeEarned balance + allocated)
            (set_subscription_balance newSubBalance r))));;
    insert_credit_transaction userId allocated newTotal subscription "subscription_allocation"
      ("Monthly allocation (" +:+ appKey +:+ ")") (Some appKey) referenceId;;
    mret {| newBalance := newTotal; allocated := allocated |}.

Definition allocateTopUpCredits (userId : string) (amount : Z) (packName : string)
    (referenceId : option string) : Task AllocateResult :=
  ensureUserCreditsRow userId;;
  balance ← getBalance userId;
  let newTopup := topupBalance balance + amount in
  let newTotal := total balance + amount in
  now ← gets clock;
  update_user_credits userId (fun r =>
    set_updated_at (Some now)
      (set_lifetime_earned (lifetimeEarned balance + amount)
        (set_topup_balance newTopup r)));;
  insert_credit_transaction userId amount newTotal topup "topup_purchase"
    (packName +:+ " top-up") None referenceId;;
  mret {| newBalance := newTotal; allocated := amount |}.

Definition allocateRetentionBonus (userId : string) (amount : Z) : Task AllocateResult :=
  ensureUserCreditsRow userId;;
  balance ← getBalance userId;
  let newTopup := topupBalance balance + amount in
  let newTotal := total balance + amount in
  now ← gets clock;
  update_user_credits userId (fun r =>
    set_updated_at (Some now)
      (set_lifetime_earned (lifetimeEarned balance + amount)
        (set_topup_balance newTopup r)));;
  insert_credit_transaction userId amount newTotal topup "retention_bonus"
    "Retention offer bonus credits" None None;;
  mret {| newBalance := newTotal; allocated := amount |}.

(** *** Trial credit operations *)

Definition allocateTrialCredits (userId : string) (amount : Z) (appKey : string)
    (trialEndsAt : Z) (referenceId : option string) : Task AllocateResult :=
  ensureUserCreditsRow userId;;
  balance ← getBalance userId;
  now ← gets clock;
  update_user_credits userId (fun r =>
    set_updated_at (Some now)
      (set_lifetime_earned (lifetimeEarned balance + amount)
        (set_trial_expires_at (Some trialEndsAt)
          (set_trial_balance (Some amount) r))));;
  insert_credit_transaction userId amount (total balance + amount) trial "trial_allocation"
    ("Trial credits (" +:+ appKey +:+ ")") (Some appKey) referenceId;;
  mret {| newBalance := total balance + amount; allocated := amount |}.

Definition expireTrialCredits (userId appKey reason : string) : Task unit :=
  r ← select_maybeSingle "user_credits" (user_credits_rows userId);
  let trialBalance := default 0 (d ← data r; trial_balance d) in
  if trialBalance =? 0 then mret tt
  else
    now ← gets clock;
    update_user_credits userId (fun r =>
      set_updated_at (Some now)
        (set_trial_expires_at None
          (set_trial_balance (Some 0) r)));;
    balance ← getBalance userId;
    insert_credit_transaction userId (- trialBalance) (total balance) trial "trial_expiry"
      ("Trial credits expired: " +:+ reason) (Some appKey) None;;
    mret tt.

Definition mergeTrialCredits (userId appKey : string) : Task MergeResult :=
  r ← select_maybeSingle "user_credits" (user_credits_rows userId);
  let trialBalance := default 0 (d ← data r; trial_balance d) in
  if trialBalance =? 0 then mret {| merged := 0 |}
  else
    let subBalance := default 0 (subscription_balance <$> data r) in
    let cap := default 900 (subscription_cap <$> data r) in
    let headroom := Z.max 0 (cap - subBalance) in
    let merged := Z.min trialBalance headroom in
    now ← gets clock;
    update_user_credits userId (fun r =>
      set_updated_at (Some now)
        (set_subscription_balance (subBalance + merged)
          (set_trial_expires_at None
            (set_trial_balance (Some 0) r))));;
    (if 0 <? merged then
       balance ← getBalance userId;
       insert_credit_transaction userId merged (total balance) subscription "trial_merge"
         ("Trial credits merged on conversion (" +:+ appKey +:+ ")") (Some appKey) None;;
       mret tt
     else mret tt);;
    let lost := trialBalance - merged in
    (if 0 <? lost then
       balance ← getBalance userId;
       insert_credit_transaction userId (- lost) (total balance) trial "trial_merge_overflow"
         ("Trial credits lost on merge (cap reached) (" +:+ appKey +:+ ")") (Some appKey) None;;
       mret tt
     else mret tt);;
    mret {| merged := merged |}.

(** *** Dynamic cap recalculation *)

(** The fields of a plan of [config/plans] the ledger reads. *)
Record SubscriptionPlan := {
  monthlyCredits : Z;
  creditCap : Z
}.

Definition qualifying_subscriptions (userId : string) (w : World) : list AppSubscription :=
  filter (fun s => sub_user_id s = userId ∧ sub_status s ∈ ["active"; "trialing"; "past_due"])
         (app_subscriptions w).

Section Plans.

(** The plan catalog of [config/plans], which the ledger only consults:
    lookup by Stripe price id, and lookup by app key and optional tier. *)
Variable findSubscriptionByPriceId : string -> option SubscriptionPlan.
Variable findSubscriptionPlan : string -> option string -> option SubscriptionPlan.

(** The body of the [for (const sub of subs)] loop: the new [totalCap]. *)
Definition add_subscription_cap (totalCap : Z) (sub : AppSubscription) : Z :=
  let plan :=
    match sub_stripe_price_id sub with
    | Some priceId => if decide (priceId = "") then None else findSubscriptionByPriceId priceId
    | None => None
    end in
  match plan with
  | Some plan => totalCap + creditCap plan
  | None =>
      let fallback := findSubscriptionPlan (sub_app_key sub) None in
      totalCap + default 900 (creditCap <$> fallback)
  end.

Definition recalculateSubscriptionCap (userId : string) : Task Z :=
  r ← select "app_subscriptions" (qualifying_subscriptions userId);
  match error r with
  | Some _ => mret 900
  | None =>
      let totalCap :=
        match data r with
        | None | Some [] => 900
        | Some subs => fold_left add_subscription_cap subs 0
        end in
      now ← gets clock;
      update_user_credits userId (fun r =>
        set_updated_at (Some now) (set_subscription_cap totalCap r));;
      mret totalCap
  end.

End Plans.

End Credits.

(** ** Stripe helpers ([utils/stripe.ts]) *)

Module Stripe.
Import Store.

(** What [syncAppSubscription] reads of a [Stripe.Subscription] for the
    columns the ledger reads: [items_price_id] is
    [subscription.items.data[0]?.price?.id ?? null], [pause_collection] is
    [subscription.pause_collection !== null]. *)
Record Subscription := {
  items_price_id : option string;
  pause_collection : bool;
  status : string
}.

(** *** Idempotency: track processed webhook events *)

Definition stripe_events_rows (eventId : string) (w : World) : list StripeEventRow :=
  option_list (stripe_events w !! eventId).

Definition isEventProcessed (eventId : string) : Task bool :=
  r ← select_maybeSingle "stripe_events" (stripe_events_rows eventId);
  mret (bool_decide (is_Some (data r))).

(** [stripe_events] is keyed by the event id: an insert for an id that is
    already there is rejected by the store. *)
Definition markEventProcessed (eventId eventType : string) (payload : option string) : Task unit :=
  modify (fun w =>
    match stripe_events w !! eventId with
    | Some _ => w
    | None => with_stripe_events (insert eventId {| ev_type := eventType; ev_payload := payload |}) w
    end).

(** *** Sync helpers *)

Definition same_subscription (userId appKey : string) (s : AppSubscription) : Prop :=
  sub_user_id s = userId ∧ sub_app_key s = appKey.

#[global] Instance same_subscription_dec userId appKey s : Decision (same_subscription userId appKey s).
Proof. unfold same_subscription. apply _. Defined.

(** [upsert(record, { onConflict: "user_id,app_key" })]. *)
Definition upsert_app_subscription (record : AppSubscription) (rows : list AppSubscription)
    : list AppSubscription :=
  if decide (Exists (same_subscription (sub_user_id record) (sub_app_key record)) rows) then
    (fun s => if decide (same_subscription (sub_user_id record) (sub_app_key record) s)
              then record else s) <$> rows
  else rows ++ [record].

Definition syncAppSubscription (userId : string) (subscription : Subscription) (appKey : string)
    : Task unit :=
  let priceId := items_price_id subscription in
  let isPaused := pause_collection subscription in
  let status := if isPaused then "paused" else status subscription in
  let record :=
    {| sub_user_id := userId;
       sub_app_key := appKey;
       sub_stripe_price_id := priceId;
       sub_status := status |} in
  modify (with_app_subscriptions (upsert_app_subscription record)).

End Stripe.

(** ** The Stripe webhook function *)

Module Webhook.
Import Store Stripe.

(** The part of a Netlify event the handler reads. *)
Record HandlerEvent := {
  httpMethod : string;
  stripe_signature : option string;
  body : option string
}.

(** The JSON bodies the handler answers with. *)
Inductive ResponseBody :=
  | ErrorBody (error : string)
  | Received (duplicate : bool).

Record HandlerResponse := {
  statusCode : Z;
  response_body : ResponseBody
}.

Definition jsonResponse (statusCode : Z) (body : ResponseBody) : HandlerResponse :=
  {| statusCode := statusCode; response_body := body |}.

(** A string header or body is falsy when absent or empty. *)
Definition falsy (s : option string) : bool :=
  match s with
  | Some s => bool_decide (s = "")
  | None => true
  end.

(** An event as [constructWebhookEvent] returns it; [Payload] is the type
    of [stripeEvent.data.object]. *)
Record StripeEvent (Payload : Type) := {
  id : string;
  type : string;
  object : Payload
}.
Arguments id {Payload} _.
Arguments type {Payload} _.
Arguments object {Payload} _.

(** The event handlers the switch dispatches to. *)
Record EventHandlers (Payload : Type) := {
  handleCheckoutCompleted : Payload -> Task unit;
  handleInvoicePaymentSucceeded : Payload -> Task unit;
  handleSubscriptionUpdated : Payload -> Task unit;
  handleSubscriptionDeleted : Payload -> Task unit;
  handleSubscriptionPaused : Payload -> Task unit;
  handleSubscriptionResumed : Payload -> Task unit;
  handleInvoicePaymentFailed : Payload -> Task unit;
  handleTrialWillEnd : Payload -> Task unit;
  handleInvoiceActionRequired : Payload -> Task unit
}.
Arguments handleCheckoutCompleted {Payload} _ _.
Arguments handleInvoicePaymentSucceeded {Payload} _ _.
Arguments handleSubscriptionUpdated {Payload} _ _.
Arguments handleSubscriptionDeleted {Payload} _ _.
Arguments handleSubscriptionPaused {Payload} _ _.
Arguments handleSubscriptionResumed {Payload} _ _.
Arguments handleInvoicePaymentFailed {Payload} _ _.
Arguments handleTrialWillEnd {Payload} _ _.
Arguments handleInvoiceActionRequired {Payload} _ _.

Section Handler.

Context {Payload : Type}.

(** Signature verification by the Stripe SDK: the event, or an exception. *)
Variable constructWebhookEvent : string -> string -> Outcome (StripeEvent Payload).

Variable handlers : EventHandlers Payload.

(** The [switch (stripeEvent.type)] of the handler. *)
Definition dispatch (stripeEvent : StripeEvent Payload) : Task unit :=
  let t := type stripeEvent in
  if decide (t = "checkout.session.completed") then
    handleCheckoutCompleted handlers (object stripeEvent)
  else if decide (t = "invoice.payment_succeeded") then
    handleInvoicePaymentSucceeded handlers (object stripeEvent)
  else if decide (t = "customer.subscription.updated") then
    handleSubscriptionUpdated handlers (object stripeEvent)
  else if decide (t = "customer.subscription.deleted") then
    handleSubscriptionDeleted handlers (object stripeEvent)
  else if decide (t = "customer.subscription.paused") then
    handleSubscriptionPaused handlers (object stripeEvent)
  else if decide (t = "customer.subscription.resumed") then
    handleSubscriptionResumed handlers (object stripeEvent)
  else if decide (t = "invoice.payment_failed") then
    handleInvoicePaymentFailed handlers (object stripeEvent)
  else if decide (t = "customer.subscription.trial_will_end") then
    handleTrialWillEnd handlers (object stripeEvent)
  else if decide (t = "invoice.payment_action_required") then
    handleInvoiceActionRequired handlers (object stripeEvent)
  else mret tt.

(** The webhook entry point.  [Received false] stands for the body
    [{ received: true }], [Received true] for
    [{ received: true, duplicate: true }]. *)
Definition handler (event : HandlerEvent) : Task HandlerResponse :=
  if decide (httpMethod event ≠ "POST") then
    mret (jsonResponse 405 (ErrorBody "Method not allowed"))
  else if falsy (stripe_signature event) || falsy (body event) then
    mret (jsonResponse 400 (ErrorBody "Missing signature or body"))
  else
    match constructWebhookEvent (default "" (body event)) (default "" (stripe_signature event)) with
    | Thrown _ => mret (jsonResponse 400 (ErrorBody "Invalid signature"))
    | Returned stripeEvent =>
        processed ← isEventProcessed (id stripeEvent);
        if (processed : bool) then
          mret (jsonResponse 200 (Received true))
        else
          try_catch
            (dispatch stripeEvent;;
             markEventProcessed (id stripeEvent) (type stripeEvent) None;;
             mret (jsonResponse 200 (Received false)))
            (fun _ => mret (jsonResponse 500 (ErrorBody "Webhook handler error")))
    end.

(** A well-formed delivery: a POST with a body and a signature that
    verifies to [stripeEvent]. *)
Definition delivers (event : HandlerEvent) (stripeEvent : StripeEvent Payload) : Prop :=
  httpMethod event = "POST"
  ∧ falsy (stripe_signature event) = false
  ∧ falsy (body event) = false
  ∧ constructWebhookEvent (default "" (body event)) (default "" (stripe_signature event))
    = Returned stripeEvent.

End Handler.

End Webhook.

(** ** The vocabulary of the properties *)

Module Ledger.
Import Store Credits Stripe.

(** The trial has expired when [trialExpiresAt] is set and in the past. *)
Definition trial_expired (now : Z) (d : UserCredits) : Prop :=
  ∃ t, trial_expires_at d = Some t ∧ t < now.

#[global] Instance trial_expired_dec now d : Decision (trial_expired now d).
Proof.
  unfold trial_expired. destruct (trial_expires_at d) as [t|].
  - destruct (decide (t < now)); [left; eauto | right; intros (? & [= <-] & ?); lia].
  - right. intros (? & [=] & _).
Defined.

(** The spec's [effectiveTrialBalance]: the stored trial balance while
    [trialExpiresAt] is null or has not passed, else 0. *)
Definition effectiveTrialBalance (now : Z) (d : UserCredits) : Z :=
  if decide (trial_expired now d) then 0 else default 0 (trial_balance d).

(** What a transaction row records of a pool movement: the pool, the signed
    amount and [balance_after]. *)
Definition Entry : Type := Pool * Z * Z.

Definition entry_of (r : CreditTransaction) : Entry :=
  (tx_pool r, tx_amount r, tx_balance_after r).

(** The row [deductCredits] inserts for the entry [e] of a pool, with the
    id [id] given by the store. *)
Definition usage_deduction_row (userId operation appKey : string) (referenceId : option string)
    (now : Z) (id : nat) (e : Entry) : CreditTransaction :=
  {| tx_id := id;
     tx_user_id := userId;
     tx_amount := e.1.2;
     tx_balance_after := e.2;
     tx_pool := e.1.1;
     tx_type := "usage_deduction";
     tx_description := Some (operation +:+ " (" +:+ appKey +:+ ")");
     tx_app_key := Some appKey;
     tx_reference_id := referenceId;
     tx_created_at := now |}.

(** The rows of the entries [es], numbered from [start] in order. *)
Definition usage_deduction_rows (userId operation appKey : string) (referenceId : option string)
    (now : Z) (start : nat) (es : list Entry) : list CreditTransaction :=
  imap (fun i e => usage_deduction_row userId operation appKey referenceId now (start + i)%nat e) es.

(** The account row after the update of [mergeTrialCredits]: trial fields
    cleared, [merged] added to the subscription pool. *)
Definition merged_row (now merged : Z) (d : UserCredits) : UserCredits :=
  {| subscription_balance := subscription_balance d + merged;
     topup_balance := topup_balance d;
     trial_balance := Some 0;
     trial_expires_at := None;
     subscription_cap := subscription_cap d;
     lifetime_earned := lifetime_earned d;
     lifetime_spent := lifetime_spent d;
     last_allocated := last_allocated d;
     updated_at := Some now |}.

(** The two rows [mergeTrialCredits] can insert. *)
Definition trial_merge_row (userId appKey : string) (now : Z) (id : nat) (merged after : Z)
    : CreditTransaction :=
  {| tx_id := id;
     tx_user_id := userId;
     tx_amount := merged;
     tx_balance_after := after;
     tx_pool := subscription;
     tx_type := "trial_merge";
     tx_description := Some ("Trial credits merged on conversion (" +:+ appKey +:+ ")");
     tx_app_key := Some appKey;
     tx_reference_id := None;
     tx_created_at := now |}.

Definition trial_merge_overflow_row (userId appKey : string) (now : Z) (id : nat) (lost after : Z)
    : CreditTransaction :=
  {| tx_id := id;
     tx_user_id := userId;
     tx_amount := - lost;
     tx_balance_after := after;
     tx_pool := trial;
     tx_type := "trial_merge_overflow";
     tx_description := Some ("Trial credits lost on merge (cap reached) (" +:+ appKey +:+ ")");
     tx_app_key := Some appKey;
     tx_reference_id := None;
     tx_created_at := now |}.

(** The store answers the reads of a table. *)
Definition readable (table : string) (w : World) : Prop := read_error w table = None.

(** The ledger invariant on the subscription pool. *)
Definition within_cap (w : World) : Prop :=
  ∀ userId d, user_credits w !! userId = Some d → subscription_balance d ≤ subscription_cap d.

(** A task that never writes [user_credits]. *)
Definition keeps_accounts {A} (m : Task A) : Prop :=
  ∀ w, user_credits (m w).2 = user_credits w.

Section Plans.

Variable findSubscriptionByPriceId : string -> option SubscriptionPlan.
Variable findSubscriptionPlan : string -> option string -> option SubscriptionPlan.

(** The plan of a subscription in the spec's resolution order: the plan
    found by its Stripe price id (a null or empty id finds none), else the
    first plan matching its app key. *)
Definition plan_of_subscription (sub : AppSubscription) : option SubscriptionPlan :=
  match sub_stripe_price_id sub ≫= (fun p => guard (p ≠ "");; findSubscriptionByPriceId p) with
  | Some plan => Some plan
  | None => findSubscriptionPlan (sub_app_key sub) None
  end.

(** What one qualifying subscription contributes to the cap. *)
Definition cap_contribution (sub : AppSubscription) : Z :=
  match plan_of_subscription sub with
  | Some plan => creditCap plan
  | None => 900
  end.

(** The spec's cap: 900 without a qualifying subscription, else the sum of
    the contributions. *)
Definition expected_cap (subs : list AppSubscription) : Z :=
  match subs with
  | [] => 900
  | _ => foldr Z.add 0 (cap_contribution <$> subs)
  end.

(** *** Operations and reachable stores *)

(** The operations of the engine. *)
Inductive Operation :=
  | GetBalance (userId : string)
  | DeductCredits (userId appKey operation : string) (referenceId : option string)
  | AllocateSubscriptionCredits (userId : string) (amount : Z) (appKey : string)
      (referenceId : option string)
  | AllocateTopUpCredits (userId : string) (amount : Z) (packName : string)
      (referenceId : option string)
  | AllocateRetentionBonus (userId : string) (amount : Z)
  | AllocateTrialCredits (userId : string) (amount : Z) (appKey : string) (trialEndsAt : Z)
      (referenceId : option string)
  | ExpireTrialCredits (userId appKey reason : string)
  | MergeTrialCredits (userId appKey : string)
  | RecalculateSubscriptionCap (userId : string).

(** The store an operation leaves, whether it returned or threw. *)
Definition perform (op : Operation) (w : World) : World :=
  match op with
  | GetBalance userId => (getBalance userId w).2
  | DeductCredits userId appKey operation referenceId =>
      (deductCredits userId appKey operation referenceId w).2
  | AllocateSubscriptionCredits userId amount appKey referenceId =>
      (allocateSubscriptionCredits userId amount appKey referenceId w).2
  | AllocateTopUpCredits userId amount packName referenceId =>
      (allocateTopUpCredits userId amount packName referenceId w).2
  | AllocateRetentionBonus userId amount => (allocateRetentionBonus userId amount w).2
  | AllocateTrialCredits userId amount appKey trialEndsAt referenceId =>
      (allocateTrialCredits userId amount appKey trialEndsAt referenceId w).2
  | ExpireTrialCredits userId appKey reason => (expireTrialCredits userId appKey reason w).2
  | MergeTrialCredits userId appKey => (mergeTrialCredits userId appKey w).2
  | RecalculateSubscriptionCap userId =>
      (recalculateSubscriptionCap findSubscriptionByPriceId findSubscriptionPlan userId w).2
  end.

(** What happens around the engine: the subscription view follows Stripe
    ([syncAppSubscription]), the cost catalog is edited, time passes, and
    reads of a table start or stop failing. *)
Inductive Surroundings :=
  | SyncAppSubscription (userId : string) (subscription : Subscription) (appKey : string)
  | CostCatalog (config : list CreditConfig)
  | Clock (now : Z)
  | ReadErrors (errors : string -> option string).

Definition happen (e : Surroundings) (w : World) : World :=
  match e with
  | SyncAppSubscription userId sub appKey =>
      (syncAppSubscription userId sub appKey w).2
  | CostCatalog config =>
      {| user_credits := user_credits w;
         credit_transactions := credit_transactions w;
         app_credit_config := config;
         app_subscriptions := app_subscriptions w;
         stripe_events := stripe_events w;
         clock := clock w;
         read_error := read_error w |}
  | Clock now =>
      {| user_credits := user_credits w;
         credit_transactions := credit_transactions w;
         app_credit_config := app_credit_config w;
         app_subscriptions := app_subscriptions w;
         stripe_events := stripe_events w;
         clock := now;
         read_error := read_error w |}
  | ReadErrors errors =>
      {| user_credits := user_credits w;
         credit_transactions := credit_transactions w;
         app_credit_config := app_credit_config w;
         app_subscriptions := app_subscriptions w;
         stripe_events := stripe_events w;
         clock := clock w;
         read_error := errors |}
  end.

(** A ledger nobody has used yet. *)
Definition fresh (w : World) : Prop :=
  user_credits w = ∅ ∧ credit_transactions w = [].

(** The stores reachable from a fresh ledger by engine operations, with
    the surroundings changing in between. *)
Inductive reachable : World → Prop :=
  | reachable_fresh w : fresh w → reachable w
  | reachable_perform op w : reachable w → reachable (perform op w)
  | reachable_happen e w : reachable w → reachable (happen e w).

(** A cap recalculation covers the balance when the cap it returns is at
    least the subscription balance of the account it is written to. *)
Definition covers_balance (op : Operation) (w : World) : Prop :=
  match op with
  | RecalculateSubscriptionCap userId =>
      ∀ d cap,
        user_credits w !! userId = Some d →
        (recalculateSubscriptionCap findSubscriptionByPriceId findSubscriptionPlan userId w).1
        = Returned cap →
        subscription_balance d ≤ cap
  | _ => True
  end.

(** The stores reachable with every cap recalculation covering the
    balance. *)
Inductive reachable_covered : World → Prop :=
  | reachable_covered_fresh w : fresh w → reachable_covered w
  | reachable_covered_perform op w :
      reachable_covered w → covers_balance op w → reachable_covered (perform op w)
  | reachable_covered_happen e w : reachable_covered w → reachable_covered (happen e w).

End Plans.

End Ledger.

(** ** Sample stores *)

Module Samples.
Import Store Credits Stripe.

Definition account (sub topup : Z) (trial expires : option Z) (cap : Z) : UserCredits :=
  {| subscription_balance := sub;
     topup_balance := topup;
     trial_balance := trial;
     trial_expires_at := expires;
     subscription_cap := cap;
     lifetime_earned := 0;
     lifetime_spent := 0;
     last_allocated := None;
     updated_at := None |}.

(** A store with one account for user [u], a cost catalog with
    [keywords/search] at [cost] credits, and the clock at 1000. *)
Definition store (d : UserCredits) (cost : Z) : World :=
  {| user_credits := {[ "u" := d ]};
     credit_transactions := [];
     app_credit_config :=
       [ {| cfg_app_key := "keywords"; cfg_operation := "search";
            cfg_is_active := true; cfg_credit_cost := cost |} ];
     app_subscriptions := [];
     stripe_events := ∅;
     clock := 1000;
     read_error := fun _ => None |}.

(** No account at all. *)
Definition empty_store : World :=
  {| user_credits := ∅;
     credit_transactions := [];
     app_credit_config := [];
     app_subscriptions := [];
     stripe_events := ∅;
     clock := 1000;
     read_error := fun _ => None |}.

(** *** A webhook delivery *)

(** A top-up checkout session whose customer is already resolved to a
    user. *)
Record TopUpSession := {
  session_id : string;
  session_user : string;
  session_credits : Z;
  session_pack_name : string
}.

(** Stand-ins for the handlers: the top-up branch of
    [handleCheckoutCompleted], which allocates the purchased credits, and
    handlers without ledger effect for the other events. *)
Definition topup_handlers : Webhook.EventHandlers TopUpSession :=
  {| Webhook.handleCheckoutCompleted := fun session =>
       (if 0 <? session_credits session then
          allocateTopUpCredits (session_user session) (session_credits session)
            (session_pack_name session) (Some (session_id session));;
          mret tt
        else mret tt);
     Webhook.handleInvoicePaymentSucceeded := fun _ => mret tt;
     Webhook.handleSubscriptionUpdated := fun _ => mret tt;
     Webhook.handleSubscriptionDeleted := fun _ => mret tt;
     Webhook.handleSubscriptionPaused := fun _ => mret tt;
     Webhook.handleSubscriptionResumed := fun _ => mret tt;
     Webhook.handleInvoicePaymentFailed := fun _ => mret tt;
     Webhook.handleTrialWillEnd := fun _ => mret tt;
     Webhook.handleInvoiceActionRequired := fun _ => mret tt |}.

Definition topup_event : Webhook.StripeEvent TopUpSession :=
  {| Webhook.id := "evt_1";
     Webhook.type := "checkout.session.completed";
     Webhook.object :=
       {| session_id := "cs_1"; session_user := "u"; session_credits := 500;
          session_pack_name := "Starter" |} |}.

(** A verifier that accepts the signature [t=1,v1=ok] and reads every body
    as [topup_event]. *)
Definition verify (body signature : string) : Outcome (Webhook.StripeEvent TopUpSession) :=
  if decide (signature = "t=1,v1=ok") then Returned topup_event
  else Thrown (HttpError 400 "No signatures found matching the expected signature" NoDetails).

Definition delivery : Webhook.HandlerEvent :=
  {| Webhook.httpMethod := "POST";
     Webhook.stripe_signature := Some "t=1,v1=ok";
     Webhook.body := Some "{}" |}.

(** The store with reads of [user_credits] failing. *)
Definition user_credits_down (w : World) : World :=
  Ledger.happen (Ledger.ReadErrors (fun t =>
    if decide (t = "user_credits") then Some "connection refused" else None)) w.

(** A plan catalog that knows no plan: every subscription contributes the
    default 900. *)
Definition no_plan_by_price_id : string -> option SubscriptionPlan := fun _ => None.
Definition no_plan_by_app_key : string -> option string -> option SubscriptionPlan :=
  fun _ _ => None.

Definition active : Subscription :=
  {| items_price_id := None; pause_collection := false; status := "active" |}.

Definition canceled : Subscription :=
  {| items_price_id := None; pause_collection := false; status := "canceled" |}.

Definition step (op : Ledger.Operation) : World -> World :=
  Ledger.perform no_plan_by_price_id no_plan_by_app_key op.

(** User [u] subscribes to two apps. *)
Definition two_apps : World :=
  Ledger.happen (Ledger.SyncAppSubscription "u" active "labs")
    (Ledger.happen (Ledger.SyncAppSubscription "u" active "keywords") empty_store).

(** Two months of allocations of 300 credits per app, the cap being
    recalculated for the two apps after the first allocation. *)
Definition funded : World :=
  step (Ledger.AllocateSubscriptionCredits "u" 300 "labs" None)
    (step (Ledger.AllocateSubscriptionCredits "u" 300 "keywords" None)
       (step (Ledger.AllocateSubscriptionCredits "u" 300 "labs" None)
          (step (Ledger.RecalculateSubscriptionCap "u")
             (step (Ledger.AllocateSubscriptionCredits "u" 300 "keywords" None) two_apps)))).

(** The store with reads of [app_subscriptions] failing. *)
Definition app_subscriptions_down (w : World) : World :=
  Ledger.happen (Ledger.ReadErrors (fun t =>
    if decide (t = "app_subscriptions") then Some "connection refused" else None)) w.

(** The [labs] subscription is canceled. *)
Definition labs_canceled : World :=
  Ledger.happen (Ledger.SyncAppSubscription "u" canceled "labs") funded.

(** The cap is recalculated for the one app left. *)
Definition one_app_left : World :=
  step (Ledger.RecalculateSubscriptionCap "u") labs_canceled.

End Samples.

(** ** More vocabulary: balances and grants *)

Module Bookkeeping.
Import Store Credits Stripe Ledger.

(** No pool of any account is negative. *)
Definition nonnegative (w : World) : Prop :=
  ∀ userId d, user_credits w !! userId = Some d →
    0 ≤ subscription_balance d ∧ 0 ≤ topup_balance d ∧ 0 ≤ default 0 (trial_balance d).

(** An account is covered when no pool is negative and the three pools
    together hold no more than what the account earned less what it
    spent. *)
Definition covered (d : UserCredits) : Prop :=
  0 ≤ subscription_balance d ∧ 0 ≤ topup_balance d ∧ 0 ≤ default 0 (trial_balance d)
  ∧ subscription_balance d + topup_balance d + default 0 (trial_balance d)
    ≤ lifetime_earned d - lifetime_spent d.

Definition all_covered (w : World) : Prop :=
  ∀ userId d, user_credits w !! userId = Some d → covered d.

(** The amount an allocation is asked to grant is not negative. *)
Definition grants_nonnegative (op : Operation) : Prop :=
  match op with
  | AllocateSubscriptionCredits _ amount _ _ => 0 ≤ amount
  | AllocateTopUpCredits _ amount _ _ => 0 ≤ amount
  | AllocateRetentionBonus _ amount => 0 ≤ amount
  | AllocateTrialCredits _ amount _ _ _ => 0 ≤ amount
  | _ => True
  end.

(** The user an operation is about. *)
Definition operation_user (op : Operation) : string :=
  match op with
  | GetBalance userId => userId
  | DeductCredits userId _ _ _ => userId
  | AllocateSubscriptionCredits userId _ _ _ => userId
  | AllocateTopUpCredits userId _ _ _ => userId
  | AllocateRetentionBonus userId _ => userId
  | AllocateTrialCredits userId _ _ _ _ => userId
  | ExpireTrialCredits userId _ _ => userId
  | MergeTrialCredits userId _ => userId
  | RecalculateSubscriptionCap userId => userId
  end.

(** What a task working for one user may change: that user's account, and
    the log by appending rows of that user, numbered by their position. *)
Definition confined (userId : string) (w w' : World) : Prop :=
  (∀ other, other ≠ userId → user_credits w' !! other = user_credits w !! other)
  ∧ (∃ rows, credit_transactions w' = credit_transactions w ++ rows
             ∧ Forall (fun r => tx_user_id r = userId) rows
             ∧ ∀ i r, rows !! i = Some r → tx_id r = (length (credit_transactions w) + i)%nat)
  ∧ app_credit_config w' = app_credit_config w
  ∧ app_subscriptions w' = app_subscriptions w
  ∧ stripe_events w' = stripe_events w
  ∧ clock w' = clock w
  ∧ read_error w' = read_error w.

Definition confined_task {A} (userId : string) (m : Task A) : Prop :=
  ∀ w, confined userId w (m w).2.

Section Plans.

Variable findSubscriptionByPriceId : string -> option SubscriptionPlan.
Variable findSubscriptionPlan : string -> option string -> option SubscriptionPlan.

(** The stores reachable from a fresh ledger when no allocation is asked
    for a negative amount. *)
Inductive reachable_granting : World → Prop :=
  | reachable_granting_fresh w : fresh w → reachable_granting w
  | reachable_granting_perform op w :
      reachable_granting w → grants_nonnegative op →
      reachable_granting (perform findSubscriptionByPriceId findSubscriptionPlan op w)
  | reachable_granting_happen e w : reachable_granting w → reachable_granting (happen e w).

End Plans.

End Bookkeeping.

(** ** Bundle and trial eligibility ([utils/stripe.ts]) *)

Module Billing.
Import Store Credits Stripe.

(** [[...new Set(xs)]]: the distinct values of [xs], in the order of their
    first occurrence. *)
Definition distinct (xs : list string) : list string :=
  fold_left (fun seen x => if decide (x ∈ seen) then seen else seen ++ [x]) xs [].

Record BundleEligibility := {
  bundle_eligible : bool;
  distinctApps : list string
}.

(** The query error is not looked at: [subs ?? []]. *)
Definition getBundleEligibility (userId : string) : Task BundleEligibility :=
  r ← select "app_subscriptions" (qualifying_subscriptions userId);
  let distinctApps := distinct (sub_app_key <$> default [] (data r)) in
  mret {| bundle_eligible := bool_decide (2 ≤ length distinctApps)%nat;
          distinctApps := distinctApps |}.

(** The rows [.eq("user_id", userId).eq("app_key", appKey)] selects. *)
Definition subscription_rows (userId appKey : string) (w : World) : list AppSubscription :=
  filter (same_subscription userId appKey) (app_subscriptions w).

(** The conflict target of the upsert is a key: no two records share user
    and app. *)
Definition unique_subscriptions (w : World) : Prop :=
  ∀ userId appKey, (length (subscription_rows userId appKey w) ≤ 1)%nat.

(** The status [syncAppSubscription] records. *)
Definition recorded_status (subscription : Subscription) : string :=
  if pause_collection subscription then "paused" else status subscription.

Record TrialEligibility := {
  trial_eligible : bool;
  reason : option string
}.

(** What the eligibility checks read of a subscription listed by Stripe:
    [sub.metadata?.app_key]. *)
Record ListedSubscription := {
  metadata_app_key : option string
}.

Section Stripe.

(** [stripe.subscriptions.list({ customer, limit: 100 })]: the listed
    subscriptions, or the exception of the SDK. *)
Variable subscriptions_list : string → Outcome (list ListedSubscription).

(** [getDualTrialAppKeys()] of [config/plans]. *)
Variable getDualTrialAppKeys : list string.

Definition checkTrialEligibility (userId appKey customerId : string) : Task TrialEligibility :=
  r ← select_maybeSingle "app_subscriptions" (subscription_rows userId appKey);
  match data r with
  | Some existingSub =>
      mret {| trial_eligible := false;
              reason := Some ("User already has " +:+ sub_status existingSub
                              +:+ " subscription for " +:+ appKey) |}
  | None =>
      match subscriptions_list customerId with
      | Thrown e => throw e
      | Returned subscriptions =>
          let hasAppSub :=
            existsb (fun sub => bool_decide (metadata_app_key sub = Some appKey)) subscriptions in
          if hasAppSub then
            mret {| trial_eligible := false;
                    reason := Some ("Stripe shows existing subscription for " +:+ appKey) |}
          else mret {| trial_eligible := true; reason := None |}
      end
  end.

(** The [for (const appKey of appKeys)] loop of [checkDualTrialEligibility],
    over the app keys still to check.  An ineligible result always carries
    a reason. *)
Fixpoint checkDualTrialEligibility_loop (userId customerId : string) (appKeys : list string)
    : Task TrialEligibility :=
  match appKeys with
  | [] => mret {| trial_eligible := true; reason := None |}
  | appKey :: appKeys =>
      result ← checkTrialEligibility userId appKey customerId;
      if trial_eligible result then checkDualTrialEligibility_loop userId customerId appKeys
      else mret {| trial_eligible := false;
                   reason := Some ("Not eligible for dual trial: "
                                   +:+ default "undefined" (reason result)) |}
  end.

Definition checkDualTrialEligibility (userId customerId : string) : Task TrialEligibility :=
  checkDualTrialEligibility_loop userId customerId getDualTrialAppKeys.

End Stripe.

End Billing.

(** ** User tiers ([updateUserTier]) *)

Module Tiers.

(** The columns of [profiles] that [updateUserTier] reads or writes; a
    null [user_tier] is [None]. *)
Record Profile := {
  user_tier : option string;
  profile_updated_at : option Z
}.

(** The [profiles] table, the wall clock, and whether reads of the table
    fail at the moment. *)
Record Directory := {
  profiles : gmap string Profile;
  today : Z;
  unreadable : bool
}.

(** The tiers the function can be asked to set. *)
Inductive Tier := founder | beta_tester | user.

Definition tier_name (tier : Tier) : string :=
  match tier with
  | founder => "founder"
  | beta_tester => "beta_tester"
  | user => "user"
  end.

(** [tierRank[name]] for a stored tier: the three own keys of the object;
    any other name (a null tier included) has no number there, and neither
    [undefined] nor an inherited member compares [>=] to a rank, which is
    what rank 0 gives since the requested ranks are at least 1. *)
Definition tierRank (name : option string) : Z :=
  match name with
  | Some name =>
      if decide (name = "founder") then 3
      else if decide (name = "beta_tester") then 2
      else if decide (name = "user") then 1
      else 0
  | None => 0
  end.

Definition updateUserTier (userId : string) (tier : Tier) (dir : Directory) : Directory :=
  match (if unreadable dir then None else profiles dir !! userId) with
  | None => dir
  | Some profile =>
      if tierRank (user_tier profile) >=? tierRank (Some (tier_name tier)) then dir
      else
        {| profiles :=
             alter (fun _ => {| user_tier := Some (tier_name tier);
                                profile_updated_at := Some (today dir) |})
                   userId (profiles dir);
           today := today dir;
           unreadable := unreadable dir |}
  end.

(** The rank of the tier stored for a user; a user without profile has
    none. *)
Definition stored_rank (userId : string) (dir : Directory) : option Z :=
  (fun p => tierRank (user_tier p)) <$> profiles dir !! userId.

End Tiers.

(** ** The event types of the webhook *)

Module Events.

(** The [case] labels of the handler's [switch]. *)
Definition handled_types : list string :=
  [ "checkout.session.completed";
    "invoice.payment_succeeded";
    "customer.subscription.updated";
    "customer.subscription.deleted";
    "customer.subscription.paused";
    "customer.subscription.resumed";
    "invoice.payment_failed";
    "customer.subscription.trial_will_end";
    "invoice.payment_action_required" ].

End Events.

(** ** The event handlers of the webhook *)

Module Handlers.
Import Store Credits Stripe.

(** A string that may be missing, as the handlers test it with [!x]: an
    absent or empty one is no value. *)
Definition truthy (s : option string) : option string :=
  match s with
  | Some x => if decide (x = "") then None else Some x
  | None => None
  end.

(** [invoice.parent?.subscription_details?.subscription]: the id of the
    subscription, or the expanded subscription with its id. *)
Inductive SubscriptionRef :=
  | RefId (id : string)
  | RefObject (id : string).

(** The subscription id of a reference that passes [!subscriptionRef]: a
    missing reference and an empty id string do not. *)
Definition referenced (ref : option SubscriptionRef) : option string :=
  match ref with
  | None => None
  | Some (RefId id) => if decide (id = "") then None else Some id
  | Some (RefObject id) => Some id
  end.

(** What the handler reads of a [Stripe.Invoice]; [invoice_customer] is the
    id the handler extracts from [invoice.customer]. *)
Record Invoice := {
  invoice_id : string;
  invoice_customer : option string;
  subscription_ref : option SubscriptionRef;
  billing_reason : option string
}.

(** What the handler reads of the subscription it retrieves:
    [metadata?.app_key], the price id of [items?.data?.[0]] and the
    status. *)
Record RetrievedSubscription := {
  retrieved_app_key : option string;
  retrieved_price_id : option string;
  retrieved_status : string
}.

(** What the subscription handlers read of a [Stripe.Subscription] event
    object: the customer id, [metadata?.app_key], [trial_end], and the
    fields [syncAppSubscription] records. *)
Record SubscriptionEvent := {
  customer : option string;
  metadata_app_key : option string;
  trial_end : option Z;
  synced : Subscription
}.

(** How the [try] block of [handleInvoicePaymentSucceeded] ends: with the
    [return] for a trial setup fee, or past the block with [appKey] and
    [priceId] as assigned so far. *)
Inductive Resolution :=
  | Skipped
  | Resolved (appKey : string) (priceId : option string).

Section Externals.

(** [getUserIdFromStripeCustomer]: the lookup in [profiles]. *)
Variable getUserIdFromStripeCustomer : string → option string.

(** [stripe.subscriptions.retrieve]. *)
Variable subscriptions_retrieve : string → Outcome RetrievedSubscription.

(** The plan catalog of [config/plans]. *)
Variable getMonthlyCreditsForSubscription : string → option string → Z.
Variable findSubscriptionByPriceId : string → option SubscriptionPlan.
Variable findSubscriptionPlan : string → option string → option SubscriptionPlan.

(** Whether [BUNDLE_DISCOUNT_COUPON_ID] is set, and
    [getActiveSubscriptions]: the ids of the customer's subscriptions, or
    the exception of the Stripe SDK. *)
Variable coupon_configured : bool.
Variable getActiveSubscriptions : string → Outcome (list string).

(** The two bundle functions act on Stripe only: their loop updates the
    discounts of the listed subscriptions, each update in a [try] of its
    own.  What the store sees of them is the read of the subscription
    records; what their callers see is whether listing threw. *)
Definition applyBundleDiscountIfEligible (customerId userId : string) : Task unit :=
  if negb coupon_configured then mret tt
  else
    r ← Billing.getBundleEligibility userId;
    if negb (Billing.bundle_eligible r) then mret tt
    else
      match getActiveSubscriptions customerId with
      | Thrown e => throw e
      | Returned _ => mret tt
      end.

Definition removeBundleDiscountIfIneligible (customerId userId : string) : Task unit :=
  if negb coupon_configured then mret tt
  else
    r ← Billing.getBundleEligibility userId;
    if Billing.bundle_eligible r then mret tt
    else
      match getActiveSubscriptions customerId with
      | Thrown e => throw e
      | Returned _ => mret tt
      end.

Definition handleInvoicePaymentSucceeded (invoice : Invoice) : Task unit :=
  match referenced (subscription_ref invoice) with
  | None => mret tt
  | Some subscriptionId =>
    match truthy (invoice_customer invoice) with
    | None => mret tt
    | Some customerId =>
      match truthy (getUserIdFromStripeCustomer customerId) with
      | None => mret tt
      | Some userId =>
        resolution ←
          match subscriptions_retrieve subscriptionId with
          | Thrown _ => mret (Resolved "keywords" None)
          | Returned retrieved =>
              let appKey := default "keywords" (retrieved_app_key retrieved) in
              let priceId := retrieved_price_id retrieved in
              if decide (billing_reason invoice = Some "subscription_create"
                         ∧ retrieved_status retrieved = "trialing") then
                mret Skipped
              else if decide (billing_reason invoice = Some "subscription_cycle") then
                try_catch
                  (mergeTrialCredits userId appKey;; mret (Resolved appKey priceId))
                  (fun _ => mret (Resolved appKey priceId))
              else mret (Resolved appKey priceId)
          end;
        match resolution with
        | Skipped => mret tt
        | Resolved appKey priceId =>
            let monthlyCredits := getMonthlyCreditsForSubscription appKey priceId in
            allocateSubscriptionCredits userId monthlyCredits appKey (Some (invoice_id invoice));;
            recalculateSubscriptionCap findSubscriptionByPriceId findSubscriptionPlan userId;;
            mret tt
        end
      end
    end
  end.

(** [subscription.trial_end] as the handler tests it: set and not 0. *)
Definition trial_ended (subscription : SubscriptionEvent) : bool :=
  bool_decide (status (synced subscription) ≠ "trialing")
  && match trial_end subscription with
     | Some t => bool_decide (t ≠ 0)
     | None => false
     end.

Definition handleSubscriptionUpdated (subscription : SubscriptionEvent) : Task unit :=
  match truthy (customer subscription) with
  | None => mret tt
  | Some customerId =>
    match truthy (getUserIdFromStripeCustomer customerId) with
    | None => mret tt
    | Some userId =>
        let appKey := default "keywords" (metadata_app_key subscription) in
        syncAppSubscription userId (synced subscription) appKey;;
        recalculateSubscriptionCap findSubscriptionByPriceId findSubscriptionPlan userId;;
        applyBundleDiscountIfEligible customerId userId;;
        removeBundleDiscountIfIneligible customerId userId;;
        if trial_ended subscription then
          if decide (status (synced subscription) = "active") then mret tt
          else
            expireTrialCredits userId appKey
              ("Trial ended with status: " +:+ status (synced subscription))
        else mret tt
    end
  end.

Definition handleSubscriptionDeleted (subscription : SubscriptionEvent) : Task unit :=
  match truthy (customer subscription) with
  | None => mret tt
  | Some customerId =>
    match truthy (getUserIdFromStripeCustomer customerId) with
    | None => mret tt
    | Some userId =>
        let appKey := default "keywords" (metadata_app_key subscription) in
        syncAppSubscription userId (synced subscription) appKey;;
        recalculateSubscriptionCap findSubscriptionByPriceId findSubscriptionPlan userId;;
        removeBundleDiscountIfIneligible customerId userId
    end
  end.

Definition handleSubscriptionPaused (subscription : SubscriptionEvent) : Task unit :=
  match truthy (customer subscription) with
  | None => mret tt
  | Some customerId =>
    match truthy (getUserIdFromStripeCustomer customerId) with
    | None => mret tt
    | Some userId =>
        let appKey := default "keywords" (metadata_app_key subscription) in
        syncAppSubscription userId (synced subscription) appKey;;
        recalculateSubscriptionCap findSubscriptionByPriceId findSubscriptionPlan userId;;
        removeBundleDiscountIfIneligible customerId userId
    end
  end.

Definition handleSubscriptionResumed (subscription : SubscriptionEvent) : Task unit :=
  match truthy (customer subscription) with
  | None => mret tt
  | Some customerId =>
    match truthy (getUserIdFromStripeCustomer customerId) with
    | None => mret tt
    | Some userId =>
        let appKey := default "keywords" (metadata_app_key subscription) in
        syncAppSubscription userId (synced subscription) appKey;;
        recalculateSubscriptionCap findSubscriptionByPriceId findSubscriptionPlan userId;;
        applyBundleDiscountIfEligible customerId userId
    end
  end.

End Externals.

(** All a task has done to the accounts is rewrite caps: every account is
    the account it was, up to [subscription_cap] and [updated_at], and the
    log is as it was. *)
Definition only_caps (w w' : World) : Prop :=
  credit_transactions w' = credit_transactions w
  ∧ ∀ userId,
      match user_credits w !! userId, user_credits w' !! userId with
      | Some d, Some d' =>
          subscription_balance d' = subscription_balance d
          ∧ topup_balance d' = topup_balance d
          ∧ trial_balance d' = trial_balance d
          ∧ trial_expires_at d' = trial_expires_at d
          ∧ lifetime_earned d' = lifetime_earned d
          ∧ lifetime_spent d' = lifetime_spent d
          ∧ last_allocated d' = last_allocated d
      | None, None => True
      | _, _ => False
      end.

End Handlers.

(** ** The e-mail templates ([escapeHtml]) *)

From Stdlib Require Ascii.

Module Email.
Import Stdlib.Strings.Ascii.

(** A string is the sequence of the bytes of its UTF-8 form.  The four
    characters the function replaces are ASCII, and no byte of a longer
    UTF-8 sequence is an ASCII byte, so replacing them byte by byte is
    replacing them in the string.  [quote] is the double quote. *)
Definition ampersand : Ascii.ascii := "&"%char.
Definition less_than : Ascii.ascii := "<"%char.
Definition greater_than : Ascii.ascii := ">"%char.
Definition quote : Ascii.ascii := "034"%char.

(** [str.replace(/c/g, replacement)] for a single character [c]. *)
Fixpoint replace_all (c : Ascii.ascii) (replacement : string) (str : string) : string :=
  match str with
  | EmptyString => EmptyString
  | String a rest =>
      if Ascii.eqb a c then replacement +:+ replace_all c replacement rest
      else String a (replace_all c replacement rest)
  end.

Definition escapeHtml (str : string) : string :=
  replace_all quote "&quot;"
    (replace_all greater_than "&gt;"
       (replace_all less_than "&lt;"
          (replace_all ampersand "&amp;" str))).

(** Escaping in one pass, each character on its own: what the four
    replacements are compared with. *)
Definition escape_character (a : Ascii.ascii) : string :=
  if Ascii.eqb a ampersand then "&amp;"
  else if Ascii.eqb a less_than then "&lt;"
  else if Ascii.eqb a greater_than then "&gt;"
  else if Ascii.eqb a quote then "&quot;"
  else String a EmptyString.

Fixpoint escape_in_one_pass (str : string) : string :=
  match str with
  | EmptyString => EmptyString
  | String a rest => escape_character a +:+ escape_in_one_pass rest
  end.

(** The characters of a string. *)
Fixpoint characters (str : string) : list Ascii.ascii :=
  match str with
  | EmptyString => []
  | String a rest => a :: characters rest
  end.

End Email.

(** ** More sample stores *)

Module Cases.
Import Store Credits Stripe.

(** A catalog with a retired price, the current price and another app's
    price for [search]. *)
Definition repriced : World :=
  Ledger.happen (Ledger.CostCatalog
    [ {| cfg_app_key := "keywords"; cfg_operation := "search";
         cfg_is_active := false; cfg_credit_cost := 99 |};
      {| cfg_app_key := "keywords"; cfg_operation := "search";
         cfg_is_active := true; cfg_credit_cost := 12 |};
      {| cfg_app_key := "labs"; cfg_operation := "search";
         cfg_is_active := true; cfg_credit_cost := 40 |} ]) Samples.empty_store.

(** A subscription whose collection is paused while Stripe still reports
    it as active. *)
Definition paused : Subscription :=
  {| items_price_id := Some "price_labs"; pause_collection := true; status := "active" |}.

(** Stripe lists no subscription for any customer. *)
Definition nothing_listed : string → Outcome (list Billing.ListedSubscription) :=
  fun _ => Returned [].

(** Customer [cus_1] is user [u]; no other customer is known. *)
Definition customers : string → option string :=
  fun customerId => if decide (customerId = "cus_1") then Some "u" else None.

(** Stripe answers every listing with no subscription, or fails every
    listing. *)
Definition listing_up : string → Outcome (list string) := fun _ => Returned [].
Definition listing_down : string → Outcome (list string) :=
  fun _ => Thrown (HttpError 500 "An error occurred with our connection to Stripe" NoDetails).

(** The [labs] trial of customer [cus_1] was canceled. *)
Definition trial_canceled : Handlers.SubscriptionEvent :=
  {| Handlers.customer := Some "cus_1";
     Handlers.metadata_app_key := Some "labs";
     Handlers.trial_end := Some 1767225600;
     Handlers.synced := Samples.canceled |}.

(** User [u] with 100 subscription, 10 top-up and 30 trial credits. *)
Definition on_trial : World :=
  Samples.store (Samples.account 100 10 (Some 30) (Some 2000) 900) 12.

(** Every subscription is retrieved as an active [labs] subscription at
    price [price_labs], or none can be retrieved. *)
Definition retrieve_labs : string → Outcome Handlers.RetrievedSubscription :=
  fun _ => Returned {| Handlers.retrieved_app_key := Some "labs";
                       Handlers.retrieved_price_id := Some "price_labs";
                       Handlers.retrieved_status := "active" |}.
Definition retrieve_down : string → Outcome Handlers.RetrievedSubscription :=
  fun _ => Thrown (HttpError 500 "An error occurred with our connection to Stripe" NoDetails).

(** 500 monthly credits for [labs], 300 for any other app. *)
Definition monthly_credits : string → option string → Z :=
  fun appKey _ => if decide (appKey = "labs") then 500 else 300.

(** The renewal invoice of customer [cus_1]. *)
Definition renewal : Handlers.Invoice :=
  {| Handlers.invoice_id := "in_2";
     Handlers.invoice_customer := Some "cus_1";
     Handlers.subscription_ref := Some (Handlers.RefId "sub_1");
     Handlers.billing_reason := Some "subscription_cycle" |}.

(** An event of a type the webhook has no case for, and a verifier that
    reads every body as that event. *)
Definition customer_created : Webhook.StripeEvent Samples.TopUpSession :=
  {| Webhook.id := "evt_2";
     Webhook.type := "customer.created";
     Webhook.object :=
       {| Samples.session_id := ""; Samples.session_user := "u"; Samples.session_credits := 500;
          Samples.session_pack_name := "" |} |}.
Definition verify_created (body signature : string)
    : Outcome (Webhook.StripeEvent Samples.TopUpSession) :=
  Returned customer_created.

(** A plan catalog: the price [price_labs] is the larger [labs] plan; by
    app key, [keywords] and the basic [labs] plan are known. *)
Definition catalog_by_price_id : string → option SubscriptionPlan :=
  fun priceId =>
    if decide (priceId = "price_labs") then Some {| monthlyCredits := 500; creditCap := 1500 |}
    else None.
Definition catalog_by_app_key : string → option string → option SubscriptionPlan :=
  fun appKey _ =>
    if decide (appKey = "keywords") then Some {| monthlyCredits := 300; creditCap := 900 |}
    else if decide (appKey = "labs") then Some {| monthlyCredits := 400; creditCap := 1200 |}
    else None.

(** User [u], with 300 subscription credits under a cap of 900, holds an
    active [labs] subscription at [price_labs], a trialing [keywords]
    subscription without price, a past-due subscription to an app without
    plan, and a canceled one; user [v] holds a [labs] subscription. *)
Definition subscribed : World :=
  {| user_credits := {[ "u" := Samples.account 300 0 None None 900 ]};
     credit_transactions := [];
     app_credit_config := [];
     app_subscriptions :=
       [ {| sub_user_id := "u"; sub_app_key := "labs";
            sub_stripe_price_id := Some "price_labs"; sub_status := "active" |};
         {| sub_user_id := "u"; sub_app_key := "keywords";
            sub_stripe_price_id := None; sub_status := "trialing" |};
         {| sub_user_id := "v"; sub_app_key := "labs";
            sub_stripe_price_id := Some "price_labs"; sub_status := "active" |};
         {| sub_user_id := "u"; sub_app_key := "reports";
            sub_stripe_price_id := Some ""; sub_status := "past_due" |};
         {| sub_user_id := "u"; sub_app_key := "archive";
            sub_stripe_price_id := Some "price_labs"; sub_status := "canceled" |} ];
     stripe_events := ∅;
     clock := 1000;
     read_error := fun _ => None |}.

(** The store after the top-up event [evt_1] has been delivered once, and
    a store with reads of [stripe_events] failing. *)
Definition delivered_once : World :=
  (Webhook.handler Samples.verify Samples.topup_handlers Samples.delivery
     Samples.empty_store).2.
Definition stripe_events_down (w : World) : World :=
  Ledger.happen (Ledger.ReadErrors (fun t =>
    if decide (t = "stripe_events") then Some "connection refused" else None)) w.

End Cases.

(** ** Properties *)

Import Store Credits Stripe Ledger.

(** *** Running tasks *)

Lemma bind_returned {A B} (m : Task A) (k : A → Task B) w a w' :
  m w = (Returned a, w') → (m ≫= k) w = k a w'.
Proof. intros H. unfold mbind, task_bind. by rewrite H. Qed.

Lemma bind_thrown {A B} (m : Task A) (k : A → Task B) w e w' :
  m w = (Thrown e, w') → (m ≫= k) w = (Thrown e, w').
Proof. intros H. unfold mbind, task_bind. by rewrite H. Qed.

Lemma bind_assoc {A B C} (m : Task A) (k1 : A → Task B) (k2 : B → Task C) w :
  ((m ≫= k1) ≫= k2) w = (m ≫= (fun a => k1 a ≫= k2)) w.
Proof. unfold mbind, task_bind. by destruct (m w) as [[a|e] w']. Qed.

(** An [update] of an existing row replaces it by the patched row. *)
Lemma alter_present {V} (f : V → V) (k : string) (m : gmap string V) v :
  m !! k = Some v → alter f k m = <[k := f v]> m.
Proof.
  intros H. apply map_eq. intros j. rewrite lookup_alter, lookup_insert.
  case_decide; subst; [by rewrite H|done].
Qed.

Lemma with_user_credits_alter userId (f : UserCredits → UserCredits) w d :
  user_credits w !! userId = Some d →
  with_user_credits (alter f userId) w = with_user_credits (insert userId (f d)) w.
Proof. intros H. unfold with_user_credits. f_equal. by apply alter_present. Qed.

(** One [await]: run the first task of a sequence. *)
Ltac step := erewrite bind_returned by reflexivity; cbn beta.
Ltac step_with H := rewrite (bind_returned _ _ _ _ _ H); cbn beta.
Ltac step_by tac := erewrite bind_returned by tac; cbn beta.

Lemma select_user_credits userId w :
  readable "user_credits" w →
  select_maybeSingle "user_credits" (user_credits_rows userId) w
  = (Returned {| data := user_credits w !! userId; error := None |}, w).
Proof.
  unfold readable, select_maybeSingle, gets, user_credits_rows. intros ->.
  by destruct (user_credits w !! userId).
Qed.

Lemma select_user_credits_failed userId w msg :
  read_error w "user_credits" = Some msg →
  select_maybeSingle "user_credits" (user_credits_rows userId) w = (Returned (failed msg), w).
Proof. unfold select_maybeSingle, gets. by intros ->. Qed.

Lemma getBalance_world userId w : (getBalance userId w).2 = w.
Proof.
  unfold getBalance, mbind, task_bind, select_maybeSingle, gets.
  destruct (read_error w "user_credits"); simpl; [done|].
  unfold user_credits_rows. by destruct (user_credits w !! userId).
Qed.

Lemma getBalance_missing userId w :
  readable "user_credits" w → user_credits w !! userId = None →
  getBalance userId w
  = (Returned {| subscriptionBalance := 0; topupBalance := 0; trialBalance := 0; total := 0;
                 cap := 900; lifetimeEarned := 0; lifetimeSpent := 0 |}, w).
Proof.
  intros Hr Hu. unfold getBalance.
  rewrite (bind_returned _ _ _ _ _ (select_user_credits userId w Hr)). by rewrite Hu.
Qed.

Lemma effectiveTrialBalance_code now d :
  match trial_expires_at d with
  | Some t => if t <? now then 0 else default 0 (trial_balance d)
  | None => default 0 (trial_balance d)
  end = effectiveTrialBalance now d.
Proof.
  unfold effectiveTrialBalance. destruct (decide (trial_expired now d)) as [(t & -> & Ht)|Hn].
  - by rewrite (proj2 (Z.ltb_lt t now) Ht).
  - destruct (trial_expires_at d) as [t|] eqn:E; [|done].
    destruct (Z.ltb_spec t now); [|done]. destruct Hn. exists t. by rewrite E.
Qed.

Lemma getBalance_row userId w d :
  readable "user_credits" w → user_credits w !! userId = Some d →
  getBalance userId w
  = (Returned {| subscriptionBalance := subscription_balance d;
                 topupBalance := topup_balance d;
                 trialBalance := effectiveTrialBalance (clock w) d;
                 total := subscription_balance d + topup_balance d
                          + effectiveTrialBalance (clock w) d;
                 cap := subscription_cap d;
                 lifetimeEarned := lifetime_earned d;
                 lifetimeSpent := lifetime_spent d |}, w).
Proof.
  intros Hr Hu. unfold getBalance.
  rewrite (bind_returned _ _ _ _ _ (select_user_credits userId w Hr)). rewrite Hu. simpl.
  unfold mbind, task_bind, gets, mret, task_ret. simpl.
  by rewrite effectiveTrialBalance_code.
Qed.

(** *** Balance engine *)

(** C7. [getBalance] has no side effects: the store it leaves is the store
    it found, whatever it returns.  Without an account row it returns the
    zeroed balance with cap 900 and creates no row.  With a row whose
    [trialExpiresAt] is in the past it reports [trialBalance] 0 and a total
    of the subscription and top-up pools only, and the stored row, trial
    balance included, is the one that was there. *)
Theorem getBalance_read_only userId w :
  (getBalance userId w).2 = w ∧
  (readable "user_credits" w → user_credits w !! userId = None →
     (getBalance userId w).1
     = Returned {| subscriptionBalance := 0; topupBalance := 0; trialBalance := 0; total := 0;
                   cap := 900; lifetimeEarned := 0; lifetimeSpent := 0 |}
     ∧ user_credits (getBalance userId w).2 !! userId = None) ∧
  (readable "user_credits" w →
   ∀ d t, user_credits w !! userId = Some d → trial_expires_at d = Some t → t < clock w →
     ∃ b, (getBalance userId w).1 = Returned b
          ∧ trialBalance b = 0
          ∧ total b = subscription_balance d + topup_balance d
          ∧ subscriptionBalance b = subscription_balance d
          ∧ topupBalance b = topup_balance d
          ∧ user_credits (getBalance userId w).2 !! userId = Some d).
Proof.
  split; [apply getBalance_world|]. split.
  - intros Hr Hu. by rewrite (getBalance_missing _ _ Hr Hu).
  - intros Hr d t Hu Ht Hlt. rewrite (getBalance_row _ _ _ Hr Hu). simpl.
    assert (effectiveTrialBalance (clock w) d = 0) as ->.
    { unfold effectiveTrialBalance. rewrite decide_True; [done|]. by exists t. }
    eexists. split; [done|]. simpl. repeat split; try done. lia.
Qed.

Lemma getBalance_read_only_witness :
  (getBalance "u" Samples.empty_store).1
  = Returned {| subscriptionBalance := 0; topupBalance := 0; trialBalance := 0; total := 0;
                cap := 900; lifetimeEarned := 0; lifetimeSpent := 0 |}
  ∧ ∃ b, (getBalance "u" (Samples.store (Samples.account 100 10 (Some 50) (Some 999) 900) 12)).1
         = Returned b
         ∧ trialBalance b = 0 ∧ total b = 110
         ∧ user_credits (getBalance "u" (Samples.store (Samples.account 100 10 (Some 50) (Some 999) 900) 12)).2
             !! "u" = Some (Samples.account 100 10 (Some 50) (Some 999) 900).
Proof.
  split.
  - apply (getBalance_read_only "u" Samples.empty_store); reflexivity.
  - destruct (getBalance_read_only "u" (Samples.store (Samples.account 100 10 (Some 50) (Some 999) 900) 12))
      as (_ & _ & H).
    destruct (H eq_refl (Samples.account 100 10 (Some 50) (Some 999) 900) 999)
      as (b & Hb & Ht & Htot & _ & _ & Hrow); [reflexivity | reflexivity | reflexivity |].
    exists b. repeat split; assumption.
Defined.

(** *** Deduction engine *)

Lemma getCreditCost_world appKey operation w : (getCreditCost appKey operation w).2 = w.
Proof.
  unfold getCreditCost, mbind, task_bind, select_maybeSingle, gets.
  destruct (read_error w "app_credit_config"); simpl; [done|].
  by destruct (maybeSingle (credit_config_rows appKey operation w)) as [[?|] [?|]].
Qed.

(** C3. When the effective total is strictly below the operation's cost,
    [deductCredits] throws the 402 "Insufficient credits" error carrying
    [required = cost] and [available = total], and the store is left as it
    was: no account write, no transaction. *)
Theorem deductCredits_insufficient userId appKey operation referenceId w c b :
  getCreditCost appKey operation w = (Returned c, w) →
  getBalance userId w = (Returned b, w) →
  total b < c →
  deductCredits userId appKey operation referenceId w
  = (Thrown (HttpError 402 "Insufficient credits" (Shortfall c (total b))), w).
Proof.
  intros Hc Hb Hlt. unfold deductCredits.
  rewrite (bind_returned _ _ _ _ _ Hc), (bind_returned _ _ _ _ _ Hb).
  by rewrite (proj2 (Z.ltb_lt _ _) Hlt).
Qed.

Lemma deductCredits_insufficient_witness :
  deductCredits "u" "keywords" "search" None (Samples.store (Samples.account 2 1 None None 900) 10)
  = (Thrown (HttpError 402 "Insufficient credits" (Shortfall 10 3)),
     Samples.store (Samples.account 2 1 None None 900) 10).
Proof.
  apply (deductCredits_insufficient "u" "keywords" "search" None
           (Samples.store (Samples.account 2 1 None None 900) 10) 10
           {| subscriptionBalance := 2; topupBalance := 1; trialBalance := 0; total := 3;
              cap := 900; lifetimeEarned := 0; lifetimeSpent := 0 |});
    reflexivity.
Defined.

(** An operation without an active cost entry is refused with the 404
    "Unknown operation" error before anything is read or written. *)
Lemma deductCredits_unknown_operation userId appKey operation referenceId w :
  readable "app_credit_config" w →
  credit_config_rows appKey operation w = [] →
  deductCredits userId appKey operation referenceId w
  = (Thrown (HttpError 404 ("Unknown operation: " +:+ appKey +:+ "/" +:+ operation) NoDetails), w).
Proof.
  intros Hr Hrows. unfold deductCredits.
  apply bind_thrown. unfold getCreditCost, mbind, task_bind, select_maybeSingle, gets.
  by rewrite Hr, Hrows.
Qed.

(** The complete effect of a successful deduction: the result, the account
    update and the rows appended to the log. *)
Lemma deductCredits_run userId appKey operation referenceId w c d :
  getCreditCost appKey operation w = (Returned c, w) →
  readable "user_credits" w →
  user_credits w !! userId = Some d →
  c ≤ subscription_balance d + topup_balance d + effectiveTrialBalance (clock w) d →
  let trialBalance := effectiveTrialBalance (clock w) d in
  let total := subscription_balance d + topup_balance d + trialBalance in
  let fromTrial := Z.min c trialBalance in
  let fromTopup := Z.min (c - fromTrial) (topup_balance d) in
  let fromSub := c - fromTrial - fromTopup in
  let rows :=
    usage_deduction_rows userId operation appKey referenceId (clock w)
      (length (credit_transactions w))
      (filter (fun e : Entry => e.1.2 < 0)
         [ (trial, - fromTrial, total - fromTrial);
           (topup, - fromTopup, total - fromTrial - fromTopup);
           (subscription, - fromSub, total - c) ]) in
  deductCredits userId appKey operation referenceId w
  = (Returned {| deduct_newBalance := total - c; transactionId := tx_id <$> last rows |},
     with_credit_transactions (fun log => log ++ rows)
       (with_user_credits (insert userId
          {| subscription_balance := subscription_balance d - fromSub;
             topup_balance := topup_balance d - fromTopup;
             trial_balance := Some (trialBalance - fromTrial);
             trial_expires_at := trial_expires_at d;
             subscription_cap := subscription_cap d;
             lifetime_earned := lifetime_earned d;
             lifetime_spent := lifetime_spent d + c;
             last_allocated := last_allocated d;
             updated_at := Some (clock w) |}) w)).
Proof.
  intros Hc Hr Hu Hle trialBalance total fromTrial fromTopup fromSub rows.
  unfold deductCredits.
  rewrite (bind_returned _ _ _ _ _ Hc), (bind_returned _ _ _ _ _ (getBalance_row _ _ _ Hr Hu)).
  cbn [Credits.total Credits.trialBalance Credits.topupBalance Credits.subscriptionBalance
       Credits.lifetimeSpent].
  fold trialBalance total fromTrial fromTopup fromSub in Hle |- *.
  rewrite (proj2 (Z.ltb_ge total c)) by exact Hle.
  subst rows. clearbody fromSub. clearbody fromTopup. clearbody fromTrial. clearbody total.
  clearbody trialBalance.
  unfold gets, update_user_credits, modify, insert_credit_transaction, mbind, task_bind,
    mret, task_ret, usage_deduction_rows, with_user_credits, with_credit_transactions.
  rewrite !filter_cons, filter_nil. cbn [fst snd].
  destruct (Z.ltb_spec 0 fromTrial), (Z.ltb_spec 0 fromTopup), (Z.ltb_spec 0 fromSub);
    repeat (first [rewrite decide_True by lia | rewrite decide_False by lia]);
    cbn [fst snd with_user_credits with_credit_transactions user_credits credit_transactions clock
         app_credit_config app_subscriptions stripe_events read_error imap last fmap option_fmap
         option_map tx_id usage_deduction_row];
    rewrite (alter_present _ _ _ _ Hu);
    rewrite ?length_app, <- ?app_assoc; simpl length; rewrite ?app_nil_r;
    rewrite ?Nat.add_0_r; try reflexivity;
    unfold compose; cbn [tx_id usage_deduction_row fst snd]; rewrite <- ?Nat.add_assoc;
    simpl Nat.add; rewrite ?Nat.add_0_r; reflexivity.
Qed.

(** C2. A deduction of cost [c] from an account whose effective total is at
    least [c] drains trial, then top-up, then subscription:
    [fromTrial = min(c, trialBalance)], [fromTopup = min(c - fromTrial,
    topupBalance)], [fromSub = c - fromTrial - fromTopup], where
    [trialBalance] is the effective trial balance [getBalance] reports.  One
    account update writes the three decremented pools and [lifetimeSpent + c];
    one [usage_deduction] row is appended per pool with a positive
    deduction, in the order trial, top-up, subscription, with
    [balance_after] [total - fromTrial], [total - fromTrial - fromTopup] and
    [total - c]; the result carries [total - c] and the id of the last row
    appended (none when no row was). *)
Theorem deductCredits_drain_order userId appKey operation referenceId w c d :
  getCreditCost appKey operation w = (Returned c, w) →
  readable "user_credits" w →
  user_credits w !! userId = Some d →
  c ≤ subscription_balance d + topup_balance d + effectiveTrialBalance (clock w) d →
  let trialBalance := effectiveTrialBalance (clock w) d in
  let total := subscription_balance d + topup_balance d + trialBalance in
  let fromTrial := Z.min c trialBalance in
  let fromTopup := Z.min (c - fromTrial) (topup_balance d) in
  let fromSub := c - fromTrial - fromTopup in
  ∃ res w' d' rows,
    deductCredits userId appKey operation referenceId w = (Returned res, w')
    ∧ deduct_newBalance res = total - c
    ∧ user_credits w' = <[userId := d']> (user_credits w)
    ∧ trial_balance d' = Some (trialBalance - fromTrial)
    ∧ topup_balance d' = topup_balance d - fromTopup
    ∧ subscription_balance d' = subscription_balance d - fromSub
    ∧ lifetime_spent d' = lifetime_spent d + c
    ∧ trial_expires_at d' = trial_expires_at d
    ∧ subscription_cap d' = subscription_cap d
    ∧ lifetime_earned d' = lifetime_earned d
    ∧ credit_transactions w' = credit_transactions w ++ rows
    ∧ entry_of <$> rows
      = filter (fun e : Entry => e.1.2 < 0)
          [ (trial, - fromTrial, total - fromTrial);
            (topup, - fromTopup, total - fromTrial - fromTopup);
            (subscription, - fromSub, total - c) ]
    ∧ Forall (fun r => tx_type r = "usage_deduction" ∧ tx_user_id r = userId) rows
    ∧ transactionId res = tx_id <$> last rows
    ∧ tx_pool <$> last rows
      = (if decide (0 < fromSub) then Some subscription
         else if decide (0 < fromTopup) then Some topup
         else if decide (0 < fromTrial) then Some trial
         else None).
Proof.
  intros Hc Hr Hu Hle trialBalance total fromTrial fromTopup fromSub.
  pose proof (deductCredits_run userId appKey operation referenceId w c d Hc Hr Hu Hle) as Hrun.
  cbv zeta in Hrun. fold trialBalance total fromTrial fromTopup fromSub in Hrun.
  clearbody fromSub. clearbody fromTopup. clearbody fromTrial. clearbody total.
  clearbody trialBalance.
  eexists _, _, _, _. split; [exact Hrun|].
  cbn [deduct_newBalance transactionId user_credits credit_transactions with_user_credits
       with_credit_transactions trial_balance topup_balance subscription_balance lifetime_spent
       trial_expires_at subscription_cap lifetime_earned].
  do 10 (split; [reflexivity|]).
  unfold usage_deduction_rows.
  rewrite !filter_cons, filter_nil. cbn [fst snd].
  destruct (decide (0 < fromTrial)), (decide (0 < fromTopup)), (decide (0 < fromSub));
    repeat (first [rewrite decide_True by lia | rewrite decide_False by lia]);
    cbn; repeat split; repeat constructor.
Qed.

Lemma deductCredits_drain_order_witness :
  ∃ res w',
    deductCredits "u" "keywords" "search" None
      (Samples.store (Samples.account 100 10 (Some 5) None 900) 12) = (Returned res, w')
    ∧ deduct_newBalance res = 103
    ∧ transactionId res = Some 1%nat
    ∧ entry_of <$> credit_transactions w' = [ (trial, -5, 110); (topup, -7, 103) ].
Proof.
  assert (12 ≤ subscription_balance (Samples.account 100 10 (Some 5) None 900)
               + topup_balance (Samples.account 100 10 (Some 5) None 900)
               + effectiveTrialBalance (clock (Samples.store (Samples.account 100 10 (Some 5) None 900) 12))
                   (Samples.account 100 10 (Some 5) None 900)) as Hle
    by (vm_compute; discriminate).
  destruct (deductCredits_drain_order "u" "keywords" "search" None
              (Samples.store (Samples.account 100 10 (Some 5) None 900) 12) 12
              (Samples.account 100 10 (Some 5) None 900) eq_refl eq_refl eq_refl Hle)
    as (res & w' & d' & rows & Hrun & Hnew & _).
  exists res, w'. split; [exact Hrun|]. split; [exact Hnew|].
  assert (Hrun' := Hrun). vm_compute in Hrun'. injection Hrun' as <- <-.
  split; reflexivity.
Defined.

(** *** Allocation engine *)

Lemma ensureUserCreditsRow_run userId w :
  readable "user_credits" w →
  ensureUserCreditsRow userId w
  = (Returned tt,
     match user_credits w !! userId with
     | Some _ => w
     | None => with_user_credits (insert userId default_row) w
     end).
Proof.
  intros Hr. unfold ensureUserCreditsRow.
  rewrite (bind_returned _ _ _ _ _ (select_user_credits userId w Hr)). simpl.
  unfold insert_user_credits, modify, mret, task_ret. 
  destruct (user_credits w !! userId) eqn:E; [reflexivity|]. by rewrite E.
Qed.

Lemma ensureUserCreditsRow_returns userId w :
  readable "user_credits" w →
  ensureUserCreditsRow userId w = (Returned tt, (ensureUserCreditsRow userId w).2).
Proof. intros Hr. by rewrite (ensureUserCreditsRow_run _ _ Hr). Qed.

(** After [ensureUserCreditsRow] the account row is the stored one, or the
    default row when there was none. *)
Lemma ensureUserCreditsRow_row userId w :
  readable "user_credits" w →
  let w1 := (ensureUserCreditsRow userId w).2 in
  readable "user_credits" w1
  ∧ user_credits w1 !! userId = Some (default default_row (user_credits w !! userId))
  ∧ user_credits w1 = <[userId := default default_row (user_credits w !! userId)]> (user_credits w)
  ∧ credit_transactions w1 = credit_transactions w
  ∧ clock w1 = clock w.
Proof.
  intros Hr. rewrite (ensureUserCreditsRow_run _ _ Hr). simpl.
  destruct (user_credits w !! userId) as [d|] eqn:E; simpl.
  - split; [done|]. split; [done|]. split; [|done]. symmetry. by apply insert_id.
  - split; [done|]. split; [apply lookup_insert_eq|]. done.
Qed.

(** The complete effect of [allocateSubscriptionCredits] on a readable
    store. *)
Lemma allocateSubscriptionCredits_run userId amount appKey referenceId w :
  readable "user_credits" w →
  let d := default default_row (user_credits w !! userId) in
  let total := subscription_balance d + topup_balance d + effectiveTrialBalance (clock w) d in
  let allocated := Z.min amount (Z.max 0 (subscription_cap d - subscription_balance d)) in
  allocateSubscriptionCredits userId amount appKey referenceId w
  = (if decide (allocated = 0) then
      (Returned {| newBalance := total; allocated := 0 |}, (ensureUserCreditsRow userId w).2)
    else
      (Returned {| newBalance := total + allocated; allocated := allocated |},
       with_credit_transactions (fun log => log ++ [
           {| tx_id := length (credit_transactions w);
              tx_user_id := userId;
              tx_amount := allocated;
              tx_balance_after := total + allocated;
              tx_pool := subscription;
              tx_type := "subscription_allocation";
              tx_description := Some ("Monthly allocation (" +:+ appKey +:+ ")");
              tx_app_key := Some appKey;
              tx_reference_id := referenceId;
              tx_created_at := clock w |} ])
         (with_user_credits (insert userId
            {| subscription_balance := subscription_balance d + allocated;
               topup_balance := topup_balance d;
               trial_balance := trial_balance d;
               trial_expires_at := trial_expires_at d;
               subscription_cap := subscription_cap d;
               lifetime_earned := lifetime_earned d + allocated;
               lifetime_spent := lifetime_spent d;
               last_allocated := Some (clock w);
               updated_at := Some (clock w) |}) w)))
  ∧ (is_Some (user_credits w !! userId) → (ensureUserCreditsRow userId w).2 = w)
  ∧ credit_transactions (ensureUserCreditsRow userId w).2 = credit_transactions w.
Proof.
  intros Hr d total allocated.
  destruct (ensureUserCreditsRow_row userId w Hr) as (Hr1 & Hu1 & Hm1 & Hl1 & Hc1).
  split; [|split; [|done]].
  - unfold allocateSubscriptionCredits.
    rewrite (bind_returned _ _ _ tt _ (ensureUserCreditsRow_returns _ _ Hr)).
    rewrite (bind_returned _ _ _ _ _ (getBalance_row _ _ _ Hr1 Hu1)).
    cbn [Credits.total Credits.cap Credits.subscriptionBalance Credits.lifetimeEarned].
    rewrite Hc1. fold d total allocated.
    destruct (Z.eqb_spec allocated 0) as [->|Hne].
    + by rewrite decide_True.
    + rewrite decide_False by done.
      unfold gets, update_user_credits, modify, insert_credit_transaction, mbind, task_bind,
        mret, task_ret, with_user_credits, with_credit_transactions. simpl.
      rewrite Hl1, Hc1, (alter_present _ _ _ _ Hu1), Hm1, insert_insert_eq.
      rewrite (ensureUserCreditsRow_run _ _ Hr).
      by destruct (user_credits w !! userId).
  - intros [d' Hd']. rewrite (ensureUserCreditsRow_run _ _ Hr). by rewrite Hd'.
Qed.

(** C4. [allocateSubscriptionCredits] allocates
    [min(amount, max(0, cap - subscriptionBalance))] on the account row (the
    default row when [ensureUserCreditsRow] had to create it).  When that is
    0 it returns [allocated = 0] with the total as it was and writes neither
    an account update nor a transaction: the store is the one
    [ensureUserCreditsRow] left, which is the initial store when the account
    existed.  Otherwise one account update adds [allocated] to
    [subscriptionBalance] and to [lifetimeEarned], and exactly one
    [subscription_allocation] row of [+allocated] is appended. *)
Theorem allocateSubscriptionCredits_capped userId amount appKey referenceId w :
  readable "user_credits" w →
  let d := default default_row (user_credits w !! userId) in
  let total := subscription_balance d + topup_balance d + effectiveTrialBalance (clock w) d in
  let headroom := Z.max 0 (subscription_cap d - subscription_balance d) in
  ∃ res w',
    allocateSubscriptionCredits userId amount appKey referenceId w = (Returned res, w')
    ∧ allocated res = Z.min amount headroom
    ∧ (allocated res = 0 →
         newBalance res = total
         ∧ w' = (ensureUserCreditsRow userId w).2
         ∧ credit_transactions w' = credit_transactions w
         ∧ (is_Some (user_credits w !! userId) → w' = w))
    ∧ (allocated res ≠ 0 →
         ∃ d' row,
           newBalance res = total + allocated res
           ∧ user_credits w' = <[userId := d']> (user_credits w)
           ∧ subscription_balance d' = subscription_balance d + allocated res
           ∧ lifetime_earned d' = lifetime_earned d + allocated res
           ∧ topup_balance d' = topup_balance d
           ∧ trial_balance d' = trial_balance d
           ∧ subscription_cap d' = subscription_cap d
           ∧ credit_transactions w' = credit_transactions w ++ [row]
           ∧ tx_type row = "subscription_allocation"
           ∧ tx_pool row = subscription
           ∧ tx_amount row = allocated res
           ∧ tx_balance_after row = total + allocated res
           ∧ tx_user_id row = userId).
Proof.
  intros Hr d total headroom.
  destruct (allocateSubscriptionCredits_run userId amount appKey referenceId w Hr)
    as (Hrun & Hsame & Hlog).
  cbv zeta in Hrun. fold d total headroom in Hrun.
  destruct (decide (Z.min amount headroom = 0)) as [E|E].
  - eexists _, _. split; [exact Hrun|]. simpl. split; [done|]. split; [done|]. done.
  - eexists _, _. split; [exact Hrun|]. simpl. split; [done|]. split; [done|].
    intros _. eexists _, _. simpl. repeat split; reflexivity.
Qed.

Lemma allocateSubscriptionCredits_capped_witness :
  (∃ res w',
     allocateSubscriptionCredits "u" 300 "keywords" None
       (Samples.store (Samples.account 850 0 None None 900) 12) = (Returned res, w')
     ∧ allocated res = 50
     ∧ subscription_balance <$> user_credits w' !! "u" = Some 900
     ∧ length (credit_transactions w') = 1%nat)
  ∧ allocateSubscriptionCredits "u" 300 "keywords" None
      (Samples.store (Samples.account 900 0 None None 900) 12)
    = (Returned {| newBalance := 900; allocated := 0 |},
       Samples.store (Samples.account 900 0 None None 900) 12).
Proof.
  split.
  - destruct (allocateSubscriptionCredits_capped "u" 300 "keywords" None
                (Samples.store (Samples.account 850 0 None None 900) 12) eq_refl)
      as (res & w' & Hrun & Hall & _ & Hpos).
    exists res, w'. split; [exact Hrun|]. split; [exact Hall|].
    destruct Hpos as (d' & row & _ & Hm & Hsub & _ & _ & _ & _ & Hlog & _).
    { rewrite Hall. discriminate. }
    rewrite Hm, Hlog, lookup_insert_eq. simpl. rewrite Hsub, Hall. split; reflexivity.
  - destruct (allocateSubscriptionCredits_capped "u" 300 "keywords" None
                (Samples.store (Samples.account 900 0 None None 900) 12) eq_refl)
      as (res & w' & Hrun & Hall & Hzero & _).
    destruct (Hzero Hall) as (Hnew & _ & _ & Hsame).
    rewrite Hrun. rewrite (Hsame ltac:(by eexists)). f_equal.
    destruct res as [nb al]. simpl in *. by rewrite Hnew, Hall.
Defined.

(** *** Trial lifecycle *)

Lemma mergeTrialCredits_run userId appKey w d :
  readable "user_credits" w →
  user_credits w !! userId = Some d →
  let trialBalance := default 0 (trial_balance d) in
  let merged := Z.min trialBalance (Z.max 0 (subscription_cap d - subscription_balance d)) in
  let lost := trialBalance - merged in
  let after := subscription_balance d + merged + topup_balance d in
  let merge_rows :=
    if decide (0 < merged)
    then [trial_merge_row userId appKey (clock w) (length (credit_transactions w)) merged after]
    else [] in
  let overflow_rows :=
    if decide (0 < lost)
    then [trial_merge_overflow_row userId appKey (clock w)
            (length (credit_transactions w) + length merge_rows) lost after]
    else [] in
  mergeTrialCredits userId appKey w
  = if decide (trialBalance = 0) then (Returned {| merged := 0 |}, w)
    else (Returned {| merged := merged |},
          with_credit_transactions (fun log => log ++ merge_rows ++ overflow_rows)
            (with_user_credits (insert userId (merged_row (clock w) merged d)) w)).
Proof.
  intros Hr Hu trialBalance merged lost after merge_rows overflow_rows.
  unfold mergeTrialCredits.
  rewrite (bind_returned _ _ _ _ _ (select_user_credits userId w Hr)). rewrite Hu.
  cbn [data mbind option_bind default fmap option_fmap option_map].
  change (id (subscription_cap d)) with (subscription_cap d).
  change (id (subscription_balance d)) with (subscription_balance d).
  fold trialBalance. fold merged. fold lost.
  destruct (Z.eqb_spec trialBalance 0) as [E|E]; [rewrite decide_True by done; reflexivity|].
  rewrite decide_False by done.
  set (w1 := with_user_credits (insert userId (merged_row (clock w) merged d)) w).
  assert (Hr1 : readable "user_credits" w1) by done.
  assert (Hu1 : user_credits w1 !! userId = Some (merged_row (clock w) merged d))
    by apply lookup_insert_eq.
  assert (Hb1 : ∀ w2, user_credits w2 = user_credits w1 → read_error w2 = read_error w1 →
                clock w2 = clock w1 →
                getBalance userId w2
                = (Returned {| subscriptionBalance := subscription_balance d + merged;
                               topupBalance := topup_balance d;
                               trialBalance := 0;
                               total := after;
                               cap := subscription_cap d;
                               lifetimeEarned := lifetime_earned d;
                               lifetimeSpent := lifetime_spent d |}, w2)).
  { intros w2 E1 E2 E3.
    rewrite (getBalance_row userId w2 (merged_row (clock w) merged d)).
    - unfold effectiveTrialBalance. rewrite decide_False; [|by intros (? & [=] & _)].
      simpl. subst after. do 3 f_equal. lia.
    - unfold readable. by rewrite E2.
    - by rewrite E1. }
  step. step. unfold update_user_credits, modify. cbn [snd].
  rewrite (with_user_credits_alter _ _ _ _ Hu). change (with_user_credits _ w) with w1.
  subst merge_rows overflow_rows.
  destruct (Z.ltb_spec 0 merged), (Z.ltb_spec 0 lost);
    repeat (first [rewrite decide_True by lia | rewrite decide_False by lia]).
  all: lazy beta iota; rewrite ?bind_assoc.
  - step_by ltac:(apply Hb1; reflexivity). rewrite bind_assoc. step. step.
    rewrite bind_assoc.
    step_by ltac:(apply Hb1; reflexivity). rewrite bind_assoc. step. step.
    unfold mret, task_ret, with_credit_transactions, trial_merge_row, trial_merge_overflow_row.
    subst w1. cbn. rewrite length_app, <- app_assoc. reflexivity.
  - step_by ltac:(apply Hb1; reflexivity). rewrite bind_assoc. step. step. step.
    unfold mret, task_ret, with_credit_transactions, trial_merge_row.
    subst w1. cbn. reflexivity.
  - step. rewrite bind_assoc.
    step_by ltac:(apply Hb1; reflexivity). rewrite bind_assoc. step. step.
    unfold mret, task_ret, with_credit_transactions, trial_merge_overflow_row.
    subst w1. cbn. rewrite Nat.add_0_r. reflexivity.
  - step. step.
    unfold mret, task_ret, with_credit_transactions.
    subst w1. cbn. rewrite app_nil_r. reflexivity.
Qed.


(** A user without an account row has nothing to merge. *)
Lemma mergeTrialCredits_missing userId appKey w :
  user_credits w !! userId = None →
  mergeTrialCredits userId appKey w = (Returned {| merged := 0 |}, w).
Proof.
  intros Hu. unfold mergeTrialCredits, mbind at 1, task_bind at 1, select_maybeSingle, gets.
  unfold user_credits_rows. rewrite Hu. by destruct (read_error w "user_credits").
Qed.

(** C5. On an account whose stored trial balance is positive,
    [mergeTrialCredits] merges [min(trialBalance, max(0, cap -
    subscriptionBalance))]: the account update clears [trial_balance] and
    [trial_expires_at] and adds [merged] to the subscription pool; exactly
    one [trial_merge] row of [+merged] is appended when [merged > 0], then
    exactly one [trial_merge_overflow] row of [-(trialBalance - merged)] when
    [trialBalance > merged], and nothing else.  With a stored trial balance
    of 0 the call returns [merged = 0] and leaves the store as it was. *)
Theorem mergeTrialCredits_capped userId appKey w d :
  readable "user_credits" w →
  user_credits w !! userId = Some d →
  0 ≤ default 0 (trial_balance d) →
  let trialBalance := default 0 (trial_balance d) in
  let headroom := Z.max 0 (subscription_cap d - subscription_balance d) in
  ∃ res w' d' rows,
    mergeTrialCredits userId appKey w = (Returned res, w')
    ∧ (trialBalance = 0 → merged res = 0 ∧ w' = w)
    ∧ (0 < trialBalance →
         merged res = Z.min trialBalance headroom
         ∧ user_credits w' = <[userId := d']> (user_credits w)
         ∧ trial_balance d' = Some 0
         ∧ trial_expires_at d' = None
         ∧ subscription_balance d' = subscription_balance d + merged res
         ∧ topup_balance d' = topup_balance d
         ∧ subscription_cap d' = subscription_cap d
         ∧ lifetime_earned d' = lifetime_earned d
         ∧ lifetime_spent d' = lifetime_spent d
         ∧ credit_transactions w' = credit_transactions w ++ rows
         ∧ (fun r => (tx_type r, tx_pool r, tx_amount r)) <$> rows
           = (if decide (0 < merged res)
              then [("trial_merge", subscription, merged res)] else [])
             ++ (if decide (merged res < trialBalance)
                 then [("trial_merge_overflow", trial, - (trialBalance - merged res))] else [])
         ∧ Forall (fun r => tx_user_id r = userId
                            ∧ tx_balance_after r
                              = subscription_balance d + merged res + topup_balance d) rows).
Proof.
  intros Hr Hu Hnn trialBalance headroom.
  pose proof (mergeTrialCredits_run userId appKey w d Hr Hu) as Hrun.
  cbv zeta in Hrun. fold trialBalance headroom in Hrun, Hnn.
  destruct (decide (trialBalance = 0)) as [E|E].
  - exists {| merged := 0 |}, w, d, []. split; [exact Hrun|]. split; [done|]. lia.
  - eexists _, _, _, _. split; [exact Hrun|]. split; [done|]. intros _.
    cbn [merged user_credits credit_transactions with_user_credits with_credit_transactions
         merged_row trial_balance trial_expires_at subscription_balance topup_balance
         subscription_cap lifetime_earned lifetime_spent].
    do 10 (split; [reflexivity|]).
    set (m := Z.min trialBalance headroom).
    assert (m ≤ trialBalance) by lia.
    destruct (decide (0 < m)), (decide (0 < trialBalance - m)); try (exfalso; lia);
      repeat (first [rewrite decide_True by lia | rewrite decide_False by lia]);
      cbn; repeat split; repeat constructor.
Qed.

Lemma mergeTrialCredits_capped_witness :
  ∃ res w',
    mergeTrialCredits "u" "keywords"
      (Samples.store (Samples.account 880 0 (Some 40) (Some 2000) 900) 12) = (Returned res, w')
    ∧ merged res = 20
    ∧ (fun r => (tx_type r, tx_pool r, tx_amount r)) <$> credit_transactions w'
      = [ ("trial_merge", subscription, 20); ("trial_merge_overflow", trial, -20) ]
    ∧ (fun r => (subscription_balance r, trial_balance r, trial_expires_at r))
        <$> user_credits w' !! "u"
      = Some (900, Some 0, None).
Proof.
  destruct (mergeTrialCredits_capped "u" "keywords"
              (Samples.store (Samples.account 880 0 (Some 40) (Some 2000) 900) 12)
              (Samples.account 880 0 (Some 40) (Some 2000) 900)
              eq_refl eq_refl ltac:(vm_compute; discriminate))
    as (res & w' & d' & rows & Hrun & _ & Hpos).
  destruct Hpos as (Hm & Hmap & Htb & Hexp & Hsub & _ & _ & _ & _ & Hlog & Hrows & _);
    [reflexivity|].
  exists res, w'. split; [exact Hrun|]. split; [exact Hm|].
  rewrite Hlog, Hmap, lookup_insert_eq. simpl. rewrite Hrows, Hm. simpl.
  rewrite Hsub, Htb, Hexp, Hm. split; reflexivity.
Defined.

(** C10. [mergeTrialCredits] reads the stored [trial_balance] and never
    looks at [trial_expires_at]: on an account whose trial has expired by
    timestamp, so that [getBalance] reports a trial balance of 0, but whose
    stored trial balance is still positive, it merges
    [min(trialBalance, max(0, cap - subscriptionBalance))] into the
    subscription pool all the same; and whatever [trial_expires_at] holds,
    the result and the store left behind are the same. *)
Theorem mergeTrialCredits_ignores_expiry userId appKey w d t :
  readable "user_credits" w →
  user_credits w !! userId = Some d →
  trial_expires_at d = Some t →
  t < clock w →
  0 < default 0 (trial_balance d) →
  let trialBalance := default 0 (trial_balance d) in
  let headroom := Z.max 0 (subscription_cap d - subscription_balance d) in
  (∃ b, getBalance userId w = (Returned b, w) ∧ Credits.trialBalance b = 0)
  ∧ (∃ w' d',
       mergeTrialCredits userId appKey w
       = (Returned {| merged := Z.min trialBalance headroom |}, w')
       ∧ user_credits w' !! userId = Some d'
       ∧ subscription_balance d'
         = subscription_balance d + Z.min trialBalance headroom
       ∧ trial_balance d' = Some 0)
  ∧ (∀ expires,
       mergeTrialCredits userId appKey
         (with_user_credits (insert userId (set_trial_expires_at expires d)) w)
       = mergeTrialCredits userId appKey w).
Proof.
  intros Hr Hu Ht Hlt Hpos trialBalance headroom.
  pose proof (mergeTrialCredits_run userId appKey w d Hr Hu) as Hrun.
  cbv zeta in Hrun. fold trialBalance headroom in Hrun, Hpos.
  rewrite decide_False in Hrun by lia.
  split; [|split].
  - eexists. split; [apply (getBalance_row _ _ _ Hr Hu)|]. simpl.
    unfold effectiveTrialBalance. rewrite decide_True; [done|]. by exists t.
  - eexists _, _. split; [exact Hrun|]. simpl. rewrite lookup_insert_eq.
    split; [reflexivity|]. split; reflexivity.
  - intros expires.
    set (w0 := with_user_credits (insert userId (set_trial_expires_at expires d)) w).
    assert (Hu0 : user_credits w0 !! userId = Some (set_trial_expires_at expires d))
      by apply lookup_insert_eq.
    pose proof (mergeTrialCredits_run userId appKey w0 _ Hr Hu0) as Hrun0.
    cbv zeta in Hrun0. rewrite Hrun0, Hrun.
    cbn [set_trial_expires_at trial_balance subscription_cap subscription_balance topup_balance].
    fold trialBalance headroom. rewrite decide_False by lia.
    f_equal. subst w0. unfold with_credit_transactions, with_user_credits. simpl.
    f_equal. apply insert_insert_eq.
Qed.

Lemma mergeTrialCredits_ignores_expiry_witness :
  ∃ w',
    (getBalance "u" (Samples.store (Samples.account 800 0 (Some 40) (Some 999) 900) 12)).1
    = Returned {| subscriptionBalance := 800; topupBalance := 0; trialBalance := 0;
                  total := 800; cap := 900; lifetimeEarned := 0; lifetimeSpent := 0 |}
    ∧ mergeTrialCredits "u" "keywords"
        (Samples.store (Samples.account 800 0 (Some 40) (Some 999) 900) 12)
      = (Returned {| merged := 40 |}, w')
    ∧ subscription_balance <$> user_credits w' !! "u" = Some 840.
Proof.
  destruct (mergeTrialCredits_ignores_expiry "u" "keywords"
              (Samples.store (Samples.account 800 0 (Some 40) (Some 999) 900) 12)
              (Samples.account 800 0 (Some 40) (Some 999) 900) 999
              eq_refl eq_refl eq_refl eq_refl eq_refl)
    as (_ & (w' & d' & Hrun & Hrow & Hsub & _) & _).
  exists w'. split; [reflexivity|]. split; [exact Hrun|].
  rewrite Hrow. simpl. by rewrite Hsub.
Defined.

(** C9. On an account whose [trialExpiresAt] is in the past while the
    stored [trial_balance] is still positive, a successful deduction (of a
    cost between 0 and the effective total, which no longer counts the trial
    pool) overwrites the stored [trial_balance] with 0: the new value is
    computed from the effective trial balance, which is 0.  The rows it
    appends are [usage_deduction] rows of the top-up and subscription pools
    only: no [trial_expiry] row, and no row of the trial pool, records the
    purge. *)
Theorem deductCredits_purges_expired_trial userId appKey operation referenceId w c d t tb :
  getCreditCost appKey operation w = (Returned c, w) →
  readable "user_credits" w →
  user_credits w !! userId = Some d →
  trial_expires_at d = Some t →
  t < clock w →
  trial_balance d = Some tb →
  0 < tb →
  0 ≤ c →
  c ≤ subscription_balance d + topup_balance d →
  ∃ res w' d' rows,
    deductCredits userId appKey operation referenceId w = (Returned res, w')
    ∧ user_credits w' !! userId = Some d'
    ∧ trial_balance d' = Some 0
    ∧ trial_expires_at d' = Some t
    ∧ credit_transactions w' = credit_transactions w ++ rows
    ∧ Forall (fun r => tx_type r = "usage_deduction" ∧ tx_type r ≠ "trial_expiry"
                       ∧ tx_pool r ≠ trial) rows.
Proof.
  intros Hc Hr Hu Ht Hlt Htb Hpos Hc0 Hle.
  assert (He : effectiveTrialBalance (clock w) d = 0).
  { unfold effectiveTrialBalance. rewrite decide_True; [done|]. by exists t. }
  assert (Hle' : c ≤ subscription_balance d + topup_balance d + effectiveTrialBalance (clock w) d)
    by (rewrite He; lia).
  pose proof (deductCredits_run userId appKey operation referenceId w c d Hc Hr Hu Hle') as Hrun.
  cbv zeta in Hrun. rewrite He in Hrun.
  replace (Z.min c 0) with 0 in Hrun by lia.
  eexists _, _, _, _. split; [exact Hrun|].
  cbn [user_credits credit_transactions with_user_credits with_credit_transactions].
  rewrite lookup_insert_eq. split; [reflexivity|].
  cbn [trial_balance trial_expires_at]. split; [f_equal; lia|]. split; [exact Ht|].
  split; [reflexivity|].
  unfold usage_deduction_rows. rewrite !filter_cons, filter_nil. cbn [fst snd].
  rewrite (decide_False (P := - 0 < 0)) by lia.
  repeat case_decide; cbn; repeat constructor; done.
Qed.

Lemma deductCredits_purges_expired_trial_witness :
  ∃ res w',
    deductCredits "u" "keywords" "search" None
      (Samples.store (Samples.account 100 10 (Some 50) (Some 999) 900) 12) = (Returned res, w')
    ∧ trial_balance <$> user_credits w' !! "u" = Some (Some 0)
    ∧ tx_type <$> credit_transactions w' = ["usage_deduction"; "usage_deduction"].
Proof.
  destruct (deductCredits_purges_expired_trial "u" "keywords" "search" None
              (Samples.store (Samples.account 100 10 (Some 50) (Some 999) 900) 12) 12
              (Samples.account 100 10 (Some 50) (Some 999) 900) 999 50
              eq_refl eq_refl eq_refl eq_refl eq_refl eq_refl eq_refl
              ltac:(vm_compute; discriminate) ltac:(vm_compute; discriminate))
    as (res & w' & d' & rows & Hrun & Hrow & Htb & _ & _ & _).
  exists res, w'. split; [exact Hrun|]. rewrite Hrow. simpl. rewrite Htb.
  split; [reflexivity|].
  assert (Hrun' := Hrun). vm_compute in Hrun'. injection Hrun' as <- <-. reflexivity.
Defined.

(** *** Cap reconciler *)

Section CapReconciler.

Variable findSubscriptionByPriceId : string → option SubscriptionPlan.
Variable findSubscriptionPlan : string → option string → option SubscriptionPlan.

(** One turn of the loop adds the subscription's contribution. *)
Lemma add_subscription_cap_contribution totalCap sub :
  add_subscription_cap findSubscriptionByPriceId findSubscriptionPlan totalCap sub = totalCap + cap_contribution findSubscriptionByPriceId findSubscriptionPlan sub.
Proof.
  unfold Credits.add_subscription_cap, Ledger.cap_contribution, plan_of_subscription.
  destruct (sub_stripe_price_id sub) as [p|]; simpl.
  - destruct (decide (p = "")) as [->|Hp].
    + rewrite option_guard_False by (intros H; by apply H). simpl.
      by destruct (findSubscriptionPlan (sub_app_key sub) None).
    + rewrite option_guard_True by done. simpl.
      destruct (findSubscriptionByPriceId p); [done|].
      by destruct (findSubscriptionPlan (sub_app_key sub) None).
  - by destruct (findSubscriptionPlan (sub_app_key sub) None).
Qed.

Lemma fold_left_add_subscription_cap subs totalCap :
  fold_left (add_subscription_cap findSubscriptionByPriceId findSubscriptionPlan) subs totalCap
  = totalCap + foldr Z.add 0 (cap_contribution findSubscriptionByPriceId findSubscriptionPlan <$> subs).
Proof.
  revert totalCap. induction subs as [|sub subs IH]; intros totalCap; [simpl; lia|].
  rewrite fmap_cons. simpl.
  rewrite IH, add_subscription_cap_contribution. lia.
Qed.

Lemma recalculateSubscriptionCap_run userId w :
  recalculateSubscriptionCap findSubscriptionByPriceId findSubscriptionPlan userId w
  = match read_error w "app_subscriptions" with
    | Some _ => (Returned 900, w)
    | None =>
        (Returned (expected_cap findSubscriptionByPriceId findSubscriptionPlan (qualifying_subscriptions userId w)),
         with_user_credits
           (alter (fun r => set_updated_at (Some (clock w))
                              (set_subscription_cap
                                 (expected_cap findSubscriptionByPriceId findSubscriptionPlan (qualifying_subscriptions userId w)) r))
                  userId) w)
    end.
Proof.
  unfold Credits.recalculateSubscriptionCap, mbind at 1, task_bind at 1, select, gets.
  destruct (read_error w "app_subscriptions"); [reflexivity|].
  cbn [error data].
  assert (match qualifying_subscriptions userId w with
          | [] => 900
          | _ :: _ => fold_left (add_subscription_cap findSubscriptionByPriceId findSubscriptionPlan) (qualifying_subscriptions userId w) 0
          end = expected_cap findSubscriptionByPriceId findSubscriptionPlan (qualifying_subscriptions userId w)) as ->.
  { destruct (qualifying_subscriptions userId w) as [|sub subs]; [done|].
    rewrite fold_left_add_subscription_cap. unfold Ledger.expected_cap. lia. }
  reflexivity.
Qed.

(** C8. [recalculateSubscriptionCap] computes 900 for a user without a
    subscription record in status active, trialing or past_due, and
    otherwise the sum, over exactly those records of the user, each counted
    once and in the order of the table, of the [creditCap] of the plan
    found by Stripe price id, else of the first plan matching the app key,
    else 900.  It returns that cap and writes it to the user's account row:
    afterwards the row's [subscription_cap] is the cap and its [updated_at]
    the time of the call, every other column of the row and every other row
    being as before; a user without account row gets none.  When the read
    of the subscription records fails it does not throw: it returns 900 and
    leaves the store as it was. *)
Theorem recalculateSubscriptionCap_sum userId w :
  let subs :=
    filter (fun s => sub_user_id s = userId
                     ∧ (sub_status s = "active" ∨ sub_status s = "trialing"
                        ∨ sub_status s = "past_due"))
           (app_subscriptions w) in
  let contribution := fun s =>
    match sub_stripe_price_id s ≫= (fun p => guard (p ≠ "");; findSubscriptionByPriceId p),
          findSubscriptionPlan (sub_app_key s) None with
    | Some plan, _ => creditCap plan
    | None, Some plan => creditCap plan
    | None, None => 900
    end in
  let cap := match subs with
             | [] => 900
             | _ => foldr Z.add 0 (contribution <$> subs)
             end in
  (readable "app_subscriptions" w →
   ∃ w',
     recalculateSubscriptionCap findSubscriptionByPriceId findSubscriptionPlan userId w
     = (Returned cap, w')
     ∧ user_credits w' !! userId
       = (fun d => {| subscription_balance := subscription_balance d;
                      topup_balance := topup_balance d;
                      trial_balance := trial_balance d;
                      trial_expires_at := trial_expires_at d;
                      subscription_cap := cap;
                      lifetime_earned := lifetime_earned d;
                      lifetime_spent := lifetime_spent d;
                      last_allocated := last_allocated d;
                      updated_at := Some (clock w) |})
           <$> user_credits w !! userId
     ∧ (∀ d, user_credits w !! userId = Some d →
          ∃ d', user_credits w' !! userId = Some d' ∧ subscription_cap d' = cap)
     ∧ (∀ other, other ≠ userId → user_credits w' !! other = user_credits w !! other)
     ∧ credit_transactions w' = credit_transactions w
     ∧ app_subscriptions w' = app_subscriptions w
     ∧ app_credit_config w' = app_credit_config w
     ∧ stripe_events w' = stripe_events w)
  ∧ (∀ msg, read_error w "app_subscriptions" = Some msg →
       recalculateSubscriptionCap findSubscriptionByPriceId findSubscriptionPlan userId w
       = (Returned 900, w)).
Proof.
  intros subs contribution cap.
  assert (qualifying_subscriptions userId w = subs) as Hsubs.
  { subst subs. unfold qualifying_subscriptions. apply list_filter_iff. intros s.
    rewrite !elem_of_cons, elem_of_nil. tauto. }
  assert (∀ s, cap_contribution findSubscriptionByPriceId findSubscriptionPlan s
               = contribution s) as Hcontribution.
  { intros s. subst contribution. unfold Ledger.cap_contribution, plan_of_subscription.
    cbv beta. destruct (sub_stripe_price_id s ≫= _); [done|].
    by destruct (findSubscriptionPlan (sub_app_key s) None). }
  assert (expected_cap findSubscriptionByPriceId findSubscriptionPlan
            (qualifying_subscriptions userId w) = cap) as Hcap.
  { rewrite Hsubs. subst cap. unfold Ledger.expected_cap.
    destruct subs as [|s subs']; [done|]. f_equal.
    apply list_fmap_ext. intros _ s' _. apply Hcontribution. }
  rewrite recalculateSubscriptionCap_run, Hcap. split.
  - intros Hr. unfold readable in Hr. rewrite Hr.
    eexists. split; [reflexivity|]. simpl.
    assert (alter (fun r => set_updated_at (Some (clock w)) (set_subscription_cap cap r)) userId
              (user_credits w) !! userId
            = (fun d => {| subscription_balance := subscription_balance d;
                           topup_balance := topup_balance d;
                           trial_balance := trial_balance d;
                           trial_expires_at := trial_expires_at d;
                           subscription_cap := cap;
                           lifetime_earned := lifetime_earned d;
                           lifetime_spent := lifetime_spent d;
                           last_allocated := last_allocated d;
                           updated_at := Some (clock w) |})
                <$> user_credits w !! userId) as Hrow.
    { rewrite lookup_alter, decide_True by done.
      by destruct (user_credits w !! userId). }
    split; [exact Hrow|]. split.
    { intros d Hd. rewrite Hrow, Hd. by eexists. }
    split; [|done].
    intros other Hne. rewrite lookup_alter. by rewrite decide_False.
  - intros msg Herr. by rewrite Herr.
Qed.

End CapReconciler.

Lemma recalculateSubscriptionCap_sum_witness :
  ∃ w',
    recalculateSubscriptionCap Cases.catalog_by_price_id Cases.catalog_by_app_key "u"
      Cases.subscribed = (Returned 3300, w')
    ∧ (fun d => (subscription_balance d, subscription_cap d, updated_at d))
        <$> user_credits w' !! "u" = Some (300, 3300, Some 1000)
    ∧ credit_transactions w' = [].
Proof.
  pose proof (recalculateSubscriptionCap_sum Cases.catalog_by_price_id Cases.catalog_by_app_key
                "u" Cases.subscribed) as H.
  cbv zeta in H. destruct H as [H _].
  destruct (H eq_refl) as (w' & Hrun & Hrow & _ & _ & Hlog & _).
  exists w'. split; [|split].
  - rewrite Hrun. vm_compute. reflexivity.
  - rewrite Hrow. vm_compute. reflexivity.
  - rewrite Hlog. reflexivity.
Defined.

(** Two qualifying subscriptions without a known plan contribute 900 each;
    the canceled one does not count; a failed read of the subscription
    records gives 900 and leaves the stored cap alone. *)
Example recalculateSubscriptionCap_samples :
  (recalculateSubscriptionCap Samples.no_plan_by_price_id Samples.no_plan_by_app_key "u"
     Samples.funded).1 = Returned 1800
  ∧ (recalculateSubscriptionCap Samples.no_plan_by_price_id Samples.no_plan_by_app_key "u"
       Samples.labs_canceled).1 = Returned 900
  ∧ recalculateSubscriptionCap Samples.no_plan_by_price_id Samples.no_plan_by_app_key "u"
      (Samples.app_subscriptions_down Samples.funded)
    = (Returned 900, Samples.app_subscriptions_down Samples.funded).
Proof. repeat split; vm_compute; reflexivity. Qed.

(** *** The ledger invariant *)

(** [subscriptionBalance ≤ subscriptionCap] is a property of the account
    rows.  Every operation but the cap recalculation keeps it, whether it
    returns or throws and whether the store answers or not: the balance only
    grows through an allocation or a merge, and both are bounded by the
    headroom read from the same row. *)

Lemma run_bind {A B} (m : Task A) (k : A → Task B) w :
  (m ≫= k) w
  = match m w with
    | (Returned a, w') => k a w'
    | (Thrown e, w') => (Thrown e, w')
    end.
Proof. reflexivity. Qed.

Lemma keeps_ret {A} (a : A) : keeps_accounts (mret a).
Proof. by intros w. Qed.

Lemma keeps_throw {A} e : keeps_accounts (throw (A := A) e).
Proof. by intros w. Qed.

Lemma keeps_gets {A} (f : World → A) : keeps_accounts (gets f).
Proof. by intros w. Qed.

Lemma keeps_bind {A B} (m : Task A) (k : A → Task B) :
  keeps_accounts m → (∀ a, keeps_accounts (k a)) → keeps_accounts (m ≫= k).
Proof.
  intros Hm Hk w. rewrite run_bind. specialize (Hm w).
  destruct (m w) as [[a|e] w']; simpl in *; [|done]. by rewrite Hk.
Qed.

Lemma keeps_insert_credit_transaction userId amount after pool type description appKey ref :
  keeps_accounts (insert_credit_transaction userId amount after pool type description appKey ref).
Proof. by intros w. Qed.

Lemma keeps_getBalance userId : keeps_accounts (getBalance userId).
Proof. intros w. by rewrite getBalance_world. Qed.

Ltac keeps :=
  repeat first
    [ apply keeps_ret | apply keeps_throw | apply keeps_gets
    | apply keeps_insert_credit_transaction | apply keeps_getBalance
    | apply keeps_bind; [|intros ?]
    | match goal with |- keeps_accounts (if ?b then _ else _) => destruct b end ].

Lemma within_cap_accounts w w' :
  user_credits w' = user_credits w → within_cap w → within_cap w'.
Proof. unfold within_cap. by intros ->. Qed.

Lemma within_cap_alter w userId (f : UserCredits → UserCredits) :
  within_cap w →
  (∀ d, user_credits w !! userId = Some d →
        subscription_balance d ≤ subscription_cap d →
        subscription_balance (f d) ≤ subscription_cap (f d)) →
  within_cap (with_user_credits (alter f userId) w).
Proof.
  intros Hw Hf u d'. simpl. rewrite lookup_alter. case_decide as E.
  - subst u. destruct (user_credits w !! userId) as [d|] eqn:Hd; simpl; [|done].
    intros [= <-]. apply Hf; [done|]. by apply (Hw userId).
  - apply Hw.
Qed.

Lemma within_cap_default w userId :
  within_cap w → within_cap (with_user_credits (insert userId default_row) w).
Proof.
  intros Hw u d'. simpl. rewrite lookup_insert. case_decide.
  - intros [= <-]. simpl. lia.
  - apply Hw.
Qed.

(** What a returned balance says about the stored row. *)
Lemma getBalance_returned userId w b w' :
  getBalance userId w = (Returned b, w') →
  w' = w
  ∧ total b = subscriptionBalance b + topupBalance b + trialBalance b
  ∧ ∀ d, user_credits w !! userId = Some d →
         subscriptionBalance b = subscription_balance d
         ∧ topupBalance b = topup_balance d
         ∧ trialBalance b = effectiveTrialBalance (clock w) d
         ∧ cap b = subscription_cap d.
Proof.
  intros H. destruct (read_error w "user_credits") as [msg|] eqn:Hr.
  - unfold getBalance in H.
    rewrite (bind_returned _ _ _ _ _ (select_user_credits_failed userId w msg Hr)) in H.
    discriminate.
  - destruct (user_credits w !! userId) as [d|] eqn:Hu.
    + rewrite (getBalance_row _ _ _ Hr Hu) in H. injection H as <- <-.
      split; [done|]. split; [done|]. by intros ? [= <-].
    + rewrite (getBalance_missing _ _ Hr Hu) in H. injection H as <- <-.
      split; [done|]. split; [done|]. done.
Qed.

Lemma bind_within_cap {A B} (m : Task A) (k : A → Task B) w :
  (∀ e w', m w = (Thrown e, w') → within_cap w') →
  (∀ a w', m w = (Returned a, w') → within_cap (k a w').2) →
  within_cap ((m ≫= k) w).2.
Proof.
  intros He Hk. rewrite run_bind. destruct (m w) as [[a|e] w'] eqn:E; simpl; eauto.
Qed.

Lemma ensureUserCreditsRow_within_cap userId w :
  within_cap w →
  ∃ w1, ensureUserCreditsRow userId w = (Returned tt, w1) ∧ within_cap w1.
Proof.
  intros Hw. unfold ensureUserCreditsRow. rewrite run_bind.
  unfold select_maybeSingle, gets.
  destruct (data _) as [d|].
  - eexists. split; [reflexivity|done].
  - unfold insert_user_credits, modify. eexists. split; [reflexivity|].
    destruct (user_credits w !! userId); [done|]. by apply within_cap_default.
Qed.

Lemma deductCredits_within_cap userId appKey operation referenceId w :
  within_cap w → within_cap (deductCredits userId appKey operation referenceId w).2.
Proof.
  intros Hw. unfold deductCredits. apply bind_within_cap.
  { intros e w' H. pose proof (getCreditCost_world appKey operation w) as E.
    rewrite H in E. simpl in E. by subst. }
  intros c w' H. pose proof (getCreditCost_world appKey operation w) as E.
  rewrite H in E. simpl in E. subst w'. clear H.
  apply bind_within_cap.
  { intros e w' H. pose proof (getBalance_world userId w) as E.
    rewrite H in E. simpl in E. by subst. }
  intros b w' H. destruct (getBalance_returned _ _ _ _ H) as (-> & _ & Hb). clear H.
  destruct (total b <? c); [done|].
  rewrite run_bind. cbn [gets]. rewrite run_bind. unfold update_user_credits at 1, modify.
  match goal with |- within_cap (?k ?a ?w1).2 =>
    apply (within_cap_accounts w1); [assert (keeps_accounts (k a)) as Hk by keeps; apply Hk|]
  end.
  apply within_cap_alter; [done|]. intros d Hd Hle. simpl.
  destruct (Hb d Hd) as (-> & _). lia.
Qed.

(** After the account update, the rest of an operation only appends to the
    log. *)
Ltac after_update :=
  rewrite run_bind; unfold update_user_credits at 1, modify;
  match goal with |- within_cap (?k ?a ?w1).2 =>
    apply (within_cap_accounts w1); [assert (keeps_accounts (k a)) as Hk by keeps; apply Hk|]
  end.

Ltac get_balance b Hb :=
  let H := fresh "H" in
  let E := fresh "E" in
  apply bind_within_cap;
  [ intros ? ? H;
    match type of H with
    | getBalance ?u ?w0 = _ => pose proof (getBalance_world u w0) as E; rewrite H in E
    end; simpl in E; by subst
  | intros b ? H; destruct (getBalance_returned _ _ _ _ H) as (-> & _ & Hb); clear H ].

Lemma allocateSubscriptionCredits_within_cap userId amount appKey referenceId w :
  within_cap w → within_cap (allocateSubscriptionCredits userId amount appKey referenceId w).2.
Proof.
  intros Hw. unfold allocateSubscriptionCredits.
  destruct (ensureUserCreditsRow_within_cap userId w Hw) as (w1 & He & Hw1).
  rewrite (bind_returned _ _ _ _ _ He). get_balance b Hb.
  destruct (_ =? 0); [done|].
  rewrite run_bind. cbn [gets]. after_update.
  apply within_cap_alter; [done|]. intros d Hd Hle. simpl.
  destruct (Hb d Hd) as (-> & _ & _ & ->). lia.
Qed.

Lemma allocateTopUpCredits_within_cap userId amount packName referenceId w :
  within_cap w → within_cap (allocateTopUpCredits userId amount packName referenceId w).2.
Proof.
  intros Hw. unfold allocateTopUpCredits.
  destruct (ensureUserCreditsRow_within_cap userId w Hw) as (w1 & He & Hw1).
  rewrite (bind_returned _ _ _ _ _ He). get_balance b Hb.
  rewrite run_bind. cbn [gets]. after_update.
  apply within_cap_alter; [done|]. by intros d Hd Hle.
Qed.

Lemma allocateRetentionBonus_within_cap userId amount w :
  within_cap w → within_cap (allocateRetentionBonus userId amount w).2.
Proof.
  intros Hw. unfold allocateRetentionBonus.
  destruct (ensureUserCreditsRow_within_cap userId w Hw) as (w1 & He & Hw1).
  rewrite (bind_returned _ _ _ _ _ He). get_balance b Hb.
  rewrite run_bind. cbn [gets]. after_update.
  apply within_cap_alter; [done|]. by intros d Hd Hle.
Qed.

Lemma allocateTrialCredits_within_cap userId amount appKey trialEndsAt referenceId w :
  within_cap w →
  within_cap (allocateTrialCredits userId amount appKey trialEndsAt referenceId w).2.
Proof.
  intros Hw. unfold allocateTrialCredits.
  destruct (ensureUserCreditsRow_within_cap userId w Hw) as (w1 & He & Hw1).
  rewrite (bind_returned _ _ _ _ _ He). get_balance b Hb.
  rewrite run_bind. cbn [gets]. after_update.
  apply within_cap_alter; [done|]. by intros d Hd Hle.
Qed.

Lemma expireTrialCredits_within_cap userId appKey reason w :
  within_cap w → within_cap (expireTrialCredits userId appKey reason w).2.
Proof.
  intros Hw. unfold expireTrialCredits. rewrite run_bind.
  unfold select_maybeSingle at 1, gets at 1. cbn beta iota.
  destruct (_ =? 0); [done|].
  rewrite run_bind. cbn [gets]. after_update.
  apply within_cap_alter; [done|]. by intros d Hd Hle.
Qed.

Lemma mergeTrialCredits_within_cap userId appKey w :
  within_cap w → within_cap (mergeTrialCredits userId appKey w).2.
Proof.
  intros Hw. unfold mergeTrialCredits. rewrite run_bind.
  unfold select_maybeSingle at 1, gets at 1. cbn beta iota.
  destruct (read_error w "user_credits"); [done|].
  destruct (_ =? 0); [done|].
  rewrite run_bind. cbn [gets]. after_update.
  apply within_cap_alter; [done|]. intros d Hd Hle. simpl.
  unfold user_credits_rows. rewrite Hd. simpl. lia.
Qed.

Section Invariant.

Variable findSubscriptionByPriceId : string → option SubscriptionPlan.
Variable findSubscriptionPlan : string → option string → option SubscriptionPlan.

Lemma recalculateSubscriptionCap_within_cap userId w :
  within_cap w →
  covers_balance findSubscriptionByPriceId findSubscriptionPlan
    (RecalculateSubscriptionCap userId) w →
  within_cap (recalculateSubscriptionCap findSubscriptionByPriceId findSubscriptionPlan userId w).2.
Proof.
  intros Hw Hcov. simpl in Hcov. rewrite recalculateSubscriptionCap_run in Hcov |- *.
  destruct (read_error w "app_subscriptions"); [done|]. simpl in *.
  apply within_cap_alter; [done|]. intros d Hd _. simpl. by apply Hcov.
Qed.

Lemma perform_within_cap op w :
  within_cap w →
  covers_balance findSubscriptionByPriceId findSubscriptionPlan op w →
  within_cap (perform findSubscriptionByPriceId findSubscriptionPlan op w).
Proof.
  intros Hw Hcov. destruct op; simpl.
  - by rewrite getBalance_world.
  - by apply deductCredits_within_cap.
  - by apply allocateSubscriptionCredits_within_cap.
  - by apply allocateTopUpCredits_within_cap.
  - by apply allocateRetentionBonus_within_cap.
  - by apply allocateTrialCredits_within_cap.
  - by apply expireTrialCredits_within_cap.
  - by apply mergeTrialCredits_within_cap.
  - by apply recalculateSubscriptionCap_within_cap.
Qed.

Lemma happen_within_cap e w : within_cap w → within_cap (happen e w).
Proof. intros Hw. by destruct e. Qed.

Lemma fresh_within_cap w : fresh w → within_cap w.
Proof. intros [Hu _] u d. by rewrite Hu, lookup_empty. Qed.

(** C1, as the code has it.  In every store reachable from a fresh ledger
    by engine operations in which each cap recalculation returned a cap no
    smaller than the subscription balance of the account it wrote to,
    [subscriptionBalance ≤ subscriptionCap] holds for every account; and in
    every store whatsoever the total [getBalance] reports is
    [subscriptionBalance + topupBalance + effectiveTrialBalance] of the
    stored row.  [recalculateSubscriptionCap] itself writes the cap it
    computed from the subscription records whatever the balance is. *)
Theorem ledger_invariant w :
  reachable_covered findSubscriptionByPriceId findSubscriptionPlan w →
  within_cap w
  ∧ (∀ userId b w',
       getBalance userId w = (Returned b, w') →
       total b = subscriptionBalance b + topupBalance b + trialBalance b
       ∧ ∀ d, user_credits w !! userId = Some d →
              total b = subscription_balance d + topup_balance d
                        + effectiveTrialBalance (clock w) d)
  ∧ (∀ userId d,
       readable "app_subscriptions" w →
       user_credits w !! userId = Some d →
       ∃ cap w',
         recalculateSubscriptionCap findSubscriptionByPriceId findSubscriptionPlan userId w
         = (Returned cap, w')
         ∧ cap = expected_cap findSubscriptionByPriceId findSubscriptionPlan
                   (qualifying_subscriptions userId w)
         ∧ user_credits w' !! userId
           = Some (set_updated_at (Some (clock w)) (set_subscription_cap cap d))).
Proof.
  intros Hreach. split; [|split].
  - induction Hreach as [w Hf|op w _ IH Hcov|e w _ IH].
    + by apply fresh_within_cap.
    + by apply perform_within_cap.
    + by apply happen_within_cap.
  - intros userId b w' Hb. destruct (getBalance_returned _ _ _ _ Hb) as (_ & Ht & Hrow).
    split; [done|]. intros d Hd. destruct (Hrow d Hd) as (<- & <- & <- & _). done.
  - intros userId d Hr Hd. rewrite recalculateSubscriptionCap_run, Hr.
    eexists _, _. split; [reflexivity|]. split; [reflexivity|].
    simpl. by rewrite lookup_alter, decide_True, Hd.
Qed.

End Invariant.

Lemma ledger_invariant_witness :
  within_cap Samples.funded
  ∧ subscription_balance <$> user_credits Samples.funded !! "u" = Some 1200
  ∧ subscription_cap <$> user_credits Samples.funded !! "u" = Some 1800.
Proof.
  assert (reachable_covered Samples.no_plan_by_price_id Samples.no_plan_by_app_key
            Samples.funded) as Hreach.
  { unfold Samples.funded, Samples.step.
    do 3 (apply reachable_covered_perform; [|exact I]).
    apply reachable_covered_perform.
    - apply reachable_covered_perform; [|exact I].
      unfold Samples.two_apps. do 2 apply reachable_covered_happen.
      apply reachable_covered_fresh. by split.
    - intros d cap Hd Hcap. vm_compute in Hd, Hcap.
      injection Hd as <-. injection Hcap as <-. vm_compute. discriminate. }
  split; [|split; vm_compute; reflexivity].
  exact (proj1 (ledger_invariant _ _ _ Hreach)).
Defined.

(** C1, as the spec has it, fails: after the user's second app is canceled,
    [recalculateSubscriptionCap] writes the cap of the one app left, 900,
    under a subscription balance of 1200 that was within the cap of 1800 a
    moment before. *)
Lemma ledger_invariant_counterexample :
  reachable Samples.no_plan_by_price_id Samples.no_plan_by_app_key Samples.labs_canceled
  ∧ (∃ d, user_credits Samples.labs_canceled !! "u" = Some d
          ∧ subscription_balance d = 1200 ∧ subscription_cap d = 1800)
  ∧ reachable Samples.no_plan_by_price_id Samples.no_plan_by_app_key Samples.one_app_left
  ∧ Samples.one_app_left
    = (recalculateSubscriptionCap Samples.no_plan_by_price_id Samples.no_plan_by_app_key "u"
         Samples.labs_canceled).2
  ∧ (∃ d, user_credits Samples.one_app_left !! "u" = Some d
          ∧ subscription_balance d = 1200 ∧ subscription_cap d = 900)
  ∧ ¬ within_cap Samples.one_app_left
  ∧ ¬ (∀ w, reachable Samples.no_plan_by_price_id Samples.no_plan_by_app_key w → within_cap w).
Proof.
  assert (reachable Samples.no_plan_by_price_id Samples.no_plan_by_app_key
            Samples.labs_canceled) as Hreach.
  { unfold Samples.labs_canceled, Samples.funded, Samples.two_apps, Samples.step.
    apply reachable_happen. do 5 apply reachable_perform. do 2 apply reachable_happen.
    apply reachable_fresh. by split. }
  assert (reachable Samples.no_plan_by_price_id Samples.no_plan_by_app_key
            Samples.one_app_left) as Hreach'.
  { unfold Samples.one_app_left, Samples.step. by apply reachable_perform. }
  assert (user_credits Samples.one_app_left !! "u"
          = Some {| subscription_balance := 1200; topup_balance := 0; trial_balance := Some 0;
                    trial_expires_at := None; subscription_cap := 900;
                    lifetime_earned := 1200; lifetime_spent := 0;
                    last_allocated := Some 1000; updated_at := Some 1000 |}) as Hrow
    by (vm_compute; reflexivity).
  assert (¬ within_cap Samples.one_app_left) as Hnot.
  { intros H. specialize (H "u" _ Hrow). simpl in H. lia. }
  split; [exact Hreach|]. split.
  { eexists. split; [vm_compute; reflexivity|]. split; reflexivity. }
  split; [exact Hreach'|]. split; [reflexivity|]. split.
  { eexists. split; [exact Hrow|]. split; reflexivity. }
  split; [exact Hnot|]. intros H. apply Hnot, H, Hreach'.
Qed.

(** *** Webhook synchronizer *)

Lemma isEventProcessed_run eventId w :
  isEventProcessed eventId w
  = (Returned (bool_decide (readable "stripe_events" w ∧ is_Some (stripe_events w !! eventId))), w).
Proof.
  assert (∀ b1 b2 : bool, b1 = b2 → (Returned b1, w) = (Returned b2, w)) as Hpair
    by (by intros ? ? ->).
  unfold isEventProcessed, mbind, task_bind, select_maybeSingle, gets, mret, task_ret.
  apply Hpair, bool_decide_ext. unfold readable, stripe_events_rows.
  destruct (read_error w "stripe_events") as [msg|]; simpl.
  - split; [intros [? [=]]|intros [[=] _]].
  - destruct (stripe_events w !! eventId) as [row|]; simpl.
    + split; eauto.
    + split; [intros [? [=]]|intros [_ [? [=]]]].
Qed.

(** [isEventProcessed] drops the query error: a lookup that fails reads as
    not processed, whatever the table holds. *)
Lemma isEventProcessed_unreadable eventId w msg :
  read_error w "stripe_events" = Some msg →
  isEventProcessed eventId w = (Returned false, w).
Proof.
  intros Hr. rewrite isEventProcessed_run. rewrite bool_decide_eq_false_2; [done|].
  unfold readable. rewrite Hr. by intros [[=] _].
Qed.

Lemma markEventProcessed_run eventId eventType payload w :
  let w' := (markEventProcessed eventId eventType payload w).2 in
  markEventProcessed eventId eventType payload w = (Returned tt, w')
  ∧ is_Some (stripe_events w' !! eventId)
  ∧ (stripe_events w !! eventId = None →
     stripe_events w' !! eventId = Some {| ev_type := eventType; ev_payload := payload |})
  ∧ (∀ other, other ≠ eventId → stripe_events w' !! other = stripe_events w !! other)
  ∧ user_credits w' = user_credits w
  ∧ credit_transactions w' = credit_transactions w
  ∧ app_subscriptions w' = app_subscriptions w
  ∧ read_error w' = read_error w.
Proof.
  unfold markEventProcessed, modify. simpl.
  destruct (stripe_events w !! eventId) as [row|] eqn:E; simpl.
  - rewrite E. repeat split; eauto. done.
  - rewrite lookup_insert_eq. repeat split; eauto.
    intros other Hne. by rewrite lookup_insert_ne.
Qed.

Section WebhookSynchronizer.

Context {Payload : Type}.
Variable constructWebhookEvent : string → string → Outcome (Webhook.StripeEvent Payload).
Variable handlers : Webhook.EventHandlers Payload.

Lemma handler_run event stripeEvent w :
  Webhook.delivers constructWebhookEvent event stripeEvent →
  Webhook.handler constructWebhookEvent handlers event w
  = if bool_decide (readable "stripe_events" w
                    ∧ is_Some (stripe_events w !! Webhook.id stripeEvent))
    then (Returned (Webhook.jsonResponse 200 (Webhook.Received true)), w)
    else match Webhook.dispatch handlers stripeEvent w with
         | (Returned _, w') =>
             (Returned (Webhook.jsonResponse 200 (Webhook.Received false)),
              (markEventProcessed (Webhook.id stripeEvent) (Webhook.type stripeEvent) None w').2)
         | (Thrown _, w') =>
             (Returned (Webhook.jsonResponse 500 (Webhook.ErrorBody "Webhook handler error")), w')
         end.
Proof.
  intros (Hpost & Hsig & Hbody & Hev). unfold Webhook.handler.
  rewrite decide_False by (by intros H; apply H).
  rewrite Hsig, Hbody, Hev. cbn [orb].
  rewrite (bind_returned _ _ _ _ _ (isEventProcessed_run _ w)).
  destruct (bool_decide _); [reflexivity|].
  unfold try_catch. rewrite run_bind.
  destruct (Webhook.dispatch handlers stripeEvent w) as [[[]|e] w']; reflexivity.
Qed.

(** The handler while the lookup in [stripe_events] is answered.  For a
    delivery that verifies to an event: when a record for the event id
    exists and the store answers the lookup, the call answers 200 with
    [duplicate: true] and leaves the store untouched, no handler having
    run.  When no record exists, the event is dispatched to its handler: if
    the handler throws, the call answers 500 and the store is exactly what
    the handler left, with no record written; if it returns, the call
    answers 200 and the store is what the handler left plus the one record
    for this event id, written after the handler's effects.  Hence once a
    delivery has been answered as processed, every sequential replay of it
    during which the lookup is answered is answered as a duplicate and
    changes nothing. *)
Lemma webhook_processes_once event stripeEvent w :
  Webhook.delivers constructWebhookEvent event stripeEvent →
  let eventId := Webhook.id stripeEvent in
  let deliver := Webhook.handler constructWebhookEvent handlers event in
  let duplicate := Returned (Webhook.jsonResponse 200 (Webhook.Received true)) in
  let processed := Returned (Webhook.jsonResponse 200 (Webhook.Received false)) in
  let failure :=
    Returned (Webhook.jsonResponse 500 (Webhook.ErrorBody "Webhook handler error")) in
  (readable "stripe_events" w → is_Some (stripe_events w !! eventId) →
     deliver w = (duplicate, w))
  ∧ (stripe_events w !! eventId = None →
     ∀ e w', Webhook.dispatch handlers stripeEvent w = (Thrown e, w') →
       deliver w = (failure, w'))
  ∧ (stripe_events w !! eventId = None →
     ∀ w', Webhook.dispatch handlers stripeEvent w = (Returned tt, w') →
       ∃ w1, deliver w = (processed, w1)
             ∧ w1 = (markEventProcessed eventId (Webhook.type stripeEvent) None w').2
             ∧ is_Some (stripe_events w1 !! eventId)
             ∧ (∀ other, other ≠ eventId → stripe_events w1 !! other = stripe_events w' !! other)
             ∧ user_credits w1 = user_credits w'
             ∧ credit_transactions w1 = credit_transactions w'
             ∧ app_subscriptions w1 = app_subscriptions w')
  ∧ (∀ w1, deliver w = (processed, w1) → readable "stripe_events" w1 →
       deliver w1 = (duplicate, w1)
       ∧ ∀ n, Nat.iter n (fun w => (deliver w).2) w1 = w1).
Proof.
  intros Hd eventId deliver duplicate processed failure.
  assert (Hrun := handler_run event stripeEvent). fold eventId deliver in Hrun.
  split; [|split; [|split]].
  - intros Hr Hsome. rewrite (Hrun w Hd). by rewrite bool_decide_eq_true_2.
  - intros Hnone e w' Hh. rewrite (Hrun w Hd), Hh.
    rewrite bool_decide_eq_false_2; [done|]. intros [_ Hs]. rewrite Hnone in Hs. by destruct Hs.
  - intros Hnone w' Hh. rewrite (Hrun w Hd), Hh.
    rewrite bool_decide_eq_false_2; [|intros [_ Hs]; rewrite Hnone in Hs; by destruct Hs].
    eexists. split; [reflexivity|]. split; [reflexivity|].
    destruct (markEventProcessed_run eventId (Webhook.type stripeEvent) None w')
      as (_ & Hs & _ & Ho & Hu & Hl & Ha & _).
    done.
  - intros w1 Hfirst Hr1. rewrite (Hrun w Hd) in Hfirst.
    assert (is_Some (stripe_events w1 !! eventId)) as Hs.
    { destruct (bool_decide _); [discriminate|].
      destruct (Webhook.dispatch handlers stripeEvent w) as [[[]|e] w']; [|discriminate].
      injection Hfirst as <-.
      by destruct (markEventProcessed_run eventId (Webhook.type stripeEvent) None w')
        as (_ & Hs & _). }
    assert (deliver w1 = (duplicate, w1)) as Hdup.
    { rewrite (Hrun w1 Hd). by rewrite bool_decide_eq_true_2. }
    split; [exact Hdup|]. intros n. induction n as [|n IH]; [done|].
    simpl. by rewrite IH, Hdup.
Qed.

(** C6, where the code breaks it.  [isEventProcessed] reads only [data]
    of the lookup and drops its [error]: when the lookup in
    [stripe_events] fails it answers [false] whatever the table holds,
    though it is documented to return true for an event already handled.
    The handler then dispatches the event again, a record for its id
    existing or not: if the handler throws the call answers 500, and if it
    returns the call answers 200 [received] as for a first delivery; with
    the record already there the store is left exactly as the handler left
    it, that is with the handler's side effects applied once more. *)
Theorem webhook_reprocesses_on_failed_lookup event stripeEvent w msg :
  Webhook.delivers constructWebhookEvent event stripeEvent →
  read_error w "stripe_events" = Some msg →
  let eventId := Webhook.id stripeEvent in
  let deliver := Webhook.handler constructWebhookEvent handlers event in
  let processed := Returned (Webhook.jsonResponse 200 (Webhook.Received false)) in
  let failure :=
    Returned (Webhook.jsonResponse 500 (Webhook.ErrorBody "Webhook handler error")) in
  isEventProcessed eventId w = (Returned false, w)
  ∧ (∀ e w', Webhook.dispatch handlers stripeEvent w = (Thrown e, w') →
       deliver w = (failure, w'))
  ∧ (∀ w', Webhook.dispatch handlers stripeEvent w = (Returned tt, w') →
       deliver w
       = (processed, (markEventProcessed eventId (Webhook.type stripeEvent) None w').2))
  ∧ (∀ w', Webhook.dispatch handlers stripeEvent w = (Returned tt, w') →
       is_Some (stripe_events w' !! eventId) →
       deliver w = (processed, w')).
Proof.
  intros Hd Herr eventId deliver processed failure.
  assert (Hrun := handler_run event stripeEvent w Hd). fold eventId deliver in Hrun.
  rewrite bool_decide_eq_false_2 in Hrun
    by (unfold readable; rewrite Herr; by intros [[=] _]).
  split; [by apply (isEventProcessed_unreadable _ _ msg)|].
  split; [|split].
  - intros e w' Hh. by rewrite Hrun, Hh.
  - intros w' Hh. by rewrite Hrun, Hh.
  - intros w' Hh [row Hrow]. rewrite Hrun, Hh.
    unfold markEventProcessed, modify. simpl. by rewrite Hrow.
Qed.

End WebhookSynchronizer.

Lemma webhook_reprocesses_on_failed_lookup_witness :
  is_Some (stripe_events Cases.delivered_once !! "evt_1")
  ∧ topup_balance <$> user_credits Cases.delivered_once !! "u" = Some 500
  ∧ length (credit_transactions Cases.delivered_once) = 1%nat
  ∧ ∃ w2,
      Webhook.handler Samples.verify Samples.topup_handlers Samples.delivery
        (Cases.stripe_events_down Cases.delivered_once)
      = (Returned (Webhook.jsonResponse 200 (Webhook.Received false)), w2)
      ∧ is_Some (stripe_events w2 !! "evt_1")
      ∧ topup_balance <$> user_credits w2 !! "u" = Some 1000
      ∧ (fun r => (tx_type r, tx_amount r, tx_reference_id r)) <$> credit_transactions w2
        = [ ("topup_purchase", 500, Some "cs_1"); ("topup_purchase", 500, Some "cs_1") ].
Proof.
  assert (Webhook.delivers Samples.verify Samples.delivery Samples.topup_event) as Hd
    by (repeat split).
  split; [by (vm_compute; eexists)|]. split; [vm_compute; reflexivity|].
  split; [vm_compute; reflexivity|].
  destruct (webhook_reprocesses_on_failed_lookup Samples.verify Samples.topup_handlers
              Samples.delivery Samples.topup_event
              (Cases.stripe_events_down Cases.delivered_once) "connection refused" Hd eq_refl)
    as (_ & _ & _ & Hagain).
  exists (Webhook.dispatch Samples.topup_handlers Samples.topup_event
            (Cases.stripe_events_down Cases.delivered_once)).2.
  split.
  - apply Hagain; [vm_compute; reflexivity|by (vm_compute; eexists)].
  - split; [by (vm_compute; eexists)|]. split; vm_compute; reflexivity.
Defined.

Lemma webhook_processes_once_witness :
  ∃ w1,
    Webhook.handler Samples.verify Samples.topup_handlers Samples.delivery Samples.empty_store
    = (Returned (Webhook.jsonResponse 200 (Webhook.Received false)), w1)
    ∧ topup_balance <$> user_credits w1 !! "u" = Some 500
    ∧ length (credit_transactions w1) = 1%nat
    ∧ is_Some (stripe_events w1 !! "evt_1")
    ∧ Webhook.handler Samples.verify Samples.topup_handlers Samples.delivery w1
      = (Returned (Webhook.jsonResponse 200 (Webhook.Received true)), w1)
    ∧ Webhook.handler Samples.verify Samples.topup_handlers Samples.delivery
        (Samples.user_credits_down Samples.empty_store)
      = (Returned (Webhook.jsonResponse 500 (Webhook.ErrorBody "Webhook handler error")),
         Samples.user_credits_down
           (with_user_credits (insert "u" default_row) Samples.empty_store)).
Proof.
  assert (Webhook.delivers Samples.verify Samples.delivery Samples.topup_event) as Hd
    by (repeat split).
  destruct (webhook_processes_once Samples.verify Samples.topup_handlers Samples.delivery
              Samples.topup_event Samples.empty_store Hd) as (_ & _ & Hok & Hreplay).
  destruct (Hok eq_refl _ eq_refl) as (w1 & Hrun & Hw1 & Hs & _).
  exists w1. split; [exact Hrun|].
  split; [rewrite Hw1; vm_compute; reflexivity|].
  split; [rewrite Hw1; vm_compute; reflexivity|].
  split; [exact Hs|].
  split; [apply (Hreplay w1 Hrun); rewrite Hw1; reflexivity|].
  destruct (webhook_processes_once Samples.verify Samples.topup_handlers Samples.delivery
              Samples.topup_event (Samples.user_credits_down Samples.empty_store) Hd)
    as (_ & Hfail & _).
  apply (Hfail eq_refl (HttpError 500 "Failed to fetch credit balance"
                          (ErrorMessage "connection refused"))).
  reflexivity.
Defined.

(** ** Further properties of the credit engine *)

Import Bookkeeping.

(** *** Credit checks and failed deductions *)

Lemma getCreditCost_outcome appKey operation w :
  ∃ o, getCreditCost appKey operation w = (o, w).
Proof.
  pose proof (getCreditCost_world appKey operation w) as H.
  destruct (getCreditCost appKey operation w) as [o w']. simpl in H. subst. by exists o.
Qed.

Lemma getBalance_outcome userId w : ∃ o, getBalance userId w = (o, w).
Proof.
  pose proof (getBalance_world userId w) as H.
  destruct (getBalance userId w) as [o w']. simpl in H. subst. by exists o.
Qed.

(** Once the balance covers the cost, nothing in [deductCredits] throws. *)
Lemma deductCredits_returns userId appKey operation referenceId w c b :
  getCreditCost appKey operation w = (Returned c, w) →
  getBalance userId w = (Returned b, w) →
  c ≤ total b →
  ∃ res w',
    deductCredits userId appKey operation referenceId w = (Returned res, w')
    ∧ deduct_newBalance res = total b - c.
Proof.
  intros Hc Hb Hle. unfold deductCredits.
  rewrite (bind_returned _ _ _ _ _ Hc), (bind_returned _ _ _ _ _ Hb).
  rewrite (proj2 (Z.ltb_ge (total b) c)) by exact Hle.
  unfold gets, update_user_credits, modify, insert_credit_transaction, mbind, task_bind,
    mret, task_ret.
  destruct (0 <? Z.min c (trialBalance b)),
           (0 <? Z.min (c - Z.min c (trialBalance b)) (topupBalance b)),
           (0 <? c - Z.min c (trialBalance b)
                 - Z.min (c - Z.min c (trialBalance b)) (topupBalance b));
    eexists _, _; (split; [reflexivity|reflexivity]).
Qed.

(** X1. A deduction that fails, for whatever reason (unknown operation,
    failed read, insufficient credits), leaves the store exactly as it was:
    no pool is decremented and no transaction is written. *)
Theorem deductCredits_fails_clean userId appKey operation referenceId w e w' :
  deductCredits userId appKey operation referenceId w = (Thrown e, w') → w' = w.
Proof.
  intros H. destruct (getCreditCost_outcome appKey operation w) as [[c|e1] Hc].
  - destruct (getBalance_outcome userId w) as [[b|e2] Hb].
    + destruct (Z.ltb_spec (total b) c) as [Hlt|Hle].
      * unfold deductCredits in H.
        rewrite (bind_returned _ _ _ _ _ Hc), (bind_returned _ _ _ _ _ Hb) in H.
        rewrite (proj2 (Z.ltb_lt _ _) Hlt) in H. by injection H.
      * destruct (deductCredits_returns userId appKey operation referenceId w c b Hc Hb Hle)
          as (res & w'' & Hrun & _).
        rewrite Hrun in H. discriminate.
    + unfold deductCredits in H. rewrite (bind_returned _ _ _ _ _ Hc) in H.
      rewrite (bind_thrown _ _ _ _ _ Hb) in H. by injection H.
  - unfold deductCredits in H. rewrite (bind_thrown _ _ _ _ _ Hc) in H. by injection H.
Qed.

Lemma deductCredits_fails_clean_witness :
  (deductCredits "u" "keywords" "export" None
     (Samples.store (Samples.account 2 1 None None 900) 10)).2
  = Samples.store (Samples.account 2 1 None None 900) 10.
Proof.
  apply (deductCredits_fails_clean "u" "keywords" "export" None
           (Samples.store (Samples.account 2 1 None None 900) 10)
           (HttpError 404 "Unknown operation: keywords/export" NoDetails)).
  reflexivity.
Defined.

(** X2. [checkCredits] predicts [deductCredits]: it never writes; when it
    answers [sufficient] the deduction of the same operation on the same
    store goes through and leaves [balance - cost]; when it answers not
    sufficient the deduction is refused with the 402 error carrying the
    [cost] and [balance] that [checkCredits] reported. *)
Theorem checkCredits_predicts_deduction userId appKey operation referenceId w r w' :
  checkCredits userId appKey operation w = (Returned r, w') →
  w' = w
  ∧ (sufficient r = true →
       ∃ res w'', deductCredits userId appKey operation referenceId w = (Returned res, w'')
                  ∧ deduct_newBalance res = balance r - cost r)
  ∧ (sufficient r = false →
       deductCredits userId appKey operation referenceId w
       = (Thrown (HttpError 402 "Insufficient credits" (Shortfall (cost r) (balance r))), w)).
Proof.
  intros H. unfold checkCredits in H.
  destruct (getBalance_outcome userId w) as [[b|e2] Hb];
    [|rewrite (bind_thrown _ _ _ _ _ Hb) in H; discriminate].
  rewrite (bind_returned _ _ _ _ _ Hb) in H.
  destruct (getCreditCost_outcome appKey operation w) as [[c|e1] Hc];
    [|rewrite (bind_thrown _ _ _ _ _ Hc) in H; discriminate].
  rewrite (bind_returned _ _ _ _ _ Hc) in H. injection H as <- <-.
  split; [done|]. simpl. split.
  - intros Hs. apply Z.geb_le in Hs.
    by apply (deductCredits_returns userId appKey operation referenceId w c b).
  - intros Hs. unfold deductCredits.
    rewrite (bind_returned _ _ _ _ _ Hc), (bind_returned _ _ _ _ _ Hb).
    assert ((total b <? c) = true) as ->; [|done].
    apply Z.ltb_lt. destruct (Z.geb_spec (total b) c); [discriminate|lia].
Qed.

Lemma checkCredits_predicts_deduction_witness :
  ∃ r, checkCredits "u" "keywords" "search"
         (Samples.store (Samples.account 100 10 (Some 5) None 900) 12)
       = (Returned r, Samples.store (Samples.account 100 10 (Some 5) None 900) 12)
       ∧ sufficient r = true
       ∧ ∃ res w'', deductCredits "u" "keywords" "search" None
                      (Samples.store (Samples.account 100 10 (Some 5) None 900) 12)
                    = (Returned res, w'')
                    ∧ deduct_newBalance res = 103.
Proof.
  eexists. split; [reflexivity|]. split; [reflexivity|].
  destruct (checkCredits_predicts_deduction "u" "keywords" "search" None
              (Samples.store (Samples.account 100 10 (Some 5) None 900) 12) _ _ eq_refl)
    as (_ & Hok & _).
  exact (Hok eq_refl).
Defined.

(** *** Uncapped allocations *)

(** The effective trial balance depends on the two trial columns only. *)
Lemma effectiveTrialBalance_ext now d d' :
  trial_balance d' = trial_balance d → trial_expires_at d' = trial_expires_at d →
  effectiveTrialBalance now d' = effectiveTrialBalance now d.
Proof. intros Hb He. rewrite <- !effectiveTrialBalance_code. by rewrite Hb, He. Qed.

(** The account row an uncapped grant of [amount] to the top-up pool
    leaves. *)
Lemma allocateTopUpCredits_run userId amount packName referenceId w :
  readable "user_credits" w →
  let d := default default_row (user_credits w !! userId) in
  let total := subscription_balance d + topup_balance d + effectiveTrialBalance (clock w) d in
  allocateTopUpCredits userId amount packName referenceId w
  = (Returned {| newBalance := total + amount; allocated := amount |},
     with_credit_transactions (fun log => log ++ [
         {| tx_id := length (credit_transactions w);
            tx_user_id := userId;
            tx_amount := amount;
            tx_balance_after := total + amount;
            tx_pool := topup;
            tx_type := "topup_purchase";
            tx_description := Some (packName +:+ " top-up");
            tx_app_key := None;
            tx_reference_id := referenceId;
            tx_created_at := clock w |} ])
       (with_user_credits (insert userId
          (set_updated_at (Some (clock w))
             (set_lifetime_earned (lifetime_earned d + amount)
                (set_topup_balance (topup_balance d + amount) d)))) w)).
Proof.
  intros Hr d total.
  destruct (ensureUserCreditsRow_row userId w Hr) as (Hr1 & Hu1 & Hm1 & Hl1 & Hc1).
  unfold allocateTopUpCredits.
  rewrite (bind_returned _ _ _ tt _ (ensureUserCreditsRow_returns _ _ Hr)).
  rewrite (bind_returned _ _ _ _ _ (getBalance_row _ _ _ Hr1 Hu1)).
  cbn [Credits.total Credits.topupBalance Credits.lifetimeEarned].
  rewrite Hc1. fold d total.
  unfold gets, update_user_credits, modify, insert_credit_transaction, mbind, task_bind,
    mret, task_ret, with_user_credits, with_credit_transactions. simpl.
  rewrite Hl1, Hc1, (alter_present _ _ _ _ Hu1), Hm1, insert_insert_eq.
  rewrite (ensureUserCreditsRow_run _ _ Hr).
  by destruct (user_credits w !! userId).
Qed.

Lemma allocateRetentionBonus_run userId amount w :
  readable "user_credits" w →
  let d := default default_row (user_credits w !! userId) in
  let total := subscription_balance d + topup_balance d + effectiveTrialBalance (clock w) d in
  allocateRetentionBonus userId amount w
  = (Returned {| newBalance := total + amount; allocated := amount |},
     with_credit_transactions (fun log => log ++ [
         {| tx_id := length (credit_transactions w);
            tx_user_id := userId;
            tx_amount := amount;
            tx_balance_after := total + amount;
            tx_pool := topup;
            tx_type := "retention_bonus";
            tx_description := Some "Retention offer bonus credits";
            tx_app_key := None;
            tx_reference_id := None;
            tx_created_at := clock w |} ])
       (with_user_credits (insert userId
          (set_updated_at (Some (clock w))
             (set_lifetime_earned (lifetime_earned d + amount)
                (set_topup_balance (topup_balance d + amount) d)))) w)).
Proof.
  intros Hr d total.
  destruct (ensureUserCreditsRow_row userId w Hr) as (Hr1 & Hu1 & Hm1 & Hl1 & Hc1).
  unfold allocateRetentionBonus.
  rewrite (bind_returned _ _ _ tt _ (ensureUserCreditsRow_returns _ _ Hr)).
  rewrite (bind_returned _ _ _ _ _ (getBalance_row _ _ _ Hr1 Hu1)).
  cbn [Credits.total Credits.topupBalance Credits.lifetimeEarned].
  rewrite Hc1. fold d total.
  unfold gets, update_user_credits, modify, insert_credit_transaction, mbind, task_bind,
    mret, task_ret, with_user_credits, with_credit_transactions. simpl.
  rewrite Hl1, Hc1, (alter_present _ _ _ _ Hu1), Hm1, insert_insert_eq.
  rewrite (ensureUserCreditsRow_run _ _ Hr).
  by destruct (user_credits w !! userId).
Qed.

Lemma allocateTrialCredits_run userId amount appKey trialEndsAt referenceId w :
  readable "user_credits" w →
  let d := default default_row (user_credits w !! userId) in
  let total := subscription_balance d + topup_balance d + effectiveTrialBalance (clock w) d in
  allocateTrialCredits userId amount appKey trialEndsAt referenceId w
  = (Returned {| newBalance := total + amount; allocated := amount |},
     with_credit_transactions (fun log => log ++ [
         {| tx_id := length (credit_transactions w);
            tx_user_id := userId;
            tx_amount := amount;
            tx_balance_after := total + amount;
            tx_pool := trial;
            tx_type := "trial_allocation";
            tx_description := Some ("Trial credits (" +:+ appKey +:+ ")");
            tx_app_key := Some appKey;
            tx_reference_id := referenceId;
            tx_created_at := clock w |} ])
       (with_user_credits (insert userId
          (set_updated_at (Some (clock w))
             (set_lifetime_earned (lifetime_earned d + amount)
                (set_trial_expires_at (Some trialEndsAt)
                   (set_trial_balance (Some amount) d))))) w)).
Proof.
  intros Hr d total.
  destruct (ensureUserCreditsRow_row userId w Hr) as (Hr1 & Hu1 & Hm1 & Hl1 & Hc1).
  unfold allocateTrialCredits.
  rewrite (bind_returned _ _ _ tt _ (ensureUserCreditsRow_returns _ _ Hr)).
  rewrite (bind_returned _ _ _ _ _ (getBalance_row _ _ _ Hr1 Hu1)).
  cbn [Credits.total Credits.lifetimeEarned].
  rewrite Hc1. fold d total.
  unfold gets, update_user_credits, modify, insert_credit_transaction, mbind, task_bind,
    mret, task_ret, with_user_credits, with_credit_transactions. simpl.
  rewrite Hl1, Hc1, (alter_present _ _ _ _ Hu1), Hm1, insert_insert_eq.
  rewrite (ensureUserCreditsRow_run _ _ Hr).
  by destruct (user_credits w !! userId).
Qed.

(** X3. [allocateTopUpCredits] grants the full amount whatever the balance
    and the cap: it returns [allocated = amount], adds [amount] to the
    top-up pool and to [lifetimeEarned], leaves the other pools and the cap
    alone, appends exactly one [topup_purchase] row, and the [newBalance] it
    returns is the total [getBalance] reports afterwards. *)
Theorem allocateTopUpCredits_uncapped userId amount packName referenceId w :
  readable "user_credits" w →
  let d := default default_row (user_credits w !! userId) in
  ∃ res w' b' row,
    allocateTopUpCredits userId amount packName referenceId w = (Returned res, w')
    ∧ allocated res = amount
    ∧ getBalance userId w' = (Returned b', w')
    ∧ newBalance res = total b'
    ∧ topupBalance b' = topup_balance d + amount
    ∧ subscriptionBalance b' = subscription_balance d
    ∧ trialBalance b' = effectiveTrialBalance (clock w) d
    ∧ cap b' = subscription_cap d
    ∧ lifetimeEarned b' = lifetime_earned d + amount
    ∧ lifetimeSpent b' = lifetime_spent d
    ∧ credit_transactions w' = credit_transactions w ++ [row]
    ∧ tx_type row = "topup_purchase" ∧ tx_pool row = topup ∧ tx_amount row = amount
    ∧ tx_balance_after row = total b' ∧ tx_user_id row = userId
    ∧ tx_reference_id row = referenceId.
Proof.
  intros Hr d. pose proof (allocateTopUpCredits_run userId amount packName referenceId w Hr) as Hrun.
  cbv zeta in Hrun. fold d in Hrun.
  eexists _, _, _, _. split; [exact Hrun|]. split; [reflexivity|]. split.
  { apply getBalance_row; [exact Hr|]. simpl. apply lookup_insert_eq. }
  simpl.
  repeat match goal with
         | |- context [effectiveTrialBalance ?n ?x] =>
             lazymatch x with
             | d => fail
             | _ => rewrite (effectiveTrialBalance_ext n d x) by reflexivity
             end
         end.
  repeat split; try reflexivity; simpl; lia.
Qed.

Lemma allocateTopUpCredits_uncapped_witness :
  ∃ res w',
    allocateTopUpCredits "u" 500 "Starter" (Some "cs_1")
      (Samples.store (Samples.account 900 10 None None 900) 12) = (Returned res, w')
    ∧ allocated res = 500 ∧ newBalance res = 1410.
Proof.
  destruct (allocateTopUpCredits_uncapped "u" 500 "Starter" (Some "cs_1")
              (Samples.store (Samples.account 900 10 None None 900) 12) eq_refl)
    as (res & w' & b' & row & Hrun & Hall & _ & _).
  exists res, w'. split; [exact Hrun|]. split; [exact Hall|].
  assert (Hrun' := Hrun). vm_compute in Hrun'. by injection Hrun' as <- <-.
Defined.

(** X4. [allocateRetentionBonus] does to the account what
    [allocateTopUpCredits] does for the same amount: same result, same
    account rows; the one row each appends differs in nothing but its type
    ([retention_bonus] against [topup_purchase]), description and
    reference id. *)
Theorem allocateRetentionBonus_as_top_up userId amount packName referenceId w :
  readable "user_credits" w →
  ∃ res bonus purchase w1 w2,
    allocateRetentionBonus userId amount w = (Returned res, w1)
    ∧ allocateTopUpCredits userId amount packName referenceId w = (Returned res, w2)
    ∧ user_credits w1 = user_credits w2
    ∧ credit_transactions w1 = credit_transactions w ++ [bonus]
    ∧ credit_transactions w2 = credit_transactions w ++ [purchase]
    ∧ tx_type bonus = "retention_bonus"
    ∧ tx_type purchase = "topup_purchase"
    ∧ tx_reference_id bonus = None
    ∧ entry_of bonus = entry_of purchase
    ∧ tx_id bonus = tx_id purchase
    ∧ tx_user_id bonus = tx_user_id purchase
    ∧ tx_app_key bonus = tx_app_key purchase.
Proof.
  intros Hr.
  pose proof (allocateTopUpCredits_run userId amount packName referenceId w Hr) as Htop.
  pose proof (allocateRetentionBonus_run userId amount w Hr) as Hbonus.
  cbv zeta in Htop, Hbonus.
  eexists _, _, _, _, _. split; [exact Hbonus|]. split; [exact Htop|].
  repeat split; reflexivity.
Qed.

Lemma allocateRetentionBonus_as_top_up_witness :
  ∃ res w1,
    allocateRetentionBonus "u" 50 (Samples.store (Samples.account 900 10 None None 900) 12)
    = (Returned res, w1)
    ∧ (allocateTopUpCredits "u" 50 "Starter" None
         (Samples.store (Samples.account 900 10 None None 900) 12)).1 = Returned res.
Proof.
  destruct (allocateRetentionBonus_as_top_up "u" 50 "Starter" None
              (Samples.store (Samples.account 900 10 None None 900) 12) eq_refl)
    as (res & bonus & purchase & w1 & w2 & Hb & Ht & _).
  exists res, w1. split; [exact Hb|]. by rewrite Ht.
Defined.

(** X5. [allocateTrialCredits] overwrites the trial pool: afterwards the
    stored trial balance is [amount] and the expiry is [trialEndsAt],
    whatever trial credits were left, while [lifetimeEarned] grows by
    [amount].  The [newBalance] it returns is the old total plus [amount]:
    when [trialEndsAt] has not passed, that is the total [getBalance] then
    reports plus the effective trial balance that was overwritten. *)
Theorem allocateTrialCredits_overwrites userId amount appKey trialEndsAt referenceId w :
  readable "user_credits" w →
  clock w ≤ trialEndsAt →
  let d := default default_row (user_credits w !! userId) in
  ∃ res w' d' b',
    allocateTrialCredits userId amount appKey trialEndsAt referenceId w = (Returned res, w')
    ∧ user_credits w' !! userId = Some d'
    ∧ trial_balance d' = Some amount
    ∧ trial_expires_at d' = Some trialEndsAt
    ∧ lifetime_earned d' = lifetime_earned d + amount
    ∧ getBalance userId w' = (Returned b', w')
    ∧ trialBalance b' = amount
    ∧ total b' = subscription_balance d + topup_balance d + amount
    ∧ allocated res = amount
    ∧ newBalance res = total b' + effectiveTrialBalance (clock w) d.
Proof.
  intros Hr Hend d.
  pose proof (allocateTrialCredits_run userId amount appKey trialEndsAt referenceId w Hr) as Hrun.
  cbv zeta in Hrun. fold d in Hrun.
  eexists _, _, _, _. split; [exact Hrun|]. split; [simpl; apply lookup_insert_eq|].
  do 3 (split; [reflexivity|]). split.
  { apply getBalance_row; [exact Hr|]. simpl. apply lookup_insert_eq. }
  assert (∀ d0, effectiveTrialBalance (clock w)
                  (set_updated_at (Some (clock w))
                     (set_lifetime_earned (lifetime_earned d + amount)
                        (set_trial_expires_at (Some trialEndsAt)
                           (set_trial_balance (Some amount) d0)))) = amount) as He.
  { intros d0. unfold effectiveTrialBalance. rewrite decide_False; [done|].
    intros (t & [= <-] & Hlt). simpl in *. lia. }
  simpl. rewrite He. repeat split; try reflexivity. lia.
Qed.

Lemma allocateTrialCredits_overwrites_witness :
  ∃ res w',
    allocateTrialCredits "u" 50 "keywords" 5000 None
      (Samples.store (Samples.account 100 10 (Some 30) (Some 2000) 900) 12) = (Returned res, w')
    ∧ newBalance res = 190
    ∧ (Credits.total <$> match (getBalance "u" w').1 with Returned b => Some b | Thrown _ => None end)
      = Some 160.
Proof.
  destruct (allocateTrialCredits_overwrites "u" 50 "keywords" 5000 None
              (Samples.store (Samples.account 100 10 (Some 30) (Some 2000) 900) 12)
              eq_refl ltac:(vm_compute; discriminate))
    as (res & w' & d' & b' & Hrun & _ & _ & _ & _ & Hb & _ & Htot & _ & Hnew).
  exists res, w'. split; [exact Hrun|]. rewrite Hb. simpl. rewrite Hnew, Htot.
  split; reflexivity.
Defined.

(** *** Ending a trial *)

Lemma expireTrialCredits_run userId appKey reason w d :
  readable "user_credits" w →
  user_credits w !! userId = Some d →
  let trialBalance := default 0 (trial_balance d) in
  expireTrialCredits userId appKey reason w
  = if decide (trialBalance = 0) then (Returned tt, w)
    else (Returned tt,
          with_credit_transactions (fun log => log ++ [
              {| tx_id := length (credit_transactions w);
                 tx_user_id := userId;
                 tx_amount := - trialBalance;
                 tx_balance_after := subscription_balance d + topup_balance d;
                 tx_pool := trial;
                 tx_type := "trial_expiry";
                 tx_description := Some ("Trial credits expired: " +:+ reason);
                 tx_app_key := Some appKey;
                 tx_reference_id := None;
                 tx_created_at := clock w |} ])
            (with_user_credits (insert userId
               (set_updated_at (Some (clock w))
                  (set_trial_expires_at None (set_trial_balance (Some 0) d)))) w)).
Proof.
  intros Hr Hu trialBalance. unfold expireTrialCredits.
  rewrite (bind_returned _ _ _ _ _ (select_user_credits userId w Hr)). rewrite Hu.
  cbn [data mbind option_bind]. fold trialBalance.
  destruct (Z.eqb_spec trialBalance 0) as [E|E]; [rewrite decide_True by done; reflexivity|].
  rewrite decide_False by done.
  step. step. unfold update_user_credits, modify. cbn [snd].
  rewrite (with_user_credits_alter _ _ _ _ Hu).
  set (d1 := set_updated_at _ _).
  set (w1 := with_user_credits (insert userId d1) w).
  assert (getBalance userId w1
          = (Returned {| subscriptionBalance := subscription_balance d;
                         topupBalance := topup_balance d;
                         trialBalance := 0;
                         total := subscription_balance d + topup_balance d;
                         cap := subscription_cap d;
                         lifetimeEarned := lifetime_earned d;
                         lifetimeSpent := lifetime_spent d |}, w1)) as Hb.
  { rewrite (getBalance_row userId w1 d1); [|exact Hr|apply lookup_insert_eq].
    assert (effectiveTrialBalance (clock w1) d1 = 0) as ->.
    { unfold effectiveTrialBalance. rewrite decide_False; [done|]. by intros (? & [=] & _). }
    subst d1. simpl. do 3 f_equal. lia. }
  step_with Hb. step. reflexivity.
Qed.

(** X6. [expireTrialCredits] on an account with a stored trial balance
    other than 0 zeroes the stored trial balance and clears the expiry,
    whether or not the expiry had passed, leaves every other column
    ([lifetimeSpent] included) as it was, and appends exactly one
    [trial_expiry] row of minus the stored balance, whose [balance_after] is
    the subscription and top-up pools.  Expiring again changes nothing. *)
Theorem expireTrialCredits_once userId appKey reason w d :
  readable "user_credits" w →
  user_credits w !! userId = Some d →
  default 0 (trial_balance d) ≠ 0 →
  ∃ w' d' row,
    expireTrialCredits userId appKey reason w = (Returned tt, w')
    ∧ user_credits w' = <[userId := d']> (user_credits w)
    ∧ trial_balance d' = Some 0
    ∧ trial_expires_at d' = None
    ∧ subscription_balance d' = subscription_balance d
    ∧ topup_balance d' = topup_balance d
    ∧ subscription_cap d' = subscription_cap d
    ∧ lifetime_earned d' = lifetime_earned d
    ∧ lifetime_spent d' = lifetime_spent d
    ∧ credit_transactions w' = credit_transactions w ++ [row]
    ∧ tx_type row = "trial_expiry"
    ∧ tx_pool row = trial
    ∧ tx_amount row = - default 0 (trial_balance d)
    ∧ tx_balance_after row = subscription_balance d + topup_balance d
    ∧ ∀ appKey' reason',
        expireTrialCredits userId appKey' reason' w' = (Returned tt, w').
Proof.
  intros Hr Hu Hne.
  pose proof (expireTrialCredits_run userId appKey reason w d Hr Hu) as Hrun.
  cbv zeta in Hrun. rewrite decide_False in Hrun by done.
  eexists _, _, _. split; [exact Hrun|].
  do 13 (split; [reflexivity|]).
  intros appKey' reason'.
  match goal with |- expireTrialCredits _ _ _ ?w1 = _ =>
    pose proof (expireTrialCredits_run userId appKey' reason' w1 _ Hr
                  (lookup_insert_eq (user_credits w) userId _)) as Hagain
  end.
  cbv zeta in Hagain. rewrite Hagain. by rewrite decide_True.
Qed.

Lemma expireTrialCredits_once_witness :
  ∃ w',
    expireTrialCredits "u" "keywords" "Trial ended with status: canceled"
      (Samples.store (Samples.account 100 10 (Some 30) (Some 2000) 900) 12) = (Returned tt, w')
    ∧ (fun r => (tx_type r, tx_amount r, tx_balance_after r)) <$> credit_transactions w'
      = [ ("trial_expiry", -30, 110) ]
    ∧ trial_balance <$> user_credits w' !! "u" = Some (Some 0).
Proof.
  destruct (expireTrialCredits_once "u" "keywords" "Trial ended with status: canceled"
              (Samples.store (Samples.account 100 10 (Some 30) (Some 2000) 900) 12)
              (Samples.account 100 10 (Some 30) (Some 2000) 900)
              eq_refl eq_refl ltac:(vm_compute; discriminate))
    as (w' & d' & row & Hrun & Hm & Htb & _ & _ & _ & _ & _ & _ & Hlog & Hty & _ & Ham & Hba & _).
  exists w'. split; [exact Hrun|].
  rewrite Hlog, Hm, lookup_insert_eq. simpl. rewrite Hty, Ham, Hba, Htb. split; reflexivity.
Defined.

(** X7. After [mergeTrialCredits] has run on an account, the trial pool is
    empty for good: a second merge returns [merged = 0] and an expiry does
    nothing, both leaving the store untouched.  So of the two events that
    end a trial, the one handled second has no effect on the ledger. *)
Theorem mergeTrialCredits_settles userId appKey w d :
  readable "user_credits" w →
  user_credits w !! userId = Some d →
  ∃ res w',
    mergeTrialCredits userId appKey w = (Returned res, w')
    ∧ (∀ appKey', mergeTrialCredits userId appKey' w' = (Returned {| merged := 0 |}, w'))
    ∧ (∀ appKey' reason, expireTrialCredits userId appKey' reason w' = (Returned tt, w')).
Proof.
  intros Hr Hu.
  pose proof (mergeTrialCredits_run userId appKey w d Hr Hu) as Hrun. cbv zeta in Hrun.
  destruct (decide (default 0 (trial_balance d) = 0)) as [E|E].
  - eexists _, _. split; [exact Hrun|]. split.
    + intros appKey'. pose proof (mergeTrialCredits_run userId appKey' w d Hr Hu) as H.
      cbv zeta in H. by rewrite decide_True in H.
    + intros appKey' reason.
      pose proof (expireTrialCredits_run userId appKey' reason w d Hr Hu) as H.
      cbv zeta in H. by rewrite decide_True in H.
  - eexists _, _. split; [exact Hrun|]. split.
    + intros appKey'.
      match goal with |- mergeTrialCredits _ _ ?w1 = _ =>
        pose proof (mergeTrialCredits_run userId appKey' w1 _ Hr
                      (lookup_insert_eq (user_credits w) userId _)) as H
      end.
      cbv zeta in H. rewrite H. by rewrite decide_True.
    + intros appKey' reason.
      match goal with |- expireTrialCredits _ _ _ ?w1 = _ =>
        pose proof (expireTrialCredits_run userId appKey' reason w1 _ Hr
                      (lookup_insert_eq (user_credits w) userId _)) as H
      end.
      cbv zeta in H. rewrite H. by rewrite decide_True.
Qed.

Lemma mergeTrialCredits_settles_witness :
  ∃ res w',
    mergeTrialCredits "u" "keywords"
      (Samples.store (Samples.account 880 0 (Some 40) (Some 2000) 900) 12) = (Returned res, w')
    ∧ mergeTrialCredits "u" "keywords" w' = (Returned {| merged := 0 |}, w')
    ∧ expireTrialCredits "u" "keywords" "Trial ended with status: canceled" w'
      = (Returned tt, w').
Proof.
  destruct (mergeTrialCredits_settles "u" "keywords"
              (Samples.store (Samples.account 880 0 (Some 40) (Some 2000) 900) 12)
              (Samples.account 880 0 (Some 40) (Some 2000) 900) eq_refl eq_refl)
    as (res & w' & Hrun & Hm & He).
  exists res, w'. split; [exact Hrun|]. split; [apply Hm|apply He].
Defined.

(** *** Bounds on the trial balance *)

Lemma effectiveTrialBalance_bounds now d :
  0 ≤ default 0 (trial_balance d) →
  0 ≤ effectiveTrialBalance now d ≤ default 0 (trial_balance d).
Proof. intros H. unfold effectiveTrialBalance. case_decide; lia. Qed.

(** *** What a deduction leaves behind *)

(** X9. A successful deduction of a cost [c ≥ 0] from an account whose
    top-up and trial pools are not negative is fully accounted for: the
    [newBalance] it returns is the total [getBalance] reports afterwards,
    [lifetimeSpent] has grown by [c], the rows it appended are all
    [usage_deduction] rows of the user with negative amounts that sum to
    [-c], and the [transactionId] it returns is the id of the last of them.
    A cost of 0 is the one case in which it appends nothing and returns no
    transaction id. *)
Theorem deductCredits_accounted userId appKey operation referenceId w c d :
  getCreditCost appKey operation w = (Returned c, w) →
  readable "user_credits" w →
  user_credits w !! userId = Some d →
  0 ≤ c →
  0 ≤ topup_balance d →
  0 ≤ default 0 (trial_balance d) →
  c ≤ subscription_balance d + topup_balance d + effectiveTrialBalance (clock w) d →
  ∃ res w' b' rows,
    deductCredits userId appKey operation referenceId w = (Returned res, w')
    ∧ getBalance userId w' = (Returned b', w')
    ∧ total b' = deduct_newBalance res
    ∧ lifetimeSpent b' = lifetime_spent d + c
    ∧ lifetimeEarned b' = lifetime_earned d
    ∧ cap b' = subscription_cap d
    ∧ credit_transactions w' = credit_transactions w ++ rows
    ∧ foldr Z.add 0 (tx_amount <$> rows) = - c
    ∧ Forall (fun r => tx_user_id r = userId ∧ tx_amount r < 0
                       ∧ tx_type r = "usage_deduction") rows
    ∧ transactionId res = tx_id <$> last rows
    ∧ (rows = [] ↔ c = 0).
Proof.
  intros Hc Hr Hu H0 Htop Htr Hle.
  pose proof (deductCredits_run userId appKey operation referenceId w c d Hc Hr Hu Hle) as Hrun.
  cbv zeta in Hrun.
  pose proof (effectiveTrialBalance_bounds (clock w) d Htr) as Hb.
  set (tb := effectiveTrialBalance (clock w) d) in *.
  set (fromTrial := Z.min c tb) in *.
  set (fromTopup := Z.min (c - fromTrial) (topup_balance d)) in *.
  set (d' := Build_UserCredits _ _ _ _ _ _ _ _ _) in Hrun.
  assert (effectiveTrialBalance (clock w) d' = tb - fromTrial) as He.
  { subst d'. unfold effectiveTrialBalance, trial_expired in *. simpl.
    subst tb. unfold effectiveTrialBalance, trial_expired in *.
    destruct (decide (∃ t, trial_expires_at d = Some t ∧ t < clock w)); simpl; lia. }
  eexists _, _, _, _. split; [exact Hrun|]. split.
  { apply getBalance_row; [exact Hr|]. simpl. apply lookup_insert_eq. }
  simpl. rewrite He. subst d'. simpl.
  split; [lia|]. do 4 (split; [reflexivity|]).
  unfold usage_deduction_rows. rewrite !filter_cons, filter_nil. simpl.
  destruct (decide (- fromTrial < 0)), (decide (- fromTopup < 0)),
    (decide (- (c - fromTrial - fromTopup) < 0)); simpl;
    (split; [lia|]); (split; [repeat constructor; simpl; lia|]);
    (split; [reflexivity|]); (split; [intros; try discriminate; lia|intros; try reflexivity; lia]).
Qed.

Lemma deductCredits_accounted_witness :
  ∃ res w' b',
    deductCredits "u" "keywords" "search" (Some "job-7")
      (Samples.store (Samples.account 100 10 (Some 5) None 900) 12) = (Returned res, w')
    ∧ getBalance "u" w' = (Returned b', w')
    ∧ total b' = deduct_newBalance res
    ∧ tx_amount <$> credit_transactions w' = [-5; -7].
Proof.
  destruct (deductCredits_accounted "u" "keywords" "search" (Some "job-7")
              (Samples.store (Samples.account 100 10 (Some 5) None 900) 12) 12
              (Samples.account 100 10 (Some 5) None 900))
    as (res & w' & b' & rows & Hrun & Hb & Ht & _); try reflexivity; try (vm_compute; discriminate).
  exists res, w', b'. split; [exact Hrun|]. split; [exact Hb|]. split; [exact Ht|].
  vm_compute in Hrun. injection Hrun as _ <-. reflexivity.
Defined.

(** *** What an operation can touch *)

Lemma confined_refl userId w : confined userId w w.
Proof.
  split; [done|]. split; [|done].
  exists []. rewrite app_nil_r. split; [done|]. split; [constructor|]. by intros i r.
Qed.

Lemma confined_trans userId w1 w2 w3 :
  confined userId w1 w2 → confined userId w2 w3 → confined userId w1 w3.
Proof.
  intros (Hu1 & (rows1 & Hl1 & Hf1 & Hn1) & Hc1 & Ha1 & He1 & Hk1 & Hr1)
         (Hu2 & (rows2 & Hl2 & Hf2 & Hn2) & Hc2 & Ha2 & He2 & Hk2 & Hr2).
  split; [intros other Hne; by rewrite Hu2, Hu1|].
  split; [|by rewrite Hc2, Ha2, He2, Hk2, Hr2].
  exists (rows1 ++ rows2). split; [by rewrite Hl2, Hl1, app_assoc|].
  split; [by apply Forall_app|].
  intros i r Hi. apply lookup_app_Some in Hi as [Hi|[Hge Hi]].
  - by apply Hn1.
  - apply Hn2 in Hi. rewrite Hi, Hl1, length_app. lia.
Qed.

Lemma confined_ret {A} userId (a : A) : confined_task userId (mret a).
Proof. intros w. apply confined_refl. Qed.

Lemma confined_throw {A} userId e : confined_task userId (throw (A := A) e).
Proof. intros w. apply confined_refl. Qed.

Lemma confined_gets {A} userId (f : World → A) : confined_task userId (gets f).
Proof. intros w. apply confined_refl. Qed.

Lemma confined_select {A} userId table (rows : World → list A) :
  confined_task userId (select table rows).
Proof. intros w. apply confined_refl. Qed.

Lemma confined_select_maybeSingle {A} userId table (rows : World → list A) :
  confined_task userId (select_maybeSingle table rows).
Proof. intros w. apply confined_refl. Qed.

Lemma confined_bind {A B} userId (m : Task A) (k : A → Task B) :
  confined_task userId m → (∀ a, confined_task userId (k a)) → confined_task userId (m ≫= k).
Proof.
  intros Hm Hk w. rewrite run_bind. specialize (Hm w).
  destruct (m w) as [[a|e] w']; simpl in *; [|done].
  eapply confined_trans; [exact Hm|apply Hk].
Qed.

Lemma confined_update_user_credits userId patch :
  confined_task userId (update_user_credits userId patch).
Proof.
  intros w. unfold update_user_credits, modify. simpl.
  split; [intros other Hne; simpl; by rewrite lookup_alter_ne|].
  split; [|done]. exists []. simpl. rewrite app_nil_r.
  split; [done|]. split; [constructor|]. by intros i r.
Qed.

Lemma confined_insert_user_credits userId :
  confined_task userId (insert_user_credits userId).
Proof.
  intros w. unfold insert_user_credits, modify. simpl.
  destruct (user_credits w !! userId); [apply confined_refl|].
  split; [intros other Hne; simpl; by rewrite lookup_insert_ne|].
  split; [|done]. exists []. simpl. rewrite app_nil_r.
  split; [done|]. split; [constructor|]. by intros i r.
Qed.

Lemma confined_insert_credit_transaction userId amount after pool type description appKey ref :
  confined_task userId
    (insert_credit_transaction userId amount after pool type description appKey ref).
Proof.
  intros w. unfold insert_credit_transaction. simpl.
  split; [done|]. split; [|done]. eexists [_]. split; [reflexivity|].
  split; [by repeat constructor|].
  intros [|i] r; simpl; [|done]. intros [= <-]. simpl. lia.
Qed.

Lemma confined_getBalance userId : confined_task userId (getBalance userId).
Proof. intros w. rewrite getBalance_world. apply confined_refl. Qed.

Lemma confined_getCreditCost userId appKey operation :
  confined_task userId (getCreditCost appKey operation).
Proof. intros w. rewrite getCreditCost_world. apply confined_refl. Qed.

Ltac confine :=
  repeat first
    [ apply confined_ret | apply confined_throw | apply confined_gets
    | apply confined_select | apply confined_select_maybeSingle
    | apply confined_getBalance | apply confined_getCreditCost
    | apply confined_update_user_credits | apply confined_insert_user_credits
    | apply confined_insert_credit_transaction
    | apply confined_bind; [|intros ?]
    | match goal with
      | |- confined_task _ (if ?b then _ else _) => destruct b
      | |- confined_task _ (match ?x with _ => _ end) => destruct x
      end ].

Lemma confined_ensureUserCreditsRow userId : confined_task userId (ensureUserCreditsRow userId).
Proof. unfold ensureUserCreditsRow. confine. Qed.

Lemma confined_deductCredits userId appKey operation referenceId :
  confined_task userId (deductCredits userId appKey operation referenceId).
Proof. unfold deductCredits. confine. Qed.

Lemma confined_allocateSubscriptionCredits userId amount appKey referenceId :
  confined_task userId (allocateSubscriptionCredits userId amount appKey referenceId).
Proof.
  unfold allocateSubscriptionCredits. apply confined_bind; [apply confined_ensureUserCreditsRow|].
  intros ?. confine.
Qed.

Lemma confined_allocateTopUpCredits userId amount packName referenceId :
  confined_task userId (allocateTopUpCredits userId amount packName referenceId).
Proof.
  unfold allocateTopUpCredits. apply confined_bind; [apply confined_ensureUserCreditsRow|].
  intros ?. confine.
Qed.

Lemma confined_allocateRetentionBonus userId amount :
  confined_task userId (allocateRetentionBonus userId amount).
Proof.
  unfold allocateRetentionBonus. apply confined_bind; [apply confined_ensureUserCreditsRow|].
  intros ?. confine.
Qed.

Lemma confined_allocateTrialCredits userId amount appKey trialEndsAt referenceId :
  confined_task userId (allocateTrialCredits userId amount appKey trialEndsAt referenceId).
Proof.
  unfold allocateTrialCredits. apply confined_bind; [apply confined_ensureUserCreditsRow|].
  intros ?. confine.
Qed.

Lemma confined_expireTrialCredits userId appKey reason :
  confined_task userId (expireTrialCredits userId appKey reason).
Proof. unfold expireTrialCredits. confine. Qed.

Lemma confined_mergeTrialCredits userId appKey :
  confined_task userId (mergeTrialCredits userId appKey).
Proof. unfold mergeTrialCredits. confine. Qed.

Section Confinement.

Variable findSubscriptionByPriceId : string → option SubscriptionPlan.
Variable findSubscriptionPlan : string → option string → option SubscriptionPlan.

Lemma confined_recalculateSubscriptionCap userId :
  confined_task userId
    (recalculateSubscriptionCap findSubscriptionByPriceId findSubscriptionPlan userId).
Proof. unfold recalculateSubscriptionCap. confine. Qed.

(** X10. An engine operation works for one user only: whether it returns
    or throws, it leaves the accounts of all other users, the cost catalog,
    the subscription records and the event records as they were, and what
    it does to the log is append rows of its own user, each with its
    position in the log as id.  No operation rewrites or removes a row of
    the log. *)
Theorem operation_confined op w :
  confined (operation_user op) w (perform findSubscriptionByPriceId findSubscriptionPlan op w).
Proof.
  destruct op as [userId|userId appKey operation referenceId|userId amount appKey referenceId
                 |userId amount packName referenceId|userId amount
                 |userId amount appKey trialEndsAt referenceId|userId appKey reason
                 |userId appKey|userId]; simpl.
  - apply confined_getBalance.
  - apply confined_deductCredits.
  - apply confined_allocateSubscriptionCredits.
  - apply confined_allocateTopUpCredits.
  - apply confined_allocateRetentionBonus.
  - apply confined_allocateTrialCredits.
  - apply confined_expireTrialCredits.
  - apply confined_mergeTrialCredits.
  - apply confined_recalculateSubscriptionCap.
Qed.

End Confinement.

(** *** The cost catalog *)

(** X12. [getCreditCost] never writes, and when the catalog can be read it
    returns a cost exactly when the catalog holds one single active row for
    the operation, whose cost it is: inactive rows do not count, no active
    row is the 404 error, and an operation with two active rows cannot be
    priced at all, so that every deduction of it is refused with the 500
    error and the store left as it was. *)
Theorem getCreditCost_single_active_row appKey operation w :
  readable "app_credit_config" w →
  (∀ c, getCreditCost appKey operation w = (Returned c, w)
        ↔ ∃ row, credit_config_rows appKey operation w = [row] ∧ cfg_credit_cost row = c)
  ∧ (credit_config_rows appKey operation w = [] →
     getCreditCost appKey operation w
     = (Thrown (HttpError 404 ("Unknown operation: " +:+ appKey +:+ "/" +:+ operation)
                  NoDetails), w))
  ∧ (∀ row1 row2 rows, credit_config_rows appKey operation w = row1 :: row2 :: rows →
     ∃ msg,
       getCreditCost appKey operation w
       = (Thrown (HttpError 500 "Failed to fetch credit cost" (ErrorMessage msg)), w)
       ∧ ∀ userId referenceId,
           deductCredits userId appKey operation referenceId w
           = (Thrown (HttpError 500 "Failed to fetch credit cost" (ErrorMessage msg)), w)).
Proof.
  intros Hr.
  assert (getCreditCost appKey operation w
          = match credit_config_rows appKey operation w with
            | [] => (Thrown (HttpError 404
                               ("Unknown operation: " +:+ appKey +:+ "/" +:+ operation)
                               NoDetails), w)
            | [row] => (Returned (cfg_credit_cost row), w)
            | _ => (Thrown (HttpError 500 "Failed to fetch credit cost"
                              (ErrorMessage
                                 "JSON object requested, multiple (or no) rows returned")), w)
            end) as Hrun.
  { unfold getCreditCost, mbind, task_bind, select_maybeSingle, gets. rewrite Hr.
    by destruct (credit_config_rows appKey operation w) as [|row1 [|row2 rows]]. }
  split; [|split].
  - intros c. rewrite Hrun.
    destruct (credit_config_rows appKey operation w) as [|row1 [|row2 rows]]; split.
    + discriminate.
    + by intros (row & [=] & _).
    + intros [= <-]. by exists row1.
    + by intros (row & [= <-] & <-).
    + discriminate.
    + by intros (row & [=] & _).
  - intros E. by rewrite Hrun, E.
  - intros row1 row2 rows E. rewrite E in Hrun. eexists. split; [exact Hrun|].
    intros userId referenceId. unfold deductCredits. by apply bind_thrown.
Qed.

Lemma getCreditCost_single_active_row_witness :
  getCreditCost "keywords" "search" Cases.repriced = (Returned 12, Cases.repriced).
Proof.
  apply (getCreditCost_single_active_row "keywords" "search" Cases.repriced eq_refl).
  eexists. split; [vm_compute; reflexivity|reflexivity].
Defined.

(** *** Bundle eligibility *)

Import Billing.

Lemma distinct_from (xs seen : list string) :
  NoDup seen →
  let out := fold_left (fun seen x => if decide (x ∈ seen) then seen else seen ++ [x]) xs seen in
  NoDup out ∧ ∀ x, x ∈ out ↔ x ∈ seen ∨ x ∈ xs.
Proof.
  revert seen. induction xs as [|y xs IH]; intros seen Hnd; simpl.
  - split; [done|]. intros x. rewrite elem_of_nil. tauto.
  - destruct (decide (y ∈ seen)) as [Hy|Hy].
    + destruct (IH seen Hnd) as [Hout Hin]. split; [done|].
      intros x. rewrite Hin, elem_of_cons. split; [tauto|].
      intros [?|[->|?]]; tauto.
    + assert (NoDup (seen ++ [y])) as Hnd'.
      { apply NoDup_app. split; [done|]. split; [|apply NoDup_singleton].
        intros x Hx Hx'. apply list_elem_of_singleton in Hx'. by subst. }
      destruct (IH (seen ++ [y]) Hnd') as [Hout Hin]. split; [done|].
      intros x. rewrite Hin, elem_of_app, list_elem_of_singleton, elem_of_cons. tauto.
Qed.

Lemma distinct_spec xs : NoDup (distinct xs) ∧ ∀ x, x ∈ distinct xs ↔ x ∈ xs.
Proof.
  destruct (distinct_from xs [] (NoDup_nil_2)) as [Hnd Hin]. split; [done|].
  intros x. unfold distinct. rewrite Hin, elem_of_nil. tauto.
Qed.

Lemma two_different (l : list string) :
  NoDup l → (2 ≤ length l)%nat ↔ ∃ a b, a ∈ l ∧ b ∈ l ∧ a ≠ b.
Proof.
  intros Hnd. split.
  - destruct l as [|a [|b l]]; simpl; [lia|lia|]. intros _.
    exists a, b. split; [left|]. split; [right; left|].
    apply NoDup_cons in Hnd as [Ha _]. intros ->. apply Ha. left.
  - intros (a & b & Ha & Hb & Hne).
    destruct l as [|x [|y l]]; simpl; [|exfalso|lia].
    + by apply elem_of_nil in Ha.
    + apply list_elem_of_singleton in Ha, Hb. congruence.
Qed.

(** X13. [getBundleEligibility] never writes and never throws.  The apps it
    returns are without repetition; when the subscription records can be
    read they are exactly the app keys of the user's records in status
    [active], [trialing] or [past_due], and the user is eligible exactly
    when two such records are for different apps (two records for the same
    app do not make a bundle).  When the read fails the user is reported
    as not eligible, with no apps. *)
Theorem getBundleEligibility_two_apps userId w :
  ∃ r,
    getBundleEligibility userId w = (Returned r, w)
    ∧ NoDup (distinctApps r)
    ∧ (readable "app_subscriptions" w →
       (∀ appKey, appKey ∈ distinctApps r
                  ↔ ∃ s, s ∈ app_subscriptions w ∧ sub_user_id s = userId
                         ∧ sub_status s ∈ ["active"; "trialing"; "past_due"]
                         ∧ sub_app_key s = appKey)
       ∧ (bundle_eligible r = true
          ↔ ∃ s1 s2, s1 ∈ qualifying_subscriptions userId w
                     ∧ s2 ∈ qualifying_subscriptions userId w
                     ∧ sub_app_key s1 ≠ sub_app_key s2))
    ∧ (¬ readable "app_subscriptions" w → bundle_eligible r = false ∧ distinctApps r = []).
Proof.
  unfold getBundleEligibility, mbind, task_bind, select, gets, mret, task_ret, readable.
  eexists. split; [reflexivity|]. simpl.
  destruct (read_error w "app_subscriptions") as [msg|]; simpl.
  - split; [apply NoDup_nil_2|]. split; [done|]. intros _. by split.
  - destruct (distinct_spec (sub_app_key <$> qualifying_subscriptions userId w)) as [Hnd Hin].
    split; [done|]. split; [|by intros H].
    intros _. split.
    + intros appKey. rewrite Hin, list_elem_of_fmap. unfold qualifying_subscriptions.
      split.
      * intros (s & -> & Hs). apply list_elem_of_filter in Hs as [[Hu Hst] Hs]. by exists s.
      * intros (s & Hs & Hu & Hst & <-). exists s. split; [done|].
        by apply list_elem_of_filter.
    + rewrite bool_decide_eq_true, (two_different _ Hnd). split.
      * intros (a & b & Ha & Hb & Hne).
        apply Hin, list_elem_of_fmap in Ha as (s1 & -> & Hs1).
        apply Hin, list_elem_of_fmap in Hb as (s2 & -> & Hs2). by exists s1, s2.
      * intros (s1 & s2 & Hs1 & Hs2 & Hne). exists (sub_app_key s1), (sub_app_key s2).
        split; [apply Hin, list_elem_of_fmap; by exists s1|].
        split; [apply Hin, list_elem_of_fmap; by exists s2|done].
Qed.

(** *** The subscription records *)

Lemma filter_replaced userId appKey record (rows : list AppSubscription) :
  same_subscription userId appKey record →
  filter (same_subscription userId appKey)
    ((fun s => if decide (same_subscription userId appKey s) then record else s) <$> rows)
  = (fun _ => record) <$> filter (same_subscription userId appKey) rows.
Proof.
  intros Hrec. induction rows as [|s rows IH]; [done|].
  rewrite fmap_cons. cbv beta.
  destruct (decide (same_subscription userId appKey s)) as [Hs|Hs].
  - rewrite !filter_cons_True by done. by rewrite fmap_cons, IH.
  - rewrite !filter_cons_False by done. exact IH.
Qed.

Lemma filter_none_matching userId appKey (rows : list AppSubscription) :
  ¬ Exists (same_subscription userId appKey) rows →
  filter (same_subscription userId appKey) rows = [].
Proof.
  intros Hex. destruct (filter _ rows) as [|x l] eqn:E; [done|]. exfalso. apply Hex.
  assert (x ∈ filter (same_subscription userId appKey) rows) as Hin by (rewrite E; left).
  apply list_elem_of_filter in Hin as [HP Hin]. apply Exists_exists. by exists x.
Qed.

Lemma upsert_same_key record rows :
  (length (filter (same_subscription (sub_user_id record) (sub_app_key record)) rows) ≤ 1)%nat →
  filter (same_subscription (sub_user_id record) (sub_app_key record))
    (upsert_app_subscription record rows) = [record].
Proof.
  intros Hle. unfold upsert_app_subscription.
  destruct (decide (Exists _ rows)) as [Hex|Hex].
  - rewrite filter_replaced by done.
    apply Exists_exists in Hex as (s & Hs & HP).
    assert (s ∈ filter (same_subscription (sub_user_id record) (sub_app_key record)) rows)
      as Hin by (by apply list_elem_of_filter).
    destruct (filter _ rows) as [|x [|y l]]; simpl in *; [|done|lia].
    by apply elem_of_nil in Hin.
  - rewrite filter_app, filter_cons_True by done.
    by rewrite filter_nil, filter_none_matching.
Qed.

Lemma upsert_other_key record rows userId appKey :
  ¬ (userId = sub_user_id record ∧ appKey = sub_app_key record) →
  filter (same_subscription userId appKey) (upsert_app_subscription record rows)
  = filter (same_subscription userId appKey) rows.
Proof.
  intros Hne. unfold upsert_app_subscription.
  assert (¬ same_subscription userId appKey record) as Hrec by (intros [? ?]; by apply Hne).
  destruct (decide (Exists _ rows)) as [Hex|Hex].
  - clear Hex. induction rows as [|s rows IH]; [done|].
    rewrite fmap_cons. cbv beta.
    destruct (decide (same_subscription (sub_user_id record) (sub_app_key record) s))
      as [[Hs1 Hs2]|Hs].
    + rewrite filter_cons_False by done.
      rewrite filter_cons_False; [exact IH|]. intros [? ?]. apply Hne. split; congruence.
    + destruct (decide (same_subscription userId appKey s)).
      * rewrite !filter_cons_True by done. by rewrite IH.
      * rewrite !filter_cons_False by done. exact IH.
  - rewrite filter_app, filter_cons_False by done.
    by rewrite filter_nil, app_nil_r.
Qed.

Lemma upsert_again record rows :
  filter (same_subscription (sub_user_id record) (sub_app_key record)) rows = [record] →
  upsert_app_subscription record rows = rows.
Proof.
  intros Hrows. unfold upsert_app_subscription.
  assert (∀ s, s ∈ rows → same_subscription (sub_user_id record) (sub_app_key record) s →
               s = record) as Hall.
  { intros s Hs HP.
    assert (s ∈ filter (same_subscription (sub_user_id record) (sub_app_key record)) rows)
      as Hin by (by apply list_elem_of_filter).
    rewrite Hrows in Hin. by apply list_elem_of_singleton in Hin. }
  rewrite decide_True.
  - clear Hrows. induction rows as [|s rows IH]; [done|].
    rewrite fmap_cons. cbv beta. f_equal.
    + destruct (decide _) as [HP|]; [|done]. symmetry. apply Hall; [left|done].
    + apply IH. intros s' Hs'. apply Hall. by right.
  - apply Exists_exists. exists record.
    assert (record ∈ filter (same_subscription (sub_user_id record) (sub_app_key record)) rows)
      as Hin by (rewrite Hrows; left).
    by apply list_elem_of_filter in Hin as [? ?].
Qed.

Lemma syncAppSubscription_run userId subscription appKey w :
  syncAppSubscription userId subscription appKey w
  = (Returned tt,
     with_app_subscriptions
       (upsert_app_subscription
          {| sub_user_id := userId; sub_app_key := appKey;
             sub_stripe_price_id := items_price_id subscription;
             sub_status := recorded_status subscription |}) w).
Proof. reflexivity. Qed.

Lemma syncAppSubscription_unique userId subscription appKey w :
  unique_subscriptions w →
  unique_subscriptions (syncAppSubscription userId subscription appKey w).2.
Proof.
  intros Hu u a. rewrite syncAppSubscription_run. unfold subscription_rows. simpl.
  destruct (decide (u = userId ∧ a = appKey)) as [[-> ->]|Hne].
  - set (record := Build_AppSubscription _ _ _ _).
    rewrite (upsert_same_key record); [done|]. apply (Hu userId appKey).
  - rewrite upsert_other_key by done. apply Hu.
Qed.

Lemma syncAppSubscription_row userId subscription appKey w :
  unique_subscriptions w →
  subscription_rows userId appKey (syncAppSubscription userId subscription appKey w).2
  = [ {| sub_user_id := userId; sub_app_key := appKey;
         sub_stripe_price_id := items_price_id subscription;
         sub_status := recorded_status subscription |} ].
Proof.
  intros Hu. rewrite syncAppSubscription_run. unfold subscription_rows. simpl.
  set (record := Build_AppSubscription _ _ _ _).
  apply (upsert_same_key record). apply (Hu userId appKey).
Qed.

(** X14. [syncAppSubscription] on records with at most one record per user
    and app: afterwards there is exactly one record for the user and app,
    carrying the subscription's first price id and its status, or [paused]
    when collection is paused whatever the status; the records of every
    other user or app are as they were, as are accounts, log and event
    records; no two records share user and app; a status other than
    [active], [trialing] and [past_due] leaves the user without qualifying
    record for the app; and syncing the same subscription again changes
    none of these columns. *)
Theorem syncAppSubscription_upserts userId subscription appKey w :
  unique_subscriptions w →
  ∃ w',
    syncAppSubscription userId subscription appKey w = (Returned tt, w')
    ∧ unique_subscriptions w'
    ∧ subscription_rows userId appKey w'
      = [ {| sub_user_id := userId; sub_app_key := appKey;
             sub_stripe_price_id := items_price_id subscription;
             sub_status := if pause_collection subscription then "paused"
                           else status subscription |} ]
    ∧ (∀ u a, ¬ (u = userId ∧ a = appKey) → subscription_rows u a w' = subscription_rows u a w)
    ∧ user_credits w' = user_credits w
    ∧ credit_transactions w' = credit_transactions w
    ∧ stripe_events w' = stripe_events w
    ∧ (recorded_status subscription ∉ ["active"; "trialing"; "past_due"] →
       ∀ s, s ∈ qualifying_subscriptions userId w' → sub_app_key s ≠ appKey)
    ∧ app_subscriptions (syncAppSubscription userId subscription appKey w').2
      = app_subscriptions w'.
Proof.
  intros Hu. eexists. split; [apply syncAppSubscription_run|].
  pose proof (syncAppSubscription_unique userId subscription appKey w Hu) as Hu'.
  pose proof (syncAppSubscription_row userId subscription appKey w Hu) as Hrow.
  rewrite syncAppSubscription_run in Hu', Hrow. simpl in Hu', Hrow.
  split; [exact Hu'|]. split; [exact Hrow|]. split.
  { intros u a Hne. unfold subscription_rows. simpl. by apply upsert_other_key. }
  do 3 (split; [reflexivity|]). split.
  - intros Hst s Hs Hk. apply list_elem_of_filter in Hs as [[Hsu Hss] Hs].
    assert (s ∈ subscription_rows userId appKey
                  (with_app_subscriptions
                     (upsert_app_subscription
                        {| sub_user_id := userId; sub_app_key := appKey;
                           sub_stripe_price_id := items_price_id subscription;
                           sub_status := recorded_status subscription |}) w)) as Hin.
    { apply list_elem_of_filter. by split. }
    rewrite Hrow in Hin. apply list_elem_of_singleton in Hin. subst s. by apply Hst.
  - rewrite syncAppSubscription_run. simpl. by apply upsert_again.
Qed.

Lemma unique_subscriptions_none w : app_subscriptions w = [] → unique_subscriptions w.
Proof. intros E u a. unfold subscription_rows. rewrite E. simpl. lia. Qed.

Lemma two_apps_unique : unique_subscriptions Samples.two_apps.
Proof.
  unfold Samples.two_apps.
  apply (syncAppSubscription_unique "u" Samples.active "labs").
  apply (syncAppSubscription_unique "u" Samples.active "keywords").
  by apply unique_subscriptions_none.
Qed.

Lemma syncAppSubscription_upserts_witness :
  ∃ w',
    syncAppSubscription "u" Cases.paused "labs" Samples.two_apps = (Returned tt, w')
    ∧ app_subscriptions w'
      = [ {| sub_user_id := "u"; sub_app_key := "keywords"; sub_stripe_price_id := None;
             sub_status := "active" |};
          {| sub_user_id := "u"; sub_app_key := "labs";
             sub_stripe_price_id := Some "price_labs"; sub_status := "paused" |} ]
    ∧ unique_subscriptions w'.
Proof.
  destruct (syncAppSubscription_upserts "u" Cases.paused "labs" Samples.two_apps two_apps_unique)
    as (w' & Hrun & Hu & _).
  exists w'. split; [exact Hrun|]. split; [|exact Hu].
  vm_compute in Hrun. injection Hrun as <-. reflexivity.
Defined.

(** *** Trial eligibility *)

Section TrialEligibility.

Variable subscriptions_list : string → Outcome (list ListedSubscription).
Variable getDualTrialAppKeys : list string.

Lemma checkTrialEligibility_world userId appKey customerId w :
  (checkTrialEligibility subscriptions_list userId appKey customerId w).2 = w.
Proof.
  unfold checkTrialEligibility, mbind, task_bind, select_maybeSingle, gets.
  destruct (data _); [done|].
  destruct (subscriptions_list customerId) as [subs|e]; [|done].
  by destruct (existsb _ subs).
Qed.

Lemma checkTrialEligibility_recorded userId appKey customerId w s :
  readable "app_subscriptions" w →
  subscription_rows userId appKey w = [s] →
  checkTrialEligibility subscriptions_list userId appKey customerId w
  = (Returned {| trial_eligible := false;
                 reason := Some ("User already has " +:+ sub_status s
                                 +:+ " subscription for " +:+ appKey) |}, w).
Proof.
  intros Hr Hrows.
  unfold checkTrialEligibility, mbind, task_bind, select_maybeSingle, gets.
  by rewrite Hr, Hrows.
Qed.

Lemma checkTrialEligibility_unrecorded userId appKey customerId w :
  ¬ (readable "app_subscriptions" w ∧ ∃ s, subscription_rows userId appKey w = [s]) →
  checkTrialEligibility subscriptions_list userId appKey customerId w
  = match subscriptions_list customerId with
    | Thrown e => (Thrown e, w)
    | Returned subscriptions =>
        if existsb (fun sub => bool_decide (metadata_app_key sub = Some appKey)) subscriptions
        then (Returned {| trial_eligible := false;
                          reason := Some ("Stripe shows existing subscription for "
                                          +:+ appKey) |}, w)
        else (Returned {| trial_eligible := true; reason := None |}, w)
    end.
Proof.
  intros Hnot.
  unfold checkTrialEligibility, mbind, task_bind, select_maybeSingle, gets, readable in *.
  destruct (read_error w "app_subscriptions") as [msg|]; simpl.
  - destruct (subscriptions_list customerId) as [subs|e]; [|done]. by destruct (existsb _ subs).
  - destruct (subscription_rows userId appKey w) as [|s [|s' rows]]; simpl.
    + destruct (subscriptions_list customerId) as [subs|e]; [|done]. by destruct (existsb _ subs).
    + exfalso. apply Hnot. split; [done|]. by exists s.
    + destruct (subscriptions_list customerId) as [subs|e]; [|done]. by destruct (existsb _ subs).
Qed.

(** X15. Once [syncAppSubscription] has recorded a subscription of a user
    to an app, in whatever status (canceled included), and while the
    records can be read, [checkTrialEligibility] refuses a trial of that
    app to the user, naming the recorded status, without consulting Stripe
    and whatever the customer id; it writes nothing.  The refusal rests on
    the read: if the read of the records fails, the same store answers by
    Stripe's list alone, and a user whose customer has no subscription
    listed for the app is reported eligible. *)
Theorem checkTrialEligibility_after_sync userId subscription appKey customerId w :
  unique_subscriptions w →
  readable "app_subscriptions" w →
  ∃ w',
    syncAppSubscription userId subscription appKey w = (Returned tt, w')
    ∧ checkTrialEligibility subscriptions_list userId appKey customerId w'
      = (Returned {| trial_eligible := false;
                     reason := Some ("User already has " +:+ recorded_status subscription
                                     +:+ " subscription for " +:+ appKey) |}, w')
    ∧ ∀ errors subscriptions,
        errors "app_subscriptions" ≠ None →
        subscriptions_list customerId = Returned subscriptions →
        (∀ sub, sub ∈ subscriptions → metadata_app_key sub ≠ Some appKey) →
        checkTrialEligibility subscriptions_list userId appKey customerId
          (happen (ReadErrors errors) w')
        = (Returned {| trial_eligible := true; reason := None |},
           happen (ReadErrors errors) w').
Proof.
  intros Hu Hr. eexists. split; [apply syncAppSubscription_run|]. split.
  - apply (checkTrialEligibility_recorded _ _ _ _
             {| sub_user_id := userId; sub_app_key := appKey;
                sub_stripe_price_id := items_price_id subscription;
                sub_status := recorded_status subscription |}); [exact Hr|].
    pose proof (syncAppSubscription_row userId subscription appKey w Hu) as Hrow.
    by rewrite syncAppSubscription_run in Hrow.
  - intros errors subs Herr Hlist Hnone.
    rewrite checkTrialEligibility_unrecorded, Hlist.
    + assert (existsb (fun sub => bool_decide (metadata_app_key sub = Some appKey)) subs = false)
        as ->; [|done].
      apply not_true_is_false. intros Hex. apply existsb_exists in Hex as (sub & Hin & Hk).
      apply bool_decide_eq_true in Hk. apply (Hnone sub); [|done]. by apply list_elem_of_In.
    + intros [Hread _]. by apply Herr.
Qed.

Lemma checkDualTrialEligibility_loop_world userId customerId appKeys w :
  (checkDualTrialEligibility_loop subscriptions_list userId customerId appKeys w).2 = w.
Proof.
  induction appKeys as [|appKey appKeys IH]; [done|]. simpl. rewrite run_bind.
  pose proof (checkTrialEligibility_world userId appKey customerId w) as Hw.
  destruct (checkTrialEligibility _ _ _ _ w) as [[r|e] w']; simpl in Hw; subst w'; [|done].
  by destruct (trial_eligible r).
Qed.

(** X16. [checkDualTrialEligibility] writes nothing, and it reports the
    user eligible exactly when [checkTrialEligibility] reports every app of
    the dual trial eligible; when the first app that is not eligible comes
    after eligible ones, the answer is not eligible with that app's reason
    behind the prefix [Not eligible for dual trial: ], and the apps after
    it are not looked at. *)
Theorem checkDualTrialEligibility_every_app userId customerId w :
  (checkDualTrialEligibility subscriptions_list getDualTrialAppKeys userId customerId w).2 = w
  ∧ (checkDualTrialEligibility subscriptions_list getDualTrialAppKeys userId customerId w
     = (Returned {| trial_eligible := true; reason := None |}, w)
     ↔ ∀ appKey, appKey ∈ getDualTrialAppKeys →
         ∃ r, checkTrialEligibility subscriptions_list userId appKey customerId w
              = (Returned r, w) ∧ trial_eligible r = true)
  ∧ (∀ before appKey after r,
       getDualTrialAppKeys = before ++ appKey :: after →
       (∀ k, k ∈ before →
          ∃ r', checkTrialEligibility subscriptions_list userId k customerId w
                = (Returned r', w) ∧ trial_eligible r' = true) →
       checkTrialEligibility subscriptions_list userId appKey customerId w = (Returned r, w) →
       trial_eligible r = false →
       checkDualTrialEligibility subscriptions_list getDualTrialAppKeys userId customerId w
       = (Returned {| trial_eligible := false;
                      reason := Some ("Not eligible for dual trial: "
                                      +:+ default "undefined" (reason r)) |}, w)).
Proof.
  unfold checkDualTrialEligibility. split; [apply checkDualTrialEligibility_loop_world|]. split.
  - induction getDualTrialAppKeys as [|appKey appKeys IH]; simpl.
    + split; [|done]. intros _ appKey Hin. by apply elem_of_nil in Hin.
    + rewrite run_bind.
      pose proof (checkTrialEligibility_world userId appKey customerId w) as Hw.
      destruct (checkTrialEligibility _ _ _ _ w) as [[r|e] w'] eqn:E; simpl in Hw; subst w'.
      * destruct (trial_eligible r) eqn:Er.
        -- rewrite IH. split.
           ++ intros H k Hk. apply elem_of_cons in Hk as [->|Hk]; [|by apply H].
              rewrite E. by exists r.
           ++ intros H k Hk. apply H. by right.
        -- split; [discriminate|]. intros H.
           destruct (H appKey) as (r' & Hr' & He); [left|]. rewrite E in Hr'.
           injection Hr' as <-. congruence.
      * split; [discriminate|]. intros H.
        destruct (H appKey) as (r' & Hr' & He); [left|]. rewrite E in Hr'. discriminate.
  - intros before appKey after r -> Hbefore Hcheck Hr.
    induction before as [|k before IH]; simpl.
    + rewrite run_bind, Hcheck. by rewrite Hr.
    + rewrite run_bind. destruct (Hbefore k) as (r' & -> & ->); [left|].
      apply IH. intros k' Hk'. apply Hbefore. by right.
Qed.

End TrialEligibility.

Lemma checkTrialEligibility_after_sync_witness :
  ∃ w',
    syncAppSubscription "u" Samples.canceled "labs" Samples.two_apps = (Returned tt, w')
    ∧ checkTrialEligibility Cases.nothing_listed "u" "labs" "cus_1" w'
      = (Returned {| trial_eligible := false;
                     reason := Some "User already has canceled subscription for labs" |}, w').
Proof.
  destruct (checkTrialEligibility_after_sync Cases.nothing_listed "u" Samples.canceled "labs"
              "cus_1" Samples.two_apps two_apps_unique eq_refl) as (w' & Hrun & Hcheck & _).
  exists w'. split; [exact Hrun|exact Hcheck].
Defined.

(** *** User tiers *)

Import Tiers.

Lemma updateUserTier_run userId tier dir p :
  unreadable dir = false →
  profiles dir !! userId = Some p →
  updateUserTier userId tier dir
  = if tierRank (user_tier p) >=? tierRank (Some (tier_name tier)) then dir
    else {| profiles := <[userId := {| user_tier := Some (tier_name tier);
                                       profile_updated_at := Some (today dir) |}]> (profiles dir);
            today := today dir;
            unreadable := unreadable dir |}.
Proof.
  intros Hr Hp. unfold updateUserTier. rewrite Hr, Hp.
  destruct (_ >=? _); [done|]. f_equal.
  apply map_eq. intros k. rewrite lookup_alter. case_decide as E.
  - subst k. by rewrite lookup_insert_eq, Hp.
  - by rewrite lookup_insert_ne.
Qed.

Lemma updateUserTier_skipped userId tier dir :
  (unreadable dir = true ∨ profiles dir !! userId = None) →
  updateUserTier userId tier dir = dir.
Proof.
  intros H. unfold updateUserTier. destruct (unreadable dir); [done|].
  destruct H as [?| ->]; done.
Qed.

Lemma tierRank_requested tier :
  tierRank (Some (tier_name tier)) = match tier with founder => 3 | beta_tester => 2 | user => 1 end.
Proof. by destruct tier. Qed.

Lemma tierRank_name name tier :
  tierRank name = tierRank (Some (tier_name tier)) → name = Some (tier_name tier).
Proof.
  rewrite tierRank_requested. destruct name as [name|]; simpl; [|by destruct tier].
  repeat case_decide; subst; destruct tier; simpl; intros; done || lia.
Qed.

(** X17. [updateUserTier] only ever raises a user's tier: the stored rank
    (founder 3, beta_tester 2, user 1, anything else 0) of a profile that
    can be read becomes the larger of the stored and the requested rank,
    and the stored tier stays as it is unless the requested one ranks
    strictly higher; a founder stays a founder.  No profile is created,
    none of another user is touched, a second identical call changes
    nothing, and two calls leave the same tier in either order. *)
Theorem updateUserTier_only_upgrades userId tier dir :
  let dir' := updateUserTier userId tier dir in
  (∀ other, other ≠ userId → profiles dir' !! other = profiles dir !! other)
  ∧ (profiles dir !! userId = None → dir' = dir)
  ∧ (unreadable dir = true → dir' = dir)
  ∧ (∀ p, profiles dir !! userId = Some p →
       (tierRank (Some (tier_name tier)) ≤ tierRank (user_tier p) → dir' = dir)
       ∧ (user_tier p = Some "founder" → dir' = dir)
       ∧ (unreadable dir = false →
          stored_rank userId dir'
          = Some (Z.max (tierRank (user_tier p)) (tierRank (Some (tier_name tier))))))
  ∧ updateUserTier userId tier dir' = dir'
  ∧ (∀ tier2,
       user_tier <$> profiles (updateUserTier userId tier2 dir') !! userId
       = user_tier <$> profiles (updateUserTier userId tier
                                   (updateUserTier userId tier2 dir)) !! userId).
Proof.
  intros dir'. subst dir'.
  destruct (unreadable dir) eqn:Hr.
  { rewrite !updateUserTier_skipped by (by left).
    split; [done|]. split; [done|]. split; [done|]. split.
    - intros p Hp. split; [done|]. split; [done|]. discriminate.
    - split; [done|]. intros tier2. by rewrite !updateUserTier_skipped by (by left). }
  destruct (profiles dir !! userId) as [p|] eqn:Hp.
  2: { rewrite !updateUserTier_skipped by (by right).
       split; [done|]. split; [done|]. split; [done|]. split; [discriminate|].
       split; [done|]. intros tier2. by rewrite !updateUserTier_skipped by (by right). }
  assert (∀ t d q, unreadable d = false → profiles d !! userId = Some q →
            unreadable (updateUserTier userId t d) = false
            ∧ profiles (updateUserTier userId t d) !! userId
              = Some (if tierRank (user_tier q) >=? tierRank (Some (tier_name t)) then q
                      else {| user_tier := Some (tier_name t);
                              profile_updated_at := Some (today d) |})) as Hstep.
  { intros t d q Hd Hq. rewrite (updateUserTier_run userId t d q Hd Hq).
    destruct (_ >=? _); simpl; [done|]. by rewrite lookup_insert_eq. }
  split; [|split; [discriminate|split; [discriminate|split; [|split]]]].
  - intros other Hne. rewrite (updateUserTier_run userId tier dir p Hr Hp).
    destruct (_ >=? _); simpl; [done|]. by rewrite lookup_insert_ne.
  - intros q [= <-]. rewrite (updateUserTier_run userId tier dir p Hr Hp).
    split; [|split].
    + intros Hle. by rewrite (proj2 (Z.geb_le _ _) Hle).
    + intros ->. rewrite tierRank_requested. by destruct tier.
    + intros _. unfold stored_rank.
      destruct (Z.geb_spec (tierRank (user_tier p)) (tierRank (Some (tier_name tier)))).
      * rewrite Hp. cbn [fmap option_fmap option_map]. f_equal. lia.
      * cbn [profiles]. rewrite lookup_insert_eq. cbn [fmap option_fmap option_map user_tier].
        f_equal. lia.
  - destruct (Hstep tier dir p Hr Hp) as [Hr1 Hp1].
    rewrite (updateUserTier_run userId tier _ _ Hr1 Hp1).
    destruct (Z.geb_spec (tierRank (user_tier p)) (tierRank (Some (tier_name tier)))).
    + by rewrite (proj2 (Z.geb_le _ _)) by lia.
    + simpl. by rewrite (proj2 (Z.geb_le _ _)) by lia.
  - intros tier2.
    destruct (Hstep tier dir p Hr Hp) as [Hr1 Hp1].
    destruct (Hstep tier2 dir p Hr Hp) as [Hr2 Hp2].
    destruct (Hstep tier2 _ _ Hr1 Hp1) as [_ ->].
    destruct (Hstep tier _ _ Hr2 Hp2) as [_ ->].
    cbn [fmap option_fmap option_map]. f_equal.
    pose proof (tierRank_name (Some (tier_name tier2)) tier) as Hn.
    pose proof (tierRank_name (user_tier p) tier) as Hn1.
    pose proof (tierRank_name (user_tier p) tier2) as Hn2.
    destruct (Z.geb_spec (tierRank (user_tier p)) (tierRank (Some (tier_name tier))));
      destruct (Z.geb_spec (tierRank (user_tier p)) (tierRank (Some (tier_name tier2))));
      cbn iota; cbn [user_tier];
      repeat match goal with
             | |- context [?x >=? ?y] => destruct (Z.geb_spec x y)
             end; cbn [user_tier]; try done; try lia.
    all: first [apply Hn; lia | symmetry; apply Hn; lia
               | apply Hn1; lia | symmetry; apply Hn1; lia
               | apply Hn2; lia | symmetry; apply Hn2; lia].
Qed.

(** *** What the webhook answers *)

Section WebhookAnswers.

Context {Payload : Type}.
Variable constructWebhookEvent : string → string → Outcome (Webhook.StripeEvent Payload).
Variable handlers : Webhook.EventHandlers Payload.

(** X18. The webhook function never throws: whatever the request, the
    handlers and the store, it answers with status 200, 400, 405 or 500
    (a failed lookup of the event record comes back as an error result,
    which [isEventProcessed] reads as not processed, and whatever a
    handler or the recording throws is caught).  A request that is not a
    POST is answered 405; a POST without signature or body 400 [Missing
    signature or body]; a POST whose signature does not verify 400
    [Invalid signature]; and none of these touches the store, no handler
    having run. *)
Theorem handler_always_answers event w :
  ∃ response w',
    Webhook.handler constructWebhookEvent handlers event w = (Returned response, w')
    ∧ Webhook.statusCode response ∈ [200; 400; 405; 500]
    ∧ (Webhook.httpMethod event ≠ "POST" →
       response = Webhook.jsonResponse 405 (Webhook.ErrorBody "Method not allowed"))
    ∧ (Webhook.httpMethod event = "POST" →
       Webhook.falsy (Webhook.stripe_signature event) = true
       ∨ Webhook.falsy (Webhook.body event) = true →
       response = Webhook.jsonResponse 400 (Webhook.ErrorBody "Missing signature or body"))
    ∧ (Webhook.httpMethod event = "POST" →
       Webhook.falsy (Webhook.stripe_signature event) = false →
       Webhook.falsy (Webhook.body event) = false →
       ∀ e, constructWebhookEvent (default "" (Webhook.body event))
              (default "" (Webhook.stripe_signature event)) = Thrown e →
       response = Webhook.jsonResponse 400 (Webhook.ErrorBody "Invalid signature"))
    ∧ (Webhook.statusCode response ∈ [400; 405] → w' = w).
Proof.
  unfold Webhook.handler.
  destruct (decide (Webhook.httpMethod event ≠ "POST")) as [Hm|Hm].
  { eexists _, _. split; [reflexivity|]. simpl.
    split; [set_solver|]. split; [done|]. split; [done|]. split; [done|]. done. }
  apply dec_stable in Hm.
  destruct (Webhook.falsy (Webhook.stripe_signature event)) eqn:Hs; simpl.
  { eexists _, _. split; [reflexivity|]. simpl.
    split; [set_solver|]. split; [done|]. split; [done|]. split; [discriminate|]. done. }
  destruct (Webhook.falsy (Webhook.body event)) eqn:Hb; simpl.
  { eexists _, _. split; [reflexivity|]. simpl.
    split; [set_solver|]. split; [done|]. split; [done|]. split; [discriminate|]. done. }
  destruct (constructWebhookEvent _ _) as [stripeEvent|e] eqn:Hc.
  2: { eexists _, _. split; [reflexivity|]. simpl.
       split; [set_solver|]. split; [done|]. split; [by intros _ [?|?]|].
       split; [done|]. done. }
  rewrite (bind_returned _ _ _ _ _ (isEventProcessed_run _ w)).
  destruct (bool_decide _).
  { eexists _, _. split; [reflexivity|]. simpl.
    split; [set_solver|]. split; [done|]. split; [by intros _ [?|?]|].
    split; [discriminate|]. intros H.
    apply elem_of_cons in H as [?|H]; [done|]. apply elem_of_cons in H as [?|H]; [done|].
    by apply elem_of_nil in H. }
  unfold try_catch. rewrite run_bind.
  destruct (Webhook.dispatch handlers stripeEvent w) as [[[]|e] w1].
  - eexists _, _. split; [reflexivity|]. simpl.
    split; [set_solver|]. split; [done|]. split; [by intros _ [?|?]|].
    split; [discriminate|]. intros H.
    apply elem_of_cons in H as [?|H]; [done|]. apply elem_of_cons in H as [?|H]; [done|].
    by apply elem_of_nil in H.
  - eexists _, _. split; [reflexivity|]. simpl.
    split; [set_solver|]. split; [done|]. split; [by intros _ [?|?]|].
    split; [discriminate|]. intros H.
    apply elem_of_cons in H as [?|H]; [done|]. apply elem_of_cons in H as [?|H]; [done|].
    by apply elem_of_nil in H.
Qed.

(** X19. A verified event of a type the switch has no case for is
    acknowledged without any handler running: unless it is found already
    recorded, the answer is 200 [received] and all that happens to the
    store is that the event is recorded as processed, whatever the
    handlers are. *)
Theorem handler_unhandled_type event stripeEvent w :
  Webhook.delivers constructWebhookEvent event stripeEvent →
  Webhook.type stripeEvent ∉ Events.handled_types →
  Webhook.dispatch handlers stripeEvent w = (Returned tt, w)
  ∧ (stripe_events w !! Webhook.id stripeEvent = None →
     Webhook.handler constructWebhookEvent handlers event w
     = (Returned (Webhook.jsonResponse 200 (Webhook.Received false)),
        with_stripe_events
          (insert (Webhook.id stripeEvent)
             {| ev_type := Webhook.type stripeEvent; ev_payload := None |}) w))
  ∧ (readable "stripe_events" w → is_Some (stripe_events w !! Webhook.id stripeEvent) →
     Webhook.handler constructWebhookEvent handlers event w
     = (Returned (Webhook.jsonResponse 200 (Webhook.Received true)), w)).
Proof.
  intros Hd Ht.
  assert (Webhook.dispatch handlers stripeEvent w = (Returned tt, w)) as Hdisp.
  { unfold Webhook.dispatch, Events.handled_types in *.
    repeat (rewrite decide_False; [|intros E; apply Ht; rewrite E; set_solver]).
    reflexivity. }
  split; [exact Hdisp|]. split.
  - intros Hnone. rewrite (handler_run _ _ _ _ _ Hd), Hdisp.
    rewrite bool_decide_eq_false_2; [|intros [_ Hs]; rewrite Hnone in Hs; by destruct Hs].
    unfold markEventProcessed, modify. simpl. by rewrite Hnone.
  - intros Hr Hs. rewrite (handler_run _ _ _ _ _ Hd). by rewrite bool_decide_eq_true_2.
Qed.

End WebhookAnswers.

(** *** The subscription handlers *)

Import Handlers.

Lemma only_caps_refl w : only_caps w w.
Proof. split; [done|]. intros u. by destruct (user_credits w !! u). Qed.

Section SubscriptionHandlers.

Variable getUserIdFromStripeCustomer : string → option string.
Variable findSubscriptionByPriceId : string → option SubscriptionPlan.
Variable findSubscriptionPlan : string → option string → option SubscriptionPlan.
Variable coupon_configured : bool.
Variable getActiveSubscriptions : string → Outcome (list string).

Lemma recalculateSubscriptionCap_only_caps userId w :
  only_caps w
    (recalculateSubscriptionCap findSubscriptionByPriceId findSubscriptionPlan userId w).2.
Proof.
  rewrite recalculateSubscriptionCap_run.
  destruct (read_error w "app_subscriptions"); [apply only_caps_refl|].
  split; [done|]. intros u. simpl. rewrite lookup_alter. case_decide as E.
  - subst u. by destruct (user_credits w !! userId).
  - by destruct (user_credits w !! u).
Qed.

Lemma applyBundleDiscountIfEligible_world customerId userId w :
  (applyBundleDiscountIfEligible coupon_configured getActiveSubscriptions customerId userId w).2
  = w.
Proof.
  unfold applyBundleDiscountIfEligible. destruct coupon_configured; [|done]. simpl.
  rewrite run_bind. simpl. destruct (negb _); [done|].
  by destruct (getActiveSubscriptions customerId).
Qed.

Lemma removeBundleDiscountIfIneligible_world customerId userId w :
  (removeBundleDiscountIfIneligible coupon_configured getActiveSubscriptions customerId userId w).2
  = w.
Proof.
  unfold removeBundleDiscountIfIneligible. destruct coupon_configured; [|done]. simpl.
  rewrite run_bind. simpl.
  match goal with |- context [if ?b then _ else _] => destruct b end; [done|].
  by destruct (getActiveSubscriptions customerId).
Qed.

(** The record is written and the cap recalculated: the common start of
    the subscription handlers. *)
Lemma sync_and_recalculate userId subscription appKey w :
  ∃ cap w2,
    (syncAppSubscription userId subscription appKey;;
     recalculateSubscriptionCap findSubscriptionByPriceId findSubscriptionPlan userId) w
    = (Returned cap, w2)
    ∧ only_caps w w2
    ∧ read_error w2 = read_error w
    ∧ clock w2 = clock w
    ∧ app_subscriptions w2
      = upsert_app_subscription
          {| sub_user_id := userId; sub_app_key := appKey;
             sub_stripe_price_id := items_price_id subscription;
             sub_status := Billing.recorded_status subscription |} (app_subscriptions w).
Proof.
  rewrite run_bind, syncAppSubscription_run.
  set (w1 := with_app_subscriptions _ w).
  pose proof (recalculateSubscriptionCap_only_caps userId w1) as Hcaps.
  rewrite recalculateSubscriptionCap_run in *.
  destruct (read_error w1 "app_subscriptions"); eexists _, _; (split; [reflexivity|]);
    (split; [exact Hcaps|]); done.
Qed.

Ltac known_user ev :=
  destruct (truthy (customer ev)) as [customerId|]; [|apply only_caps_refl];
  destruct (truthy (getUserIdFromStripeCustomer customerId)) as [userId|];
    [|apply only_caps_refl].

(** X20. The subscription handlers never move credits when a subscription
    is deleted, paused or resumed, nor when it is updated without a trial
    having ended or into status [active]: whether the handler returns or
    throws, the transaction log is as it was and every account keeps its
    three balances, its trial expiry and its lifetime counters; all that
    can change in an account is the cap.  Credits granted under a
    subscription stay with the user when it ends. *)
Theorem subscription_handlers_keep_balances ev w :
  only_caps w
    (handleSubscriptionDeleted getUserIdFromStripeCustomer findSubscriptionByPriceId
       findSubscriptionPlan coupon_configured getActiveSubscriptions ev w).2
  ∧ only_caps w
      (handleSubscriptionPaused getUserIdFromStripeCustomer findSubscriptionByPriceId
         findSubscriptionPlan coupon_configured getActiveSubscriptions ev w).2
  ∧ only_caps w
      (handleSubscriptionResumed getUserIdFromStripeCustomer findSubscriptionByPriceId
         findSubscriptionPlan coupon_configured getActiveSubscriptions ev w).2
  ∧ (trial_ended ev = false ∨ status (synced ev) = "active" →
     only_caps w
       (handleSubscriptionUpdated getUserIdFromStripeCustomer findSubscriptionByPriceId
          findSubscriptionPlan coupon_configured getActiveSubscriptions ev w).2).
Proof.
  split; [|split; [|split]].
  - unfold handleSubscriptionDeleted. known_user ev.
    rewrite <- bind_assoc.
    destruct (sync_and_recalculate userId (synced ev) (default "keywords" (metadata_app_key ev)) w)
      as (cap & w2 & Hrun & Hcaps & _).
    rewrite (bind_returned _ _ _ _ _ Hrun).
    by rewrite removeBundleDiscountIfIneligible_world.
  - unfold handleSubscriptionPaused. known_user ev.
    rewrite <- bind_assoc.
    destruct (sync_and_recalculate userId (synced ev) (default "keywords" (metadata_app_key ev)) w)
      as (cap & w2 & Hrun & Hcaps & _).
    rewrite (bind_returned _ _ _ _ _ Hrun).
    by rewrite removeBundleDiscountIfIneligible_world.
  - unfold handleSubscriptionResumed. known_user ev.
    rewrite <- bind_assoc.
    destruct (sync_and_recalculate userId (synced ev) (default "keywords" (metadata_app_key ev)) w)
      as (cap & w2 & Hrun & Hcaps & _).
    rewrite (bind_returned _ _ _ _ _ Hrun).
    by rewrite applyBundleDiscountIfEligible_world.
  - intros Hquiet. unfold handleSubscriptionUpdated. known_user ev.
    rewrite <- bind_assoc.
    destruct (sync_and_recalculate userId (synced ev) (default "keywords" (metadata_app_key ev)) w)
      as (cap & w2 & Hrun & Hcaps & _).
    rewrite (bind_returned _ _ _ _ _ Hrun).
    rewrite run_bind.
    pose proof (applyBundleDiscountIfEligible_world customerId userId w2) as Ha.
    destruct (applyBundleDiscountIfEligible _ _ _ _ w2) as [[[]|e] w3]; simpl in Ha; subst w3;
      [|done].
    rewrite run_bind.
    pose proof (removeBundleDiscountIfIneligible_world customerId userId w2) as Hrm.
    destruct (removeBundleDiscountIfIneligible _ _ _ _ w2) as [[[]|e] w3]; simpl in Hrm; subst w3;
      [|done].
    destruct (trial_ended ev); [|done].
    destruct Hquiet as [?|Hactive]; [done|]. by rewrite decide_True.
Qed.

Lemma applyBundleDiscountIfEligible_returns customerId userId w :
  (coupon_configured = true → ∃ subs, getActiveSubscriptions customerId = Returned subs) →
  applyBundleDiscountIfEligible coupon_configured getActiveSubscriptions customerId userId w
  = (Returned tt, w).
Proof.
  intros Hlist. unfold applyBundleDiscountIfEligible. destruct coupon_configured; [|done].
  destruct (Hlist eq_refl) as [subs Hsubs]. simpl. rewrite run_bind. simpl.
  destruct (negb _); [done|]. by rewrite Hsubs.
Qed.

Lemma removeBundleDiscountIfIneligible_returns customerId userId w :
  (coupon_configured = true → ∃ subs, getActiveSubscriptions customerId = Returned subs) →
  removeBundleDiscountIfIneligible coupon_configured getActiveSubscriptions customerId userId w
  = (Returned tt, w).
Proof.
  intros Hlist. unfold removeBundleDiscountIfIneligible. destruct coupon_configured; [|done].
  destruct (Hlist eq_refl) as [subs Hsubs]. simpl. rewrite run_bind. simpl.
  match goal with |- context [if ?b then _ else _] => destruct b end; [done|].
  by rewrite Hsubs.
Qed.

(** With the coupon configured, one of the two bundle functions lists the
    customer's subscriptions, whichever way the eligibility goes. *)
Lemma bundle_listing_fails customerId userId e w :
  coupon_configured = true →
  getActiveSubscriptions customerId = Thrown e →
  (applyBundleDiscountIfEligible coupon_configured getActiveSubscriptions customerId userId;;
   removeBundleDiscountIfIneligible coupon_configured getActiveSubscriptions customerId userId) w
  = (Thrown e, w).
Proof.
  intros Hc Hlist. rewrite run_bind.
  unfold applyBundleDiscountIfEligible, removeBundleDiscountIfIneligible.
  rewrite Hc. simpl. rewrite !run_bind. simpl. rewrite Hlist.
  match goal with |- context [negb ?b] => destruct b eqn:E end; simpl; [done|].
  rewrite run_bind. simpl. by rewrite E.
Qed.

(** X21. [handleSubscriptionUpdated] for a known customer whose
    subscription has a trial end and a status other than [trialing] and
    [active] (canceled, past_due, unpaid, ...) expires the user's trial
    credits: with trial credits stored, the handler returns, the stored
    trial balance is 0 and the expiry cleared, subscription and top-up
    balances and the lifetime counters are as before, and the one row
    appended is a [trial_expiry] row of minus the stored trial balance for
    the subscription's app (or [keywords] without app metadata), its
    description naming the status. *)
Theorem handleSubscriptionUpdated_expires_trial ev w customerId userId d :
  truthy (customer ev) = Some customerId →
  truthy (getUserIdFromStripeCustomer customerId) = Some userId →
  trial_ended ev = true →
  status (synced ev) ≠ "active" →
  readable "user_credits" w →
  user_credits w !! userId = Some d →
  default 0 (trial_balance d) ≠ 0 →
  (coupon_configured = true → ∃ subs, getActiveSubscriptions customerId = Returned subs) →
  ∃ w' d' row,
    handleSubscriptionUpdated getUserIdFromStripeCustomer findSubscriptionByPriceId
      findSubscriptionPlan coupon_configured getActiveSubscriptions ev w = (Returned tt, w')
    ∧ user_credits w' !! userId = Some d'
    ∧ trial_balance d' = Some 0
    ∧ trial_expires_at d' = None
    ∧ subscription_balance d' = subscription_balance d
    ∧ topup_balance d' = topup_balance d
    ∧ lifetime_earned d' = lifetime_earned d
    ∧ lifetime_spent d' = lifetime_spent d
    ∧ credit_transactions w' = credit_transactions w ++ [row]
    ∧ tx_user_id row = userId
    ∧ tx_type row = "trial_expiry"
    ∧ tx_pool row = trial
    ∧ tx_amount row = - default 0 (trial_balance d)
    ∧ tx_balance_after row = subscription_balance d + topup_balance d
    ∧ tx_app_key row = Some (default "keywords" (metadata_app_key ev))
    ∧ tx_description row
      = Some ("Trial credits expired: Trial ended with status: " +:+ status (synced ev)).
Proof.
  intros Hc Hu Hended Hstatus Hr Hd Htrial Hlist.
  unfold handleSubscriptionUpdated. rewrite Hc, Hu, Hended. rewrite decide_False by done.
  rewrite <- bind_assoc.
  destruct (sync_and_recalculate userId (synced ev) (default "keywords" (metadata_app_key ev)) w)
    as (cap & w2 & Hrun & [Hlog Hcaps] & Herr & Hclock & _).
  rewrite (bind_returned _ _ _ _ _ Hrun).
  rewrite (bind_returned _ _ _ _ _ (applyBundleDiscountIfEligible_returns _ _ _ Hlist)).
  rewrite (bind_returned _ _ _ _ _ (removeBundleDiscountIfIneligible_returns _ _ _ Hlist)).
  specialize (Hcaps userId). rewrite Hd in Hcaps.
  destruct (user_credits w2 !! userId) as [d2|] eqn:Hd2; [|done].
  destruct Hcaps as (Hs & Ht & Htb & Hte & Hle & Hls & Hla).
  assert (readable "user_credits" w2) as Hr2 by (unfold readable; by rewrite Herr).
  pose proof (expireTrialCredits_run userId (default "keywords" (metadata_app_key ev))
                ("Trial ended with status: " +:+ status (synced ev)) w2 d2 Hr2 Hd2) as Hexp.
  cbv zeta in Hexp. rewrite decide_False in Hexp by (by rewrite Htb).
  eexists _, _, _. split; [exact Hexp|]. simpl.
  split; [apply lookup_insert_eq|]. simpl. rewrite Hlog, Hs, Ht, Htb.
  repeat split; done.
Qed.

(** X22. With the bundle coupon configured, [handleSubscriptionUpdated]
    for a known customer depends on Stripe answering the listing of the
    customer's subscriptions: if that throws, the handler throws the same
    exception after the subscription record and the cap have been written
    and before any trial credits are expired, so that balances and log are
    as they were. *)
Theorem handleSubscriptionUpdated_listing_fails ev w customerId userId e :
  truthy (customer ev) = Some customerId →
  truthy (getUserIdFromStripeCustomer customerId) = Some userId →
  coupon_configured = true →
  getActiveSubscriptions customerId = Thrown e →
  ∃ w',
    handleSubscriptionUpdated getUserIdFromStripeCustomer findSubscriptionByPriceId
      findSubscriptionPlan coupon_configured getActiveSubscriptions ev w = (Thrown e, w')
    ∧ only_caps w w'
    ∧ app_subscriptions w'
      = upsert_app_subscription
          {| sub_user_id := userId;
             sub_app_key := default "keywords" (metadata_app_key ev);
             sub_stripe_price_id := items_price_id (synced ev);
             sub_status := Billing.recorded_status (synced ev) |} (app_subscriptions w).
Proof.
  intros Hc Hu Hconf Hlist.
  unfold handleSubscriptionUpdated. rewrite Hc, Hu.
  rewrite <- bind_assoc.
  destruct (sync_and_recalculate userId (synced ev) (default "keywords" (metadata_app_key ev)) w)
    as (cap & w2 & Hrun & Hcaps & _ & _ & Hsubs).
  rewrite (bind_returned _ _ _ _ _ Hrun).
  rewrite <- bind_assoc.
  rewrite (bind_thrown _ _ _ _ _ (bundle_listing_fails customerId userId e w2 Hconf Hlist)).
  by exists w2.
Qed.

End SubscriptionHandlers.

Lemma handler_unhandled_type_witness :
  Webhook.handler Cases.verify_created Samples.topup_handlers Samples.delivery
    Samples.empty_store
  = (Returned (Webhook.jsonResponse 200 (Webhook.Received false)),
     with_stripe_events
       (insert "evt_2" {| ev_type := "customer.created"; ev_payload := None |})
       Samples.empty_store).
Proof.
  assert (Webhook.delivers Cases.verify_created Samples.delivery Cases.customer_created) as Hd
    by (repeat split).
  assert (Webhook.type Cases.customer_created ∉ Events.handled_types) as Ht.
  { intros H. unfold Events.handled_types in H. simpl in H.
    repeat (apply elem_of_cons in H as [H|H]; [discriminate|]). by apply elem_of_nil in H. }
  destruct (handler_unhandled_type Cases.verify_created Samples.topup_handlers Samples.delivery
              Cases.customer_created Samples.empty_store Hd Ht) as (_ & Hrun & _).
  apply Hrun. reflexivity.
Defined.

Lemma handleSubscriptionUpdated_expires_trial_witness :
  ∃ w',
    handleSubscriptionUpdated Cases.customers Samples.no_plan_by_price_id
      Samples.no_plan_by_app_key true Cases.listing_up Cases.trial_canceled Cases.on_trial
    = (Returned tt, w')
    ∧ (fun r => (tx_type r, tx_amount r, tx_app_key r, tx_description r))
        <$> credit_transactions w'
      = [ ("trial_expiry", -30, Some "labs",
           Some "Trial credits expired: Trial ended with status: canceled") ]
    ∧ (fun d => (subscription_balance d, topup_balance d, trial_balance d))
        <$> user_credits w' !! "u" = Some (100, 10, Some 0).
Proof.
  destruct (handleSubscriptionUpdated_expires_trial Cases.customers Samples.no_plan_by_price_id
              Samples.no_plan_by_app_key true Cases.listing_up Cases.trial_canceled
              Cases.on_trial "cus_1" "u" (Samples.account 100 10 (Some 30) (Some 2000) 900))
    as (w' & d' & row & Hrun & Hd' & Htb & _ & Hs & Htop & _ & _ & Hlog & _ & Hty & _ & Ham
        & _ & Hk & Hdesc);
    try reflexivity; try (vm_compute; discriminate); [by exists []|].
  exists w'. split; [exact Hrun|].
  rewrite Hlog, Hd'. simpl. rewrite Hty, Ham, Hk, Hdesc, Hs, Htop, Htb. split; reflexivity.
Defined.

Lemma handleSubscriptionUpdated_listing_fails_witness :
  ∃ w',
    handleSubscriptionUpdated Cases.customers Samples.no_plan_by_price_id
      Samples.no_plan_by_app_key true Cases.listing_down Cases.trial_canceled Cases.on_trial
    = (Thrown (HttpError 500 "An error occurred with our connection to Stripe" NoDetails), w')
    ∧ credit_transactions w' = []
    ∧ sub_status <$> app_subscriptions w' = ["canceled"].
Proof.
  destruct (handleSubscriptionUpdated_listing_fails Cases.customers Samples.no_plan_by_price_id
              Samples.no_plan_by_app_key true Cases.listing_down Cases.trial_canceled
              Cases.on_trial "cus_1" "u"
              (HttpError 500 "An error occurred with our connection to Stripe" NoDetails))
    as (w' & Hrun & [Hlog _] & Hsubs); try reflexivity.
  exists w'. split; [exact Hrun|]. split; [exact Hlog|]. rewrite Hsubs. reflexivity.
Defined.

(** *** The invoice handler *)

(** What a merge and an allocation do to an account that exists. *)
Lemma mergeTrialCredits_account userId appKey w d :
  readable "user_credits" w →
  user_credits w !! userId = Some d →
  ∃ res w1 d1,
    mergeTrialCredits userId appKey w = (Returned res, w1)
    ∧ read_error w1 = read_error w
    ∧ clock w1 = clock w
    ∧ app_subscriptions w1 = app_subscriptions w
    ∧ user_credits w1 !! userId = Some d1
    ∧ subscription_balance d1
      = subscription_balance d
        + Z.min (default 0 (trial_balance d))
            (Z.max 0 (subscription_cap d - subscription_balance d))
    ∧ default 0 (trial_balance d1) = 0
    ∧ topup_balance d1 = topup_balance d
    ∧ subscription_cap d1 = subscription_cap d
    ∧ lifetime_earned d1 = lifetime_earned d
    ∧ lifetime_spent d1 = lifetime_spent d.
Proof.
  intros Hr Hu. pose proof (mergeTrialCredits_run userId appKey w d Hr Hu) as Hrun.
  cbv zeta in Hrun. destruct (decide (default 0 (trial_balance d) = 0)) as [E|E].
  - eexists _, w, d. split; [exact Hrun|]. rewrite E. repeat split; try done. lia.
  - eexists _, _, _. split; [exact Hrun|]. simpl. rewrite lookup_insert_eq.
    repeat split; reflexivity.
Qed.

Lemma allocateSubscriptionCredits_account userId amount appKey referenceId w d :
  readable "user_credits" w →
  user_credits w !! userId = Some d →
  ∃ res w1 d1,
    allocateSubscriptionCredits userId amount appKey referenceId w = (Returned res, w1)
    ∧ read_error w1 = read_error w
    ∧ clock w1 = clock w
    ∧ app_subscriptions w1 = app_subscriptions w
    ∧ user_credits w1 !! userId = Some d1
    ∧ allocated res = Z.min amount (Z.max 0 (subscription_cap d - subscription_balance d))
    ∧ subscription_balance d1 = subscription_balance d + allocated res
    ∧ trial_balance d1 = trial_balance d
    ∧ trial_expires_at d1 = trial_expires_at d
    ∧ topup_balance d1 = topup_balance d
    ∧ subscription_cap d1 = subscription_cap d
    ∧ lifetime_earned d1 = lifetime_earned d + allocated res
    ∧ lifetime_spent d1 = lifetime_spent d
    ∧ (allocated res = 0 → credit_transactions w1 = credit_transactions w)
    ∧ (allocated res ≠ 0 →
       ∃ row, credit_transactions w1 = credit_transactions w ++ [row]
              ∧ tx_type row = "subscription_allocation"
              ∧ tx_amount row = allocated res
              ∧ tx_app_key row = Some appKey
              ∧ tx_reference_id row = referenceId).
Proof.
  intros Hr Hu.
  destruct (allocateSubscriptionCredits_run userId amount appKey referenceId w Hr)
    as (Hrun & Hsame & _).
  rewrite Hu in Hrun. cbn [default] in Hrun.
  change (id d) with d in Hrun.
  destruct (decide (Z.min amount (Z.max 0 (subscription_cap d - subscription_balance d)) = 0))
    as [E|E].
  - rewrite Hsame in Hrun by (by rewrite Hu).
    eexists _, w, d. split; [exact Hrun|]. simpl. rewrite E.
    repeat split; try done; try lia.
  - eexists _, _, _. split; [exact Hrun|]. simpl. rewrite lookup_insert_eq.
    do 12 (split; [reflexivity|]). split; [done|]. intros _. eexists. split; [reflexivity|]. done.
Qed.

Section InvoiceHandler.

Variable getUserIdFromStripeCustomer : string → option string.
Variable subscriptions_retrieve : string → Outcome RetrievedSubscription.
Variable getMonthlyCreditsForSubscription : string → option string → Z.
Variable findSubscriptionByPriceId : string → option SubscriptionPlan.
Variable findSubscriptionPlan : string → option string → option SubscriptionPlan.

(** The tail of the handler: the allocation, then the cap. *)
Lemma allocate_then_recalculate userId amount appKey referenceId w d :
  readable "user_credits" w →
  readable "app_subscriptions" w →
  user_credits w !! userId = Some d →
  ∃ w' d' allocated,
    (allocateSubscriptionCredits userId amount appKey referenceId;;
     recalculateSubscriptionCap findSubscriptionByPriceId findSubscriptionPlan userId;;
     mret tt) w = (Returned tt, w')
    ∧ user_credits w' !! userId = Some d'
    ∧ allocated = Z.min amount (Z.max 0 (subscription_cap d - subscription_balance d))
    ∧ subscription_balance d' = subscription_balance d + allocated
    ∧ trial_balance d' = trial_balance d
    ∧ trial_expires_at d' = trial_expires_at d
    ∧ topup_balance d' = topup_balance d
    ∧ lifetime_earned d' = lifetime_earned d + allocated
    ∧ lifetime_spent d' = lifetime_spent d
    ∧ subscription_cap d'
      = expected_cap findSubscriptionByPriceId findSubscriptionPlan
          (qualifying_subscriptions userId w)
    ∧ (allocated = 0 → credit_transactions w' = credit_transactions w)
    ∧ (allocated ≠ 0 →
       ∃ row, credit_transactions w' = credit_transactions w ++ [row]
              ∧ tx_type row = "subscription_allocation"
              ∧ tx_amount row = allocated
              ∧ tx_app_key row = Some appKey
              ∧ tx_reference_id row = referenceId).
Proof.
  intros Hr Ha Hu.
  destruct (allocateSubscriptionCredits_account userId amount appKey referenceId w d Hr Hu)
    as (res & w1 & d1 & Hrun & Herr & Hclock & Hsubs & Hu1 & Hal & Hs & Htb & Hte & Htop & Hcap
        & Hle & Hls & Hlog0 & Hlog1).
  rewrite (bind_returned _ _ _ _ _ Hrun).
  rewrite run_bind, recalculateSubscriptionCap_run.
  unfold readable in Ha. rewrite Herr, Ha. cbn [mret task_ret].
  eexists _, _, _. split; [reflexivity|].
  split; [simpl; rewrite lookup_alter, decide_True by done; rewrite Hu1; reflexivity|].
  split; [reflexivity|]. simpl. rewrite <- Hal.
  unfold qualifying_subscriptions. rewrite Hsubs.
  repeat split; try done.
Qed.

(** X23. A renewal invoice ([billing_reason] [subscription_cycle]) of a
    known customer whose subscription can be retrieved first merges the
    trial credits left, then allocates the plan's monthly credits, then
    recalculates the cap.  On an account within its cap, with a trial
    balance and monthly credits of at least 0, the subscription balance
    becomes [min(cap, balance + trial + monthly)], where [cap] is the cap
    stored before the handler ran: the recalculated cap is written last and
    does not clip or widen this allocation.  The trial pool is left empty,
    the top-up pool untouched, and [lifetimeEarned] grows by the allocated
    monthly credits only. *)
Theorem handleInvoicePaymentSucceeded_renewal invoice w subscriptionId customerId userId
    retrieved d :
  referenced (subscription_ref invoice) = Some subscriptionId →
  truthy (invoice_customer invoice) = Some customerId →
  truthy (getUserIdFromStripeCustomer customerId) = Some userId →
  subscriptions_retrieve subscriptionId = Returned retrieved →
  billing_reason invoice = Some "subscription_cycle" →
  readable "user_credits" w →
  readable "app_subscriptions" w →
  user_credits w !! userId = Some d →
  subscription_balance d ≤ subscription_cap d →
  0 ≤ default 0 (trial_balance d) →
  let appKey := default "keywords" (retrieved_app_key retrieved) in
  let monthly := getMonthlyCreditsForSubscription appKey (retrieved_price_id retrieved) in
  0 ≤ monthly →
  ∃ w' d',
    handleInvoicePaymentSucceeded getUserIdFromStripeCustomer subscriptions_retrieve
      getMonthlyCreditsForSubscription findSubscriptionByPriceId findSubscriptionPlan invoice w
    = (Returned tt, w')
    ∧ user_credits w' !! userId = Some d'
    ∧ subscription_balance d'
      = Z.min (subscription_cap d)
          (subscription_balance d + default 0 (trial_balance d) + monthly)
    ∧ default 0 (trial_balance d') = 0
    ∧ topup_balance d' = topup_balance d
    ∧ lifetime_spent d' = lifetime_spent d
    ∧ lifetime_earned d'
      = lifetime_earned d
        + (subscription_balance d' - subscription_balance d
           - Z.min (default 0 (trial_balance d)) (subscription_cap d - subscription_balance d))
    ∧ subscription_cap d'
      = expected_cap findSubscriptionByPriceId findSubscriptionPlan
          (qualifying_subscriptions userId w).
Proof.
  intros Href Hc Hu Hret Hreason Hr Ha Hd Hcap Htrial appKey monthly Hmonthly.
  unfold handleInvoicePaymentSucceeded. rewrite Href, Hc, Hu, Hret, Hreason.
  rewrite decide_False by (by intros [[=] _]). rewrite decide_True by done.
  fold appKey.
  destruct (mergeTrialCredits_account userId appKey w d Hr Hd)
    as (res & w1 & d1 & Hmerge & Herr1 & Hclock1 & Hsubs1 & Hd1 & Hs1 & Htb1 & Htop1 & Hcap1
        & Hle1 & Hls1).
  assert (try_catch
            (mergeTrialCredits userId appKey;;
             mret (Resolved appKey (retrieved_price_id retrieved)))
            (fun _ => mret (Resolved appKey (retrieved_price_id retrieved))) w
          = (Returned (Resolved appKey (retrieved_price_id retrieved)), w1)) as Htry.
  { unfold try_catch. by rewrite run_bind, Hmerge. }
  rewrite (bind_returned _ _ _ _ _ Htry). fold monthly.
  assert (readable "user_credits" w1) as Hr1 by (unfold readable; by rewrite Herr1).
  assert (readable "app_subscriptions" w1) as Ha1 by (unfold readable; by rewrite Herr1).
  destruct (allocate_then_recalculate userId monthly appKey (Some (invoice_id invoice)) w1 d1
              Hr1 Ha1 Hd1)
    as (w' & d' & allocated & Hrun & Hd' & Hal & Hs' & Htb' & _ & Htop' & Hle' & Hls' & Hcap'
        & _).
  exists w', d'. split; [exact Hrun|]. split; [exact Hd'|].
  unfold qualifying_subscriptions in *. rewrite Hsubs1 in Hcap'.
  rewrite Hs', Hle', Hls', Htop', Htb', Hal, Hcap1, Hs1, Htb1, Hle1, Hls1, Htop1.
  repeat split; try done; lia.
Qed.

(** X24. [handleInvoicePaymentSucceeded] does nothing at all, neither to
    accounts nor to the log, for an invoice without subscription
    reference, without customer, for a customer that is no user, and for
    the setup-fee invoice of a trial ([billing_reason]
    [subscription_create] on a subscription retrieved as [trialing]). *)
Theorem handleInvoicePaymentSucceeded_ignores invoice w :
  let run :=
    handleInvoicePaymentSucceeded getUserIdFromStripeCustomer subscriptions_retrieve
      getMonthlyCreditsForSubscription findSubscriptionByPriceId findSubscriptionPlan invoice w in
  (referenced (subscription_ref invoice) = None → run = (Returned tt, w))
  ∧ (truthy (invoice_customer invoice) = None → run = (Returned tt, w))
  ∧ (∀ customerId,
       truthy (invoice_customer invoice) = Some customerId →
       truthy (getUserIdFromStripeCustomer customerId) = None →
       run = (Returned tt, w))
  ∧ (∀ subscriptionId retrieved,
       referenced (subscription_ref invoice) = Some subscriptionId →
       subscriptions_retrieve subscriptionId = Returned retrieved →
       billing_reason invoice = Some "subscription_create" →
       retrieved_status retrieved = "trialing" →
       run = (Returned tt, w)).
Proof.
  intros run. subst run. unfold handleInvoicePaymentSucceeded.
  split; [|split; [|split]].
  - by intros ->.
  - intros ->. by destruct (referenced _).
  - intros customerId -> ->. by destruct (referenced _).
  - intros subscriptionId retrieved -> Hret Hreason Hstatus.
    destruct (truthy (invoice_customer invoice)) as [customerId|]; [|done].
    destruct (truthy (getUserIdFromStripeCustomer customerId)) as [userId|]; [|done].
    rewrite Hret, Hreason, Hstatus. by rewrite decide_True.
Qed.

(** X25. When the subscription of an invoice cannot be retrieved, the
    handler still allocates: as app [keywords], with the monthly credits
    the catalog gives for [keywords] without price id, whatever app the
    invoice was for; and the trial credits are not merged, even for a
    renewal invoice.  On an existing account the subscription balance
    grows by [min(monthly, max(0, cap - balance))], the trial balance and
    its expiry stay as stored, and the row appended, if any, is a
    [subscription_allocation] for [keywords] referring to the invoice. *)
Theorem handleInvoicePaymentSucceeded_falls_back invoice w subscriptionId customerId userId e d :
  referenced (subscription_ref invoice) = Some subscriptionId →
  truthy (invoice_customer invoice) = Some customerId →
  truthy (getUserIdFromStripeCustomer customerId) = Some userId →
  subscriptions_retrieve subscriptionId = Thrown e →
  readable "user_credits" w →
  readable "app_subscriptions" w →
  user_credits w !! userId = Some d →
  let monthly := getMonthlyCreditsForSubscription "keywords" None in
  let allocated := Z.min monthly (Z.max 0 (subscription_cap d - subscription_balance d)) in
  ∃ w' d',
    handleInvoicePaymentSucceeded getUserIdFromStripeCustomer subscriptions_retrieve
      getMonthlyCreditsForSubscription findSubscriptionByPriceId findSubscriptionPlan invoice w
    = (Returned tt, w')
    ∧ user_credits w' !! userId = Some d'
    ∧ subscription_balance d' = subscription_balance d + allocated
    ∧ trial_balance d' = trial_balance d
    ∧ trial_expires_at d' = trial_expires_at d
    ∧ topup_balance d' = topup_balance d
    ∧ (allocated = 0 → credit_transactions w' = credit_transactions w)
    ∧ (allocated ≠ 0 →
       ∃ row, credit_transactions w' = credit_transactions w ++ [row]
              ∧ tx_type row = "subscription_allocation"
              ∧ tx_amount row = allocated
              ∧ tx_app_key row = Some "keywords"
              ∧ tx_reference_id row = Some (invoice_id invoice)).
Proof.
  intros Href Hc Hu Hret Hr Ha Hd monthly allocated.
  unfold handleInvoicePaymentSucceeded. rewrite Href, Hc, Hu, Hret.
  rewrite (bind_returned _ _ _ (Resolved "keywords" None) w) by reflexivity.
  fold monthly.
  destruct (allocate_then_recalculate userId monthly "keywords" (Some (invoice_id invoice)) w d
              Hr Ha Hd)
    as (w' & d' & al & Hrun & Hd' & -> & Hs' & Htb' & Hte' & Htop' & _ & _ & _ & Hlog0 & Hlog1).
  exists w', d'. split; [exact Hrun|]. split; [exact Hd'|]. fold allocated in Hs', Hlog0, Hlog1.
  repeat split; done.
Qed.

End InvoiceHandler.

Lemma handleInvoicePaymentSucceeded_renewal_witness :
  ∃ w',
    handleInvoicePaymentSucceeded Cases.customers Cases.retrieve_labs Cases.monthly_credits
      Samples.no_plan_by_price_id Samples.no_plan_by_app_key Cases.renewal
      (Samples.store (Samples.account 500 10 (Some 30) (Some 900) 900) 12)
    = (Returned tt, w')
    ∧ (fun d => (subscription_balance d, topup_balance d, trial_balance d, lifetime_earned d))
        <$> user_credits w' !! "u" = Some (900, 10, Some 0, 370)
    ∧ (fun r => (tx_type r, tx_amount r)) <$> credit_transactions w'
      = [ ("trial_merge", 30); ("subscription_allocation", 370) ].
Proof.
  destruct (handleInvoicePaymentSucceeded_renewal Cases.customers Cases.retrieve_labs
              Cases.monthly_credits Samples.no_plan_by_price_id Samples.no_plan_by_app_key
              Cases.renewal (Samples.store (Samples.account 500 10 (Some 30) (Some 900) 900) 12)
              "sub_1" "cus_1" "u"
              {| retrieved_app_key := Some "labs"; retrieved_price_id := Some "price_labs";
                 retrieved_status := "active" |}
              (Samples.account 500 10 (Some 30) (Some 900) 900))
    as (w' & d' & Hrun & _); try reflexivity; try (vm_compute; discriminate).
  exists w'. split; [exact Hrun|].
  vm_compute in Hrun. injection Hrun as <-. split; vm_compute; reflexivity.
Defined.

Lemma handleInvoicePaymentSucceeded_falls_back_witness :
  ∃ w',
    handleInvoicePaymentSucceeded Cases.customers Cases.retrieve_down Cases.monthly_credits
      Samples.no_plan_by_price_id Samples.no_plan_by_app_key Cases.renewal Cases.on_trial
    = (Returned tt, w')
    ∧ (fun d => (subscription_balance d, trial_balance d))
        <$> user_credits w' !! "u" = Some (400, Some 30)
    ∧ (fun r => (tx_type r, tx_amount r, tx_app_key r)) <$> credit_transactions w'
      = [ ("subscription_allocation", 300, Some "keywords") ].
Proof.
  destruct (handleInvoicePaymentSucceeded_falls_back Cases.customers Cases.retrieve_down
              Cases.monthly_credits Samples.no_plan_by_price_id Samples.no_plan_by_app_key
              Cases.renewal Cases.on_trial "sub_1" "cus_1" "u"
              (HttpError 500 "An error occurred with our connection to Stripe" NoDetails)
              (Samples.account 100 10 (Some 30) (Some 2000) 900))
    as (w' & d' & Hrun & _); try reflexivity.
  exists w'. split; [exact Hrun|].
  vm_compute in Hrun. injection Hrun as <-. split; vm_compute; reflexivity.
Defined.

(** *** Escaping in the e-mail templates *)

Import Email.

Lemma append_cons a (s t : string) : String a s +:+ t = String a (s +:+ t).
Proof. reflexivity. Qed.

Lemma append_empty (t : string) : "" +:+ t = t.
Proof. reflexivity. Qed.

Lemma append_associative (s1 s2 s3 : string) : s1 +:+ (s2 +:+ s3) = (s1 +:+ s2) +:+ s3.
Proof. induction s1 as [|a s1 IH]; [done|]. by rewrite !append_cons, IH. Qed.

Lemma replace_all_app c replacement s1 s2 :
  replace_all c replacement (s1 +:+ s2)
  = replace_all c replacement s1 +:+ replace_all c replacement s2.
Proof.
  induction s1 as [|a s1 IH]; [done|]. rewrite append_cons. cbn [replace_all].
  destruct (Ascii.eqb a c); rewrite IH; [apply append_associative|done].
Qed.

Lemma escapeHtml_app s1 s2 : escapeHtml (s1 +:+ s2) = escapeHtml s1 +:+ escapeHtml s2.
Proof. unfold escapeHtml. by rewrite !replace_all_app. Qed.

Lemma escapeHtml_character a : escapeHtml (String a EmptyString) = escape_character a.
Proof.
  unfold escapeHtml, escape_character. cbn [replace_all].
  destruct (Ascii.eqb_spec a ampersand) as [->|H1]; [reflexivity|].
  cbn [replace_all].
  destruct (Ascii.eqb_spec a less_than) as [->|H2]; [reflexivity|].
  cbn [replace_all].
  destruct (Ascii.eqb_spec a greater_than) as [->|H3]; [reflexivity|].
  cbn [replace_all].
  destruct (Ascii.eqb_spec a quote) as [->|H4]; reflexivity.
Qed.

Lemma escapeHtml_one_pass str : escapeHtml str = escape_in_one_pass str.
Proof.
  induction str as [|a rest IH]; [done|].
  change (String a rest) with (String a EmptyString +:+ rest).
  rewrite escapeHtml_app, escapeHtml_character, IH. reflexivity.
Qed.

Lemma escape_character_cases a :
  (a = ampersand ∧ escape_character a = "&amp;")
  ∨ (a = less_than ∧ escape_character a = "&lt;")
  ∨ (a = greater_than ∧ escape_character a = "&gt;")
  ∨ (a = quote ∧ escape_character a = "&quot;")
  ∨ (a ≠ ampersand ∧ a ≠ less_than ∧ a ≠ greater_than ∧ a ≠ quote
     ∧ escape_character a = String a EmptyString).
Proof.
  unfold escape_character.
  destruct (Ascii.eqb_spec a ampersand) as [->|H1]; [by left|].
  destruct (Ascii.eqb_spec a less_than) as [->|H2]; [by right; left|].
  destruct (Ascii.eqb_spec a greater_than) as [->|H3]; [by right; right; left|].
  destruct (Ascii.eqb_spec a quote) as [->|H4]; [by right; right; right; left|].
  by right; right; right; right.
Qed.

(** The escaped form of a string that starts with [a]. *)
Lemma escape_in_one_pass_cons a rest :
  escape_in_one_pass (String a rest) = escape_character a +:+ escape_in_one_pass rest.
Proof. reflexivity. Qed.

(** X26. The four replacements of [escapeHtml], in the order the source
    applies them, amount to escaping each character on its own in one
    pass: the ampersands of the entities written for [<], [>] and the
    double quote are not escaped again, because the ampersand is replaced
    first.  Hence escaping distributes over concatenation, and the result
    holds no [<], no [>] and no double quote. *)
Theorem escapeHtml_escapes_once str :
  escapeHtml str = escape_in_one_pass str
  ∧ (∀ str', escapeHtml (str +:+ str') = escapeHtml str +:+ escapeHtml str')
  ∧ (less_than ∉ characters (escapeHtml str))
  ∧ (greater_than ∉ characters (escapeHtml str))
  ∧ (quote ∉ characters (escapeHtml str)).
Proof.
  split; [apply escapeHtml_one_pass|]. split; [intros str'; apply escapeHtml_app|].
  rewrite escapeHtml_one_pass.
  assert (∀ a, a ∈ characters (escape_in_one_pass str) →
               a ≠ less_than ∧ a ≠ greater_than ∧ a ≠ quote) as Hsafe.
  { induction str as [|b rest IH]; intros a Ha; [by apply elem_of_nil in Ha|].
    rewrite escape_in_one_pass_cons in Ha.
    destruct (escape_character_cases b)
      as [[_ E]|[[_ E]|[[_ E]|[[_ E]|(_ & H2 & H3 & H4 & E)]]]]; rewrite E in Ha;
      rewrite ?append_cons, append_empty in Ha; cbn [characters] in Ha;
      repeat (apply elem_of_cons in Ha as [->|Ha]; [by repeat split|]);
      by apply IH. }
  repeat split; intros H; apply Hsafe in H as (? & ? & ?); done.
Qed.

(** X27. [escapeHtml] loses nothing: two strings with the same escaped
    form are the same string. *)
Theorem escapeHtml_injective str1 str2 :
  escapeHtml str1 = escapeHtml str2 → str1 = str2.
Proof.
  rewrite !escapeHtml_one_pass. revert str2.
  induction str1 as [|a rest1 IH]; intros [|b rest2] H.
  - done.
  - exfalso. rewrite escape_in_one_pass_cons in H.
    destruct (escape_character_cases b)
      as [[_ E]|[[_ E]|[[_ E]|[[_ E]|(_ & _ & _ & _ & E)]]]]; rewrite E in H;
      rewrite ?append_cons in H; discriminate.
  - exfalso. rewrite escape_in_one_pass_cons in H.
    destruct (escape_character_cases a)
      as [[_ E]|[[_ E]|[[_ E]|[[_ E]|(_ & _ & _ & _ & E)]]]]; rewrite E in H;
      rewrite ?append_cons in H; discriminate.
  - rewrite !escape_in_one_pass_cons in H.
    destruct (escape_character_cases a)
      as [[-> Ea]|[[-> Ea]|[[-> Ea]|[[-> Ea]|(Ha1 & Ha2 & Ha3 & Ha4 & Ea)]]]];
      destruct (escape_character_cases b)
        as [[-> Eb]|[[-> Eb]|[[-> Eb]|[[-> Eb]|(Hb1 & Hb2 & Hb3 & Hb4 & Eb)]]]];
      rewrite ?Ea, ?Eb in H; rewrite ?append_cons, ?append_empty in H;
      simplify_eq; try done; f_equal; by apply IH.
Qed.

Lemma escapeHtml_injective_witness : "<b>Tom & Jerry</b>" = "<b>Tom & Jerry</b>".
Proof. apply escapeHtml_injective. reflexivity. Defined.

(** *** Two invariants of the pools *)

Lemma all_covered_accounts w w' :
  user_credits w' = user_credits w → all_covered w → all_covered w'.
Proof. unfold all_covered. by intros ->. Qed.

Lemma all_covered_alter w userId (f : UserCredits → UserCredits) :
  all_covered w →
  (∀ d, user_credits w !! userId = Some d → covered d → covered (f d)) →
  all_covered (with_user_credits (alter f userId) w).
Proof.
  intros Hw Hf u d'. simpl. rewrite lookup_alter. case_decide as E.
  - subst u. destruct (user_credits w !! userId) as [d|] eqn:Hd; simpl; [|done].
    intros [= <-]. apply Hf; [done|]. by apply (Hw userId).
  - apply Hw.
Qed.

Lemma bind_all_covered {A B} (m : Task A) (k : A → Task B) w :
  (∀ e w', m w = (Thrown e, w') → all_covered w') →
  (∀ a w', m w = (Returned a, w') → all_covered (k a w').2) →
  all_covered ((m ≫= k) w).2.
Proof.
  intros He Hk. rewrite run_bind. destruct (m w) as [[a|e] w'] eqn:E; simpl; eauto.
Qed.

Lemma ensureUserCreditsRow_all_covered userId w :
  all_covered w →
  ∃ w1, ensureUserCreditsRow userId w = (Returned tt, w1) ∧ all_covered w1.
Proof.
  intros Hw. unfold ensureUserCreditsRow. rewrite run_bind.
  unfold select_maybeSingle, gets.
  destruct (data _) as [d|].
  - eexists. split; [reflexivity|done].
  - unfold insert_user_credits, modify. eexists. split; [reflexivity|].
    destruct (user_credits w !! userId); [done|].
    intros u d'. simpl. rewrite lookup_insert. case_decide.
    + intros [= <-]. unfold covered. simpl. lia.
    + apply Hw.
Qed.

(** What a returned balance says about the lifetime counters. *)
Lemma getBalance_lifetime userId w b w' :
  getBalance userId w = (Returned b, w') →
  ∀ d, user_credits w !! userId = Some d →
       lifetimeEarned b = lifetime_earned d ∧ lifetimeSpent b = lifetime_spent d.
Proof.
  intros H d Hu. destruct (read_error w "user_credits") as [msg|] eqn:Hr.
  - unfold getBalance in H.
    rewrite (bind_returned _ _ _ _ _ (select_user_credits_failed userId w msg Hr)) in H.
    discriminate.
  - rewrite (getBalance_row _ _ _ Hr Hu) in H. by injection H as <- <-.
Qed.

Ltac after_update_covered :=
  rewrite run_bind; unfold update_user_credits at 1, modify;
  match goal with |- all_covered (?k ?a ?w1).2 =>
    apply (all_covered_accounts w1); [assert (keeps_accounts (k a)) as Hk by keeps; apply Hk|]
  end.

Ltac get_balance_covered b Ht Hb Hl :=
  let H := fresh "H" in
  let E := fresh "E" in
  apply bind_all_covered;
  [ intros ? ? H;
    match type of H with
    | getBalance ?u ?w0 = _ => pose proof (getBalance_world u w0) as E; rewrite H in E
    end; simpl in E; by subst
  | intros b ? H; pose proof (getBalance_lifetime _ _ _ _ H) as Hl;
    destruct (getBalance_returned _ _ _ _ H) as (-> & Ht & Hb); clear H ].

Lemma deductCredits_all_covered userId appKey operation referenceId w :
  all_covered w → all_covered (deductCredits userId appKey operation referenceId w).2.
Proof.
  intros Hw. unfold deductCredits. apply bind_all_covered.
  { intros e w' H. pose proof (getCreditCost_world appKey operation w) as E.
    rewrite H in E. simpl in E. by subst. }
  intros c w' H. pose proof (getCreditCost_world appKey operation w) as E.
  rewrite H in E. simpl in E. subst w'. clear H.
  get_balance_covered b Ht Hb Hl.
  destruct (Z.ltb_spec (total b) c) as [|Hle]; [done|].
  rewrite run_bind. cbn [gets]. after_update_covered.
  apply all_covered_alter; [done|]. intros d Hd (Hs & Htop & Htr & Hsum).
  destruct (Hb d Hd) as (Es & Etop & Etr & _). destruct (Hl d Hd) as [_ Els].
  pose proof (effectiveTrialBalance_bounds (clock w) d Htr).
  unfold covered. simpl. lia.
Qed.

Lemma allocateSubscriptionCredits_all_covered userId amount appKey referenceId w :
  0 ≤ amount →
  all_covered w → all_covered (allocateSubscriptionCredits userId amount appKey referenceId w).2.
Proof.
  intros Ha Hw. unfold allocateSubscriptionCredits.
  destruct (ensureUserCreditsRow_all_covered userId w Hw) as (w1 & He & Hw1).
  rewrite (bind_returned _ _ _ _ _ He). get_balance_covered b Ht Hb Hl.
  destruct (_ =? 0); [done|].
  rewrite run_bind. cbn [gets]. after_update_covered.
  apply all_covered_alter; [done|]. intros d Hd (Hs & Htop & Htr & Hsum).
  destruct (Hb d Hd) as (Es & _ & _ & Ecap). destruct (Hl d Hd) as [Ele _].
  unfold covered. simpl. lia.
Qed.

Lemma allocateTopUpCredits_all_covered userId amount packName referenceId w :
  0 ≤ amount →
  all_covered w → all_covered (allocateTopUpCredits userId amount packName referenceId w).2.
Proof.
  intros Ha Hw. unfold allocateTopUpCredits.
  destruct (ensureUserCreditsRow_all_covered userId w Hw) as (w1 & He & Hw1).
  rewrite (bind_returned _ _ _ _ _ He). get_balance_covered b Ht Hb Hl.
  rewrite run_bind. cbn [gets]. after_update_covered.
  apply all_covered_alter; [done|]. intros d Hd (Hs & Htop & Htr & Hsum).
  destruct (Hb d Hd) as (_ & Etop & _). destruct (Hl d Hd) as [Ele _].
  unfold covered. simpl. lia.
Qed.

Lemma allocateRetentionBonus_all_covered userId amount w :
  0 ≤ amount →
  all_covered w → all_covered (allocateRetentionBonus userId amount w).2.
Proof.
  intros Ha Hw. unfold allocateRetentionBonus.
  destruct (ensureUserCreditsRow_all_covered userId w Hw) as (w1 & He & Hw1).
  rewrite (bind_returned _ _ _ _ _ He). get_balance_covered b Ht Hb Hl.
  rewrite run_bind. cbn [gets]. after_update_covered.
  apply all_covered_alter; [done|]. intros d Hd (Hs & Htop & Htr & Hsum).
  destruct (Hb d Hd) as (_ & Etop & _). destruct (Hl d Hd) as [Ele _].
  unfold covered. simpl. lia.
Qed.

Lemma allocateTrialCredits_all_covered userId amount appKey trialEndsAt referenceId w :
  0 ≤ amount →
  all_covered w →
  all_covered (allocateTrialCredits userId amount appKey trialEndsAt referenceId w).2.
Proof.
  intros Ha Hw. unfold allocateTrialCredits.
  destruct (ensureUserCreditsRow_all_covered userId w Hw) as (w1 & He & Hw1).
  rewrite (bind_returned _ _ _ _ _ He). get_balance_covered b Ht Hb Hl.
  rewrite run_bind. cbn [gets]. after_update_covered.
  apply all_covered_alter; [done|]. intros d Hd (Hs & Htop & Htr & Hsum).
  destruct (Hl d Hd) as [Ele _].
  unfold covered. simpl. lia.
Qed.

Lemma expireTrialCredits_all_covered userId appKey reason w :
  all_covered w → all_covered (expireTrialCredits userId appKey reason w).2.
Proof.
  intros Hw. unfold expireTrialCredits. rewrite run_bind.
  unfold select_maybeSingle at 1, gets at 1. cbn beta iota.
  destruct (_ =? 0); [done|].
  rewrite run_bind. cbn [gets]. after_update_covered.
  apply all_covered_alter; [done|]. intros d Hd (Hs & Htop & Htr & Hsum).
  unfold covered. simpl. lia.
Qed.

Lemma mergeTrialCredits_all_covered userId appKey w :
  all_covered w → all_covered (mergeTrialCredits userId appKey w).2.
Proof.
  intros Hw. unfold mergeTrialCredits. rewrite run_bind.
  unfold select_maybeSingle at 1, gets at 1. cbn beta iota.
  destruct (read_error w "user_credits"); [done|].
  destruct (_ =? 0); [done|].
  rewrite run_bind. cbn [gets]. after_update_covered.
  apply all_covered_alter; [done|]. intros d Hd (Hs & Htop & Htr & Hsum).
  unfold covered. simpl.
  unfold user_credits_rows. rewrite Hd. simpl. lia.
Qed.

Section Conservation.

Variable findSubscriptionByPriceId : string → option SubscriptionPlan.
Variable findSubscriptionPlan : string → option string → option SubscriptionPlan.

Lemma recalculateSubscriptionCap_all_covered userId w :
  all_covered w →
  all_covered (recalculateSubscriptionCap findSubscriptionByPriceId findSubscriptionPlan userId w).2.
Proof.
  intros Hw. rewrite recalculateSubscriptionCap_run.
  destruct (read_error w "app_subscriptions"); [done|]. simpl.
  apply all_covered_alter; [done|]. by intros d Hd H.
Qed.

Lemma reachable_granting_covered w :
  reachable_granting findSubscriptionByPriceId findSubscriptionPlan w → all_covered w.
Proof.
  intros Hreach. induction Hreach as [w [Hu _]|op w _ IH Hop|e w _ IH].
  - intros u d. by rewrite Hu, lookup_empty.
  - destruct op; simpl in *.
    + by rewrite getBalance_world.
    + by apply deductCredits_all_covered.
    + by apply allocateSubscriptionCredits_all_covered.
    + by apply allocateTopUpCredits_all_covered.
    + by apply allocateRetentionBonus_all_covered.
    + by apply allocateTrialCredits_all_covered.
    + by apply expireTrialCredits_all_covered.
    + by apply mergeTrialCredits_all_covered.
    + by apply recalculateSubscriptionCap_all_covered.
  - by destruct e.
Qed.

Lemma getBalance_covered userId w b w' :
  all_covered w →
  getBalance userId w = (Returned b, w') →
  0 ≤ subscriptionBalance b ∧ 0 ≤ topupBalance b ∧ 0 ≤ trialBalance b
  ∧ total b = subscriptionBalance b + topupBalance b + trialBalance b
  ∧ total b ≤ lifetimeEarned b - lifetimeSpent b.
Proof.
  intros Hw Hb.
  destruct (read_error w "user_credits") as [msg|] eqn:Hr.
  { unfold getBalance in Hb.
    rewrite (bind_returned _ _ _ _ _ (select_user_credits_failed userId w msg Hr)) in Hb.
    discriminate. }
  destruct (user_credits w !! userId) as [d|] eqn:Hu.
  - rewrite (getBalance_row _ _ _ Hr Hu) in Hb. injection Hb as <- <-. simpl.
    destruct (Hw userId d Hu) as (Hs & Htop & Htr & Hsum).
    pose proof (effectiveTrialBalance_bounds (clock w) d Htr). lia.
  - rewrite (getBalance_missing _ _ Hr Hu) in Hb. injection Hb as <- <-. simpl. lia.
Qed.

(** X8. No pool ever goes negative: in every store reachable from a fresh
    ledger by engine operations whose allocations are asked for amounts of
    at least 0, the subscription, top-up and stored trial balance of every
    account are at least 0, and so is every part of what [getBalance]
    reports.  Deductions need no assumption for this, whatever the cost in
    the catalog: the three-way split never takes more from a pool than it
    holds. *)
Theorem pools_never_negative w :
  reachable_granting findSubscriptionByPriceId findSubscriptionPlan w →
  nonnegative w
  ∧ ∀ userId b w',
      getBalance userId w = (Returned b, w') →
      0 ≤ subscriptionBalance b ∧ 0 ≤ topupBalance b ∧ 0 ≤ trialBalance b ∧ 0 ≤ total b.
Proof.
  intros Hreach. pose proof (reachable_granting_covered w Hreach) as Hw. split.
  - intros userId d Hd. destruct (Hw userId d Hd) as (Hs & Htop & Htr & _). done.
  - intros userId b w' Hb.
    destruct (getBalance_covered userId w b w' Hw Hb) as (Hs & Htop & Htr & Ht & _). lia.
Qed.

(** X28. The engine creates no credits: in every store reachable from a
    fresh ledger by engine operations whose allocations are asked for
    amounts of at least 0, the three pools of every account together hold
    at most [lifetimeEarned - lifetimeSpent].  What the pools hold less is
    what expired, was lost to the cap on a merge, or was overwritten by a
    new trial allocation; and the total [getBalance] reports is within the
    same bound. *)
Theorem credits_never_created w :
  reachable_granting findSubscriptionByPriceId findSubscriptionPlan w →
  (∀ userId d, user_credits w !! userId = Some d →
     subscription_balance d + topup_balance d + default 0 (trial_balance d)
     ≤ lifetime_earned d - lifetime_spent d)
  ∧ ∀ userId b w',
      getBalance userId w = (Returned b, w') →
      total b ≤ lifetimeEarned b - lifetimeSpent b.
Proof.
  intros Hreach. pose proof (reachable_granting_covered w Hreach) as Hw. split.
  - intros userId d Hd. by destruct (Hw userId d Hd) as (_ & _ & _ & ?).
  - intros userId b w' Hb.
    by destruct (getBalance_covered userId w b w' Hw Hb) as (_ & _ & _ & _ & ?).
Qed.

End Conservation.

Lemma credits_never_created_witness :
  ∃ d, user_credits Samples.funded !! "u" = Some d
       ∧ subscription_balance d + topup_balance d + default 0 (trial_balance d)
         ≤ lifetime_earned d - lifetime_spent d.
Proof.
  assert (reachable_granting Samples.no_plan_by_price_id Samples.no_plan_by_app_key
            Samples.funded) as Hreach.
  { unfold Samples.funded, Samples.step.
    do 3 (apply reachable_granting_perform; [|simpl; lia]).
    apply reachable_granting_perform; [|exact I].
    apply reachable_granting_perform; [|simpl; lia].
    unfold Samples.two_apps. do 2 apply reachable_granting_happen.
    apply reachable_granting_fresh. by split. }
  destruct (credits_never_created _ _ _ Hreach) as [Hw _].
  eexists. split; [vm_compute; reflexivity|]. apply (Hw "u"). vm_compute. reflexivity.
Defined.

Lemma pools_never_negative_witness :
  nonnegative Samples.funded
  ∧ ∃ b, getBalance "u" Samples.funded = (Returned b, Samples.funded) ∧ 0 ≤ total b.
Proof.
  assert (reachable_granting Samples.no_plan_by_price_id Samples.no_plan_by_app_key
            Samples.funded) as Hreach.
  { unfold Samples.funded, Samples.step.
    do 3 (apply reachable_granting_perform; [|simpl; lia]).
    apply reachable_granting_perform; [|exact I].
    apply reachable_granting_perform; [|simpl; lia].
    unfold Samples.two_apps. do 2 apply reachable_granting_happen.
    apply reachable_granting_fresh. by split. }
  destruct (pools_never_negative _ _ _ Hreach) as [Hw Hb].
  split; [exact Hw|].
  destruct (getBalance_outcome "u" Samples.funded) as [[b|e] H].
  - exists b. split; [exact H|]. by destruct (Hb "u" b _ H) as (_ & _ & _ & ?).
  - vm_compute in H. discriminate.
Defined.

(** *** The transaction a deduction returns *)

(** X29. The [transactionId] a successful deduction of a cost [c > 0]
    returns, from an account whose top-up and trial pools are not
    negative, is the id of the row the deduction appended last: that row is
    the last row of the log, it is found in the log at the position its id
    gives, it belongs to the user and carries the reference id of the
    call, and its [balance_after] is the [newBalance] returned, whichever
    pool was drained last. *)
Theorem deductCredits_returns_last_row userId appKey operation referenceId w c d :
  getCreditCost appKey operation w = (Returned c, w) →
  readable "user_credits" w →
  user_credits w !! userId = Some d →
  0 < c →
  0 ≤ topup_balance d →
  0 ≤ default 0 (trial_balance d) →
  c ≤ subscription_balance d + topup_balance d + effectiveTrialBalance (clock w) d →
  ∃ res w' row,
    deductCredits userId appKey operation referenceId w = (Returned res, w')
    ∧ transactionId res = Some (tx_id row)
    ∧ last (credit_transactions w') = Some row
    ∧ credit_transactions w' !! tx_id row = Some row
    ∧ tx_balance_after row = deduct_newBalance res
    ∧ tx_user_id row = userId
    ∧ tx_reference_id row = referenceId
    ∧ tx_type row = "usage_deduction".
Proof.
  intros Hc Hr Hu H0 Htop Htr Hle.
  pose proof (deductCredits_run userId appKey operation referenceId w c d Hc Hr Hu Hle) as Hrun.
  cbv zeta in Hrun.
  pose proof (effectiveTrialBalance_bounds (clock w) d Htr) as Hb.
  set (tb := effectiveTrialBalance (clock w) d) in *.
  set (fromTrial := Z.min c tb) in *.
  set (fromTopup := Z.min (c - fromTrial) (topup_balance d)) in *.
  set (es := filter _ _) in Hrun.
  assert (∃ pre e, es = pre ++ [e]
                   ∧ e.2 = subscription_balance d + topup_balance d + tb - c)
    as (pre & e & Hes & Hafter).
  { subst es. rewrite !filter_cons, filter_nil. cbn [fst snd].
    destruct (decide (- fromTrial < 0)), (decide (- fromTopup < 0)),
      (decide (- (c - fromTrial - fromTopup) < 0)); simpl in *;
      try (exfalso; lia);
      first [ eexists [_; _], _; split; [reflexivity|simpl; lia]
            | eexists [_], _; split; [reflexivity|simpl; lia]
            | eexists [], _; split; [reflexivity|simpl; lia] ]. }
  clearbody es. subst es.
  unfold usage_deduction_rows in Hrun. rewrite imap_app in Hrun.
  cbn [imap] in Hrun.
  match type of Hrun with
  | context [imap ?f pre] => set (before := imap f pre) in Hrun
  end.
  match type of Hrun with
  | context [usage_deduction_row ?u ?o ?a ?r ?t ?i e] =>
      set (row := usage_deduction_row u o a r t i e) in Hrun
  end.
  assert (length before = length pre) as Hlen by (subst before; apply length_imap).
  exists {| deduct_newBalance := subscription_balance d + topup_balance d + tb - c;
            transactionId := Some (tx_id row) |},
         (with_credit_transactions (fun log => log ++ before ++ [row])
            (with_user_credits (insert userId
               {| subscription_balance := subscription_balance d - (c - fromTrial - fromTopup);
                  topup_balance := topup_balance d - fromTopup;
                  trial_balance := Some (tb - fromTrial);
                  trial_expires_at := trial_expires_at d;
                  subscription_cap := subscription_cap d;
                  lifetime_earned := lifetime_earned d;
                  lifetime_spent := lifetime_spent d + c;
                  last_allocated := last_allocated d;
                  updated_at := Some (clock w) |}) w)), row.
  split.
  { rewrite Hrun. by rewrite last_snoc. }
  split; [reflexivity|]. simpl.
  split; [by rewrite app_assoc, last_snoc|].
  split.
  { subst row. cbn [tx_id usage_deduction_row]. rewrite app_assoc.
    apply list_lookup_middle. by rewrite length_app, Hlen, Nat.add_0_r. }
  repeat split; try reflexivity. exact Hafter.
Qed.

Lemma deductCredits_returns_last_row_witness :
  ∃ res w' row,
    deductCredits "u" "keywords" "search" (Some "job-7")
      (Samples.store (Samples.account 100 10 (Some 5) None 900) 12) = (Returned res, w')
    ∧ transactionId res = Some (tx_id row)
    ∧ last (credit_transactions w') = Some row
    ∧ tx_balance_after row = deduct_newBalance res
    ∧ deduct_newBalance res = 103
    ∧ tx_pool row = topup.
Proof.
  destruct (deductCredits_returns_last_row "u" "keywords" "search" (Some "job-7")
              (Samples.store (Samples.account 100 10 (Some 5) None 900) 12) 12
              (Samples.account 100 10 (Some 5) None 900))
    as (res & w' & row & Hrun & Hid & Hlast & _ & Hafter & _);
    try reflexivity; try (vm_compute; discriminate).
  exists res, w', row. split; [exact Hrun|]. split; [exact Hid|]. split; [exact Hlast|].
  split; [exact Hafter|].
  vm_compute in Hrun. injection Hrun as <- <-. vm_compute in Hlast. injection Hlast as <-.
  split; reflexivity.
Defined.
